(** * Epoch Zero simulation core: a shallow embedding and its properties

    The development follows [mothe_simulation_core.py] (the tick function
    [run_simulation_step] and the objects it drives) and the driver loop
    of [streamlit_app.py].

    Modelling choices, used throughout:
    - a Python [float] is an exact rational ([Q]); rounding error of the
      binary64 arithmetic, infinities and NaN are outside the model;
    - the module [random] is an oracle: the i-th call of
      [random.random()] yields [draws i], a rational of [[0,1)], and
      [uniform], [randint] and [choice] are computed from it;
    - a raised exception is the [Raise] result of a small state and error
      monad whose state is the random generator;
    - the dictionary [current_results] has a fixed set of string keys and
      is a record of optional fields ([None]: the key is absent);
    - [GRID_NODES] and [SIM_INTERVAL_SECONDS], the module's configuration
      constants, are parameters of the model; [repo_GRID_NODES] and
      [repo_SIM_INTERVAL_SECONDS] are the values of the repository. *)

From Stdlib Require Import QArith Qround Qabs Lqa Lia ZArith List String Ascii.
From Stdlib Require Import DecimalString Decimal.
Import ListNotations.
Open Scope Q_scope.

(** ** Numbers *)

(** [x > y] on numbers. *)
Definition Qgtb (x y : Q) : bool := negb (Qle_bool x y).

(** [max(a, b)] of Python: [b] when [b > a], else [a]. *)
Definition py_max (a b : Q) : Q := if Qgtb b a then b else a.

(** [len(l)], as a number. *)
Definition py_len {A : Type} (l : list A) : Q := inject_Z (Z.of_nat (List.length l)).

(** [sum(l)]: left to right, from [0]. *)
Definition py_sum (l : list Q) : Q := fold_left Qplus l 0.

(** Rounding to the nearest integer, ties to even. *)
Definition round_half_even (x : Q) : Z :=
  let f := Qfloor x in
  match Qcompare (x - inject_Z f) (1 # 2) with
  | Lt => f
  | Gt => (f + 1)%Z
  | Eq => if Z.even f then f else (f + 1)%Z
  end.

Definition pow10 (n : nat) : positive := Z.to_pos (10 ^ Z.of_nat n).

(** [round(x, ndigits)]. *)
Definition py_round (x : Q) (ndigits : nat) : Q :=
  round_half_even (x * inject_Z (Zpos (pow10 ndigits))) # pow10 ndigits.

(** ** Strings *)

Definition str_Z (z : Z) : string := NilZero.string_of_int (Z.to_int z).

Fixpoint zeros (n : nat) : string :=
  match n with
  | O => EmptyString
  | S n' => String "0" (zeros n')
  end.

(** [s.zfill(width)] for a string of digits. *)
Definition zfill (width : nat) (s : string) : string :=
  String.append (zeros (width - String.length s)) s.

(** An f-string: the concatenation of its pieces. *)
Definition fstring (parts : list string) : string := String.concat "" parts.

(** [f"{x:.{prec}f}"]. *)
Definition format_f (prec : nat) (x : Q) : string :=
  let scaled := round_half_even (Qabs x * inject_Z (Zpos (pow10 prec))) in
  let ip := (scaled / Zpos (pow10 prec))%Z in
  let fp := (scaled mod Zpos (pow10 prec))%Z in
  fstring [ (if Qgtb 0 x then "-" else "")%string; str_Z ip; "."%string;
            zfill prec (str_Z fp) ].

(** [str(x)] for a float with at most two decimals, as [round(_, 2)]
    returns: the shortest form, with at least one decimal. *)
Definition str_float_2dp (x : Q) : string :=
  let scaled := round_half_even (Qabs x * 100) in
  let ip := (scaled / 100)%Z in
  let fp := (scaled mod 100)%Z in
  fstring [ (if Qgtb 0 x then "-" else "")%string; str_Z ip; "."%string;
            (if (fp mod 10 =? 0)%Z then str_Z (fp / 10) else zfill 2 (str_Z fp)) ].

Definition upper_ascii (c : ascii) : ascii :=
  let n := nat_of_ascii c in
  if (97 <=? n)%nat && (n <=? 122)%nat then ascii_of_nat (n - 32) else c.

(** [s.upper()] for an ASCII string: a string of this model is a
    sequence of one-byte characters, and only the letters a-z are raised.
    Beyond ASCII Python slices and raises code points, which this does
    not follow; what is stated of the text of a sovereign id is stated
    for regions that satisfy [str_isascii]. *)
Fixpoint str_upper (s : string) : string :=
  match s with
  | EmptyString => EmptyString
  | String c s' => String (upper_ascii c) (str_upper s')
  end.

(** [s.isascii()]. *)
Definition str_isascii (s : string) : bool :=
  forallb (fun c => (nat_of_ascii c <? 128)%nat) (list_ascii_of_string s).

(** A [datetime] is its number of seconds since the epoch. *)
Definition datetime := Q.

(** [t.strftime('%H:%M:%S')]. *)
Definition strftime_HMS (t : datetime) : string :=
  let s := (Qfloor t mod 86400)%Z in
  fstring [ zfill 2 (str_Z (s / 3600)); ":"%string;
            zfill 2 (str_Z (s / 60 mod 60)); ":"%string;
            zfill 2 (str_Z (s mod 60)) ].

(** [l[-n:]]: the last [n] elements, the whole list when it is shorter. *)
Definition slice_last {A : Type} (n : nat) (l : list A) : list A :=
  skipn (List.length l - n) l.

(** ** Exceptions and the random generator *)

Inductive PyError : Type :=
| KeyError (key : string)
| IndexError
| ZeroDivisionError.

Inductive result (A : Type) : Type :=
| Ok (a : A)
| Raise (e : PyError).
Arguments Ok {A} a.
Arguments Raise {A} e.

Record RNG : Type := mkRNG { draws : nat -> Q; pos : nat }.

Definition M (A : Type) : Type := RNG -> result (A * RNG).

Definition ret {A : Type} (a : A) : M A := fun g => Ok (a, g).

Definition bind {A B : Type} (m : M A) (f : A -> M B) : M B :=
  fun g => match m g with
           | Ok (a, g') => f a g'
           | Raise e => Raise e
           end.

Definition raise {A : Type} (e : PyError) : M A := fun _ => Raise e.

Notation "x <- m ;; k" := (bind m (fun x => k))
  (at level 61, m at next level, right associativity).
Notation "' pat <- m ;; k" := (bind m (fun x => match x with pat => k end))
  (at level 61, pat pattern, m at next level, right associativity).

(** [d[key]]: [KeyError] when the key is absent. *)
Definition getitem {A : Type} (key : string) (field : option A) : M A :=
  match field with
  | Some v => ret v
  | None => raise (KeyError key)
  end.

(** [random.random()]. *)
Definition random_random : M Q :=
  fun g => Ok (draws g (pos g), mkRNG (draws g) (S (pos g))).

(** [random.uniform(a, b)] is [a + (b - a) * random()]. *)
Definition random_uniform (a b : Q) : M Q :=
  r <- random_random ;; ret (a + (b - a) * r).

(** [random.randint(a, b)]: an integer of [[a, b]]. *)
Definition random_randint (a b : Z) : M Z :=
  r <- random_random ;; ret (a + Qfloor (r * inject_Z (b - a + 1)))%Z.

(** [random.choice(seq)]: [IndexError] on an empty sequence. *)
Definition random_choice {A : Type} (seq : list A) : M A :=
  r <- random_random ;;
  match nth_error seq (Z.to_nat (Qfloor (r * inject_Z (Z.of_nat (List.length seq))))) with
  | Some x => ret x
  | None => raise IndexError
  end.

(** [a / b] of Python. *)
Definition py_div (a b : Q) : M Q :=
  if Qeq_bool b 0 then raise ZeroDivisionError else ret (a / b).

(** ** The objects of the simulation *)

Record SolarNodeController : Type := mkSolar {
  node_name : string;
  irradiance : Q;
  temperature : Q;
  panel_health : Q;
  output_power_mwh : Q
}.

(** [SolarNodeController(node_name)]. *)
Definition new_SolarNodeController (name : string) : SolarNodeController :=
  mkSolar name 0 25 100 0.

Record UniversalDistributionNode : Type := mkDist {
  region_name : string;
  energy_balance : Q
}.

(** [UniversalDistributionNode(region_name)]. *)
Definition new_UniversalDistributionNode (name : string) : UniversalDistributionNode :=
  mkDist name 0.

Inductive AISovereigntyProtocol : Type := mkASP.

(** The dictionary [{'total_mwh': ...}]. *)
Record Energy : Type := mkEnergy { total_mwh : Q }.

(** [current_results]: the keys [run_simulation_step] uses and the two
    the driver owns ([current_sim_time], [sim_step_count]). *)
Record SimState : Type := mkState {
  solar_nodes : option (list SolarNodeController);
  distribution_nodes : option (list UniversalDistributionNode);
  asp : option AISovereigntyProtocol;
  energy : option Energy;
  gold : option Q;
  oil : option Q;
  nuclear_signatures : option Z;
  anomalies : option (list string);
  supply_chain : option (list string);
  orbital : option (list string);
  ids : option (list string);
  bcp_transactions : option (list string);
  logs : option (list string);
  current_sim_time : option datetime;
  sim_step_count : option Z
}.

(** The empty dictionary. *)
Definition empty_state : SimState :=
  mkState None None None None None None None None None None None None None None None.

(** [d[key] = v], one definition per key. *)
Definition set_solar_nodes (s : SimState) (v : list SolarNodeController) : SimState :=
  mkState (Some v) (distribution_nodes s) (asp s) (energy s) (gold s) (oil s)
    (nuclear_signatures s) (anomalies s) (supply_chain s) (orbital s) (ids s)
    (bcp_transactions s) (logs s) (current_sim_time s) (sim_step_count s).

Definition set_distribution_nodes (s : SimState) (v : list UniversalDistributionNode) : SimState :=
  mkState (solar_nodes s) (Some v) (asp s) (energy s) (gold s) (oil s)
    (nuclear_signatures s) (anomalies s) (supply_chain s) (orbital s) (ids s)
    (bcp_transactions s) (logs s) (current_sim_time s) (sim_step_count s).

Definition set_asp (s : SimState) (v : AISovereigntyProtocol) : SimState :=
  mkState (solar_nodes s) (distribution_nodes s) (Some v) (energy s) (gold s) (oil s)
    (nuclear_signatures s) (anomalies s) (supply_chain s) (orbital s) (ids s)
    (bcp_transactions s) (logs s) (current_sim_time s) (sim_step_count s).

Definition set_energy (s : SimState) (v : Energy) : SimState :=
  mkState (solar_nodes s) (distribution_nodes s) (asp s) (Some v) (gold s) (oil s)
    (nuclear_signatures s) (anomalies s) (supply_chain s) (orbital s) (ids s)
    (bcp_transactions s) (logs s) (current_sim_time s) (sim_step_count s).

Definition set_gold (s : SimState) (v : Q) : SimState :=
  mkState (solar_nodes s) (distribution_nodes s) (asp s) (energy s) (Some v) (oil s)
    (nuclear_signatures s) (anomalies s) (supply_chain s) (orbital s) (ids s)
    (bcp_transactions s) (logs s) (current_sim_time s) (sim_step_count s).

Definition set_oil (s : SimState) (v : Q) : SimState :=
  mkState (solar_nodes s) (distribution_nodes s) (asp s) (energy s) (gold s) (Some v)
    (nuclear_signatures s) (anomalies s) (supply_chain s) (orbital s) (ids s)
    (bcp_transactions s) (logs s) (current_sim_time s) (sim_step_count s).

Definition set_nuclear_signatures (s : SimState) (v : Z) : SimState :=
  mkState (solar_nodes s) (distribution_nodes s) (asp s) (energy s) (gold s) (oil s)
    (Some v) (anomalies s) (supply_chain s) (orbital s) (ids s)
    (bcp_transactions s) (logs s) (current_sim_time s) (sim_step_count s).

Definition set_anomalies (s : SimState) (v : list string) : SimState :=
  mkState (solar_nodes s) (distribution_nodes s) (asp s) (energy s) (gold s) (oil s)
    (nuclear_signatures s) (Some v) (supply_chain s) (orbital s) (ids s)
    (bcp_transactions s) (logs s) (current_sim_time s) (sim_step_count s).

Definition set_supply_chain (s : SimState) (v : list string) : SimState :=
  mkState (solar_nodes s) (distribution_nodes s) (asp s) (energy s) (gold s) (oil s)
    (nuclear_signatures s) (anomalies s) (Some v) (orbital s) (ids s)
    (bcp_transactions s) (logs s) (current_sim_time s) (sim_step_count s).

Definition set_orbital (s : SimState) (v : list string) : SimState :=
  mkState (solar_nodes s) (distribution_nodes s) (asp s) (energy s) (gold s) (oil s)
    (nuclear_signatures s) (anomalies s) (supply_chain s) (Some v) (ids s)
    (bcp_transactions s) (logs s) (current_sim_time s) (sim_step_count s).

Definition set_ids (s : SimState) (v : list string) : SimState :=
  mkState (solar_nodes s) (distribution_nodes s) (asp s) (energy s) (gold s) (oil s)
    (nuclear_signatures s) (anomalies s) (supply_chain s) (orbital s) (Some v)
    (bcp_transactions s) (logs s) (current_sim_time s) (sim_step_count s).

Definition set_bcp_transactions (s : SimState) (v : list string) : SimState :=
  mkState (solar_nodes s) (distribution_nodes s) (asp s) (energy s) (gold s) (oil s)
    (nuclear_signatures s) (anomalies s) (supply_chain s) (orbital s) (ids s)
    (Some v) (logs s) (current_sim_time s) (sim_step_count s).

Definition set_logs (s : SimState) (v : list string) : SimState :=
  mkState (solar_nodes s) (distribution_nodes s) (asp s) (energy s) (gold s) (oil s)
    (nuclear_signatures s) (anomalies s) (supply_chain s) (orbital s) (ids s)
    (bcp_transactions s) (Some v) (current_sim_time s) (sim_step_count s).

Definition set_current_sim_time (s : SimState) (v : datetime) : SimState :=
  mkState (solar_nodes s) (distribution_nodes s) (asp s) (energy s) (gold s) (oil s)
    (nuclear_signatures s) (anomalies s) (supply_chain s) (orbital s) (ids s)
    (bcp_transactions s) (logs s) (Some v) (sim_step_count s).

Definition set_sim_step_count (s : SimState) (v : Z) : SimState :=
  mkState (solar_nodes s) (distribution_nodes s) (asp s) (energy s) (gold s) (oil s)
    (nuclear_signatures s) (anomalies s) (supply_chain s) (orbital s) (ids s)
    (bcp_transactions s) (logs s) (current_sim_time s) (Some v).

(** [if key not in d: d[key] = v]: the value the key holds afterwards. *)
Definition or_default {A : Type} (field : option A) (v : A) : A :=
  match field with
  | Some x => x
  | None => v
  end.

(** [d[key].append(x)], for the keys that hold lists of lines. *)
Definition logs_append (s : SimState) (line : string) : M SimState :=
  l <- getitem "logs" (logs s) ;; ret (set_logs s (l ++ [line])).

Definition anomalies_append (s : SimState) (line : string) : M SimState :=
  l <- getitem "anomalies" (anomalies s) ;; ret (set_anomalies s (l ++ [line])).

Definition supply_chain_append (s : SimState) (line : string) : M SimState :=
  l <- getitem "supply_chain" (supply_chain s) ;; ret (set_supply_chain s (l ++ [line])).

Definition orbital_append (s : SimState) (line : string) : M SimState :=
  l <- getitem "orbital" (orbital s) ;; ret (set_orbital s (l ++ [line])).

Definition ids_append (s : SimState) (line : string) : M SimState :=
  l <- getitem "ids" (ids s) ;; ret (set_ids s (l ++ [line])).

(** [if key not in d: <assignment>]: [field] is the key's lookup in [s]. *)
Definition if_missing {A : Type} (field : option A) (s assigned : SimState) : SimState :=
  match field with
  | None => assigned
  | Some _ => s
  end.

(** ** The simulation core, over its configuration constants *)

Section Core.

Variable GRID_NODES : list string.
Variable SIM_INTERVAL_SECONDS : Q.

(** *** SolarNodeController *)

Definition read_sensors (self : SolarNodeController) : M SolarNodeController :=
  irr <- random_uniform 800 1200 ;;
  temp <- random_uniform 15 45 ;;
  wear <- random_uniform 0 0.01 ;;
  ret (mkSolar (node_name self) irr temp (py_max 80 (panel_health self - wear))
         (output_power_mwh self)).

Definition calibrate_output (self : SolarNodeController) : Q * SolarNodeController :=
  let base_power := (irradiance self / 1000) * 0.3 in
  let health_factor := panel_health self / 100 in
  let temp_factor := py_max 0.75 (1 - (temperature self - 25) * 0.01) in
  let out := base_power * health_factor * temp_factor * (SIM_INTERVAL_SECONDS / 3600) in
  (out, mkSolar (node_name self) (irradiance self) (temperature self)
          (panel_health self) out).

(** Returns the output and the node as the call leaves it. *)
Definition generate_energy (self : SolarNodeController) : M (Q * SolarNodeController) :=
  self <- read_sensors self ;;
  ret (calibrate_output self).

(** *** UniversalDistributionNode *)

Definition balance_and_distribute (self : UniversalDistributionNode) (amount : Q)
  : M UniversalDistributionNode :=
  share <- py_div amount (py_len GRID_NODES) ;;
  ret (mkDist (region_name self) (energy_balance self + share)).

(** *** AISovereigntyProtocol *)

Definition monitor_grid_integrity (self : AISovereigntyProtocol) (threat_level : Q) : bool :=
  if Qgtb threat_level 8500 then true else false.

(** *** Resource and event generators *)

Definition ai_boring_search_for_gold (minutes : Q) : M Q :=
  u <- random_uniform 0 0.002 ;;
  ret (py_round (u * minutes) 6).

Definition ai_boring_search_for_oil (minutes : Q) : M Q :=
  u <- random_uniform 0 0.003 ;;
  ret (py_round (u * minutes) 6).

Definition quiet_nuclear_protocol_scan (minutes : Q) : M Z :=
  random_choice [0%Z; 1%Z].

Definition simulate_supply_chain (region : string) : M string :=
  water_units <- random_randint 10000 20000 ;;
  meds <- random_choice ["antivirals"; "antibiotics"; "vaccines"]%string ;;
  ret (fstring ["[SUPPLY_CHAIN] Delivered "; str_Z water_units; "L water + "; meds;
                " to "; region]%string).

Definition simulate_orbital_scan (region : string) : M string :=
  findings <- random_choice ["Gold Vein Located"; "Tectonic Stress Point Detected";
                             "Uranium Trace Signature"; "No Anomaly"]%string ;;
  ret (fstring ["[ORBITAL SCAN] Satellite scan of "; region; ": "; findings]%string).

Definition register_sovereign_id (region : string) : M string :=
  n <- random_randint 1000 9999 ;;
  let seed_id := fstring ["SEED_"; str_Z n; "_"; str_upper (substring 0 2 region)]%string in
  u <- random_uniform 0.5 1.0 ;;
  let rep_score := py_round u 2 in
  ret (fstring ["[SOVEREIGN ID] "; seed_id; " active in "; region; " (rep: ";
                str_float_2dp rep_score; ")"]%string).

(** *** run_simulation_step *)

(** [[node.generate_energy() for node in solar_nodes]]: the outputs, and
    the nodes as the calls leave them. *)
Fixpoint generate_energy_all (nodes : list SolarNodeController)
  : M (list Q * list SolarNodeController) :=
  match nodes with
  | [] => ret ([], [])
  | node :: rest =>
      '(out, node') <- generate_energy node ;;
      '(outs, rest') <- generate_energy_all rest ;;
      ret (out :: outs, node' :: rest')
  end.

Definition stamp (current_time : datetime) (text : string) : string :=
  fstring ["["; strftime_HMS current_time; "] "; text]%string.

(** The loop "Distribute energy": the nodes as the loop leaves them and
    the dictionary with the appended lines. *)
Fixpoint distribute_energy (nodes : list UniversalDistributionNode) (amount : Q)
    (current_time : datetime) (current_results : SimState)
  : M (list UniversalDistributionNode * SimState) :=
  match nodes with
  | [] => ret ([], current_results)
  | node :: rest =>
      node' <- balance_and_distribute node amount ;;
      current_results <- logs_append current_results
        (stamp current_time
           (fstring ["[DISTRIBUTION] "; region_name node'; " current balance ";
                     format_f 6 (energy_balance node'); " MWh."]%string)) ;;
      '(rest', current_results) <- distribute_energy rest amount current_time current_results ;;
      ret (node' :: rest', current_results)
  end.

(** The loop "Regional operations". *)
Fixpoint regional_operations (regions : list string) (current_time : datetime)
    (current_results : SimState) : M SimState :=
  match regions with
  | [] => ret current_results
  | region :: rest =>
      sc_log <- simulate_supply_chain region ;;
      current_results <- supply_chain_append current_results (stamp current_time sc_log) ;;
      current_results <- logs_append current_results (stamp current_time sc_log) ;;
      orb_log <- simulate_orbital_scan region ;;
      current_results <- orbital_append current_results (stamp current_time orb_log) ;;
      current_results <- logs_append current_results (stamp current_time orb_log) ;;
      id_log <- register_sovereign_id region ;;
      current_results <- ids_append current_results (stamp current_time id_log) ;;
      current_results <- logs_append current_results (stamp current_time id_log) ;;
      regional_operations rest current_time current_results
  end.

(** The first block: "Initialize objects if not already present" and
    "Initialize core metrics if not present". The three local variables
    the source reads between the two are read in [run_simulation_body]. *)
Definition initialize_objects (current_results : SimState) : SimState :=
  let current_results := if_missing (solar_nodes current_results) current_results
    (set_solar_nodes current_results (map new_SolarNodeController GRID_NODES)) in
  let current_results := if_missing (distribution_nodes current_results) current_results
    (set_distribution_nodes current_results (map new_UniversalDistributionNode GRID_NODES)) in
  let current_results := if_missing (asp current_results) current_results
    (set_asp current_results mkASP) in
  current_results.

Definition initialize_metrics (current_results : SimState) : SimState :=
  let current_results := if_missing (energy current_results) current_results
    (set_energy current_results (mkEnergy 0)) in
  let current_results := if_missing (gold current_results) current_results
    (set_gold current_results 0) in
  let current_results := if_missing (oil current_results) current_results
    (set_oil current_results 0) in
  let current_results := if_missing (nuclear_signatures current_results) current_results
    (set_nuclear_signatures current_results 0%Z) in
  let current_results := if_missing (anomalies current_results) current_results
    (set_anomalies current_results []) in
  let current_results := if_missing (supply_chain current_results) current_results
    (set_supply_chain current_results []) in
  let current_results := if_missing (orbital current_results) current_results
    (set_orbital current_results []) in
  let current_results := if_missing (ids current_results) current_results
    (set_ids current_results []) in
  let current_results := if_missing (bcp_transactions current_results) current_results
    (set_bcp_transactions current_results []) in
  let current_results := if_missing (logs current_results) current_results
    (set_logs current_results []) in
  current_results.

(** The function up to, and without, its last assignment, the truncation
    of the log. The node objects are shared between the local lists and
    the dictionary, so what the calls do to them is stored back. *)
Definition run_simulation_body (current_results : SimState) (current_time : datetime)
    (sim_interval_seconds : Q) : M SimState :=
  let current_results := initialize_objects current_results in
  solar <- getitem "solar_nodes" (solar_nodes current_results) ;;
  distribution <- getitem "distribution_nodes" (distribution_nodes current_results) ;;
  the_asp <- getitem "asp" (asp current_results) ;;
  let current_results := initialize_metrics current_results in
  (* Generate energy from all solar nodes and sum *)
  '(outputs, solar) <- generate_energy_all solar ;;
  let current_results := set_solar_nodes current_results solar in
  let generated_mwh_this_interval := py_sum outputs in
  e <- getitem "energy" (energy current_results) ;;
  let current_results :=
    set_energy current_results (mkEnergy (total_mwh e + generated_mwh_this_interval)) in
  current_results <- logs_append current_results
    (stamp current_time
       (fstring ["[ENERGY] Generated "; format_f 6 generated_mwh_this_interval;
                 " MWh."]%string)) ;;
  (* Distribute energy *)
  '(distribution, current_results) <-
    distribute_energy distribution generated_mwh_this_interval current_time current_results ;;
  let current_results := set_distribution_nodes current_results distribution in
  (* Regional operations *)
  current_results <- regional_operations GRID_NODES current_time current_results ;;
  (* ASP monitoring *)
  threat_level <- random_uniform 1000 9000 ;;
  current_results <-
    (if monitor_grid_integrity the_asp threat_level then
       let anomaly_msg := stamp current_time "[ASP ALERT] Threat Quarantined" in
       current_results <- anomalies_append current_results anomaly_msg ;;
       logs_append current_results anomaly_msg
     else ret current_results) ;;
  (* Resource searches *)
  gold_found <- ai_boring_search_for_gold (sim_interval_seconds / 60) ;;
  oil_found <- ai_boring_search_for_oil (sim_interval_seconds / 60) ;;
  nuc_found <- quiet_nuclear_protocol_scan (sim_interval_seconds / 60) ;;
  g0 <- getitem "gold" (gold current_results) ;;
  let current_results := set_gold current_results (g0 + gold_found) in
  g1 <- getitem "gold" (gold current_results) ;;
  current_results <- logs_append current_results
    (stamp current_time
       (fstring ["[GOLD SEARCH] Found "; format_f 6 gold_found;
                 " units of gold. Total: "; format_f 6 g1]%string)) ;;
  o0 <- getitem "oil" (oil current_results) ;;
  let current_results := set_oil current_results (o0 + oil_found) in
  o1 <- getitem "oil" (oil current_results) ;;
  current_results <- logs_append current_results
    (stamp current_time
       (fstring ["[OIL SEARCH] Found "; format_f 6 oil_found;
                 " barrels of oil. Total: "; format_f 6 o1]%string)) ;;
  n0 <- getitem "nuclear_signatures" (nuclear_signatures current_results) ;;
  let current_results := set_nuclear_signatures current_results (n0 + nuc_found)%Z in
  n1 <- getitem "nuclear_signatures" (nuclear_signatures current_results) ;;
  logs_append current_results
    (stamp current_time
       (fstring ["[NUCLEAR SCAN] Detected "; str_Z nuc_found;
                 " nuclear signatures. Total: "; str_Z n1]%string)).

(** "Keep logs manageable - only last 50 entries". *)
Definition truncate_logs (current_results : SimState) : M SimState :=
  l <- getitem "logs" (logs current_results) ;;
  ret (set_logs current_results (slice_last 50 l)).

Definition run_simulation_step (current_results : SimState) (current_time : datetime)
    (sim_interval_seconds : Q) : M SimState :=
  current_results <- run_simulation_body current_results current_time sim_interval_seconds ;;
  truncate_logs current_results.

(** *** The driver of [streamlit_app.py] *)

(** The session's [sim_results] once the start of the script has run: the
    dictionary literal with its three [None] entries replaced by the
    objects ("Ensure persistent objects are initialized only once").
    [now] is the clock at that moment. *)
Definition fresh_sim_results (now : datetime) : SimState :=
  mkState (Some (map new_SolarNodeController GRID_NODES))
          (Some (map new_UniversalDistributionNode GRID_NODES))
          (Some mkASP)
          (Some (mkEnergy 0)) (Some 0) (Some 0) (Some 0%Z)
          (Some []) (Some []) (Some []) (Some []) (Some []) (Some [])
          (Some now) (Some 0%Z).

(** One turn of the loop "Simulation Loop": advance the time, count the
    step, run it. The rendering that follows the call reads the state and
    is not modelled; [st.rerun()] then restarts the script, which comes
    back to the loop with the session state the turn has left. *)
Definition simulation_loop_turn (sim_results : SimState) : M SimState :=
  t <- getitem "current_sim_time" (current_sim_time sim_results) ;;
  let sim_time_obj := t + SIM_INTERVAL_SECONDS in
  let sim_results := set_current_sim_time sim_results sim_time_obj in
  c <- getitem "sim_step_count" (sim_step_count sim_results) ;;
  let sim_results := set_sim_step_count sim_results (c + 1)%Z in
  run_simulation_step sim_results sim_time_obj SIM_INTERVAL_SECONDS.

Fixpoint simulation_loop (turns : nat) (sim_results : SimState) : M SimState :=
  match turns with
  | O => ret sim_results
  | S n =>
      sim_results <- simulation_loop_turn sim_results ;;
      simulation_loop n sim_results
  end.

(** Repeated calls of the step, each on the state the previous one
    returned; [calls] gives each call its time and interval. *)
Fixpoint run_simulation_steps (calls : list (datetime * Q)) (current_results : SimState)
  : M SimState :=
  match calls with
  | [] => ret current_results
  | (current_time, sim_interval_seconds) :: rest =>
      current_results <- run_simulation_step current_results current_time sim_interval_seconds ;;
      run_simulation_steps rest current_results
  end.

End Core.

(** The constants of the repository. *)
Definition repo_GRID_NODES : list string :=
  ["RegionAlpha"; "RegionBeta"; "RegionGamma"]%string.

Definition repo_SIM_INTERVAL_SECONDS : Q := 1.

(** Rates of [mothe_simulation_core.py] the driver imports. *)
Definition BCP_GENERATION_RATE_PER_MWH_GRID_FLOW : Q := 0.05.

Definition OIL_GENERATION_RATE_PER_BARREL_FOR_BCP : Q := 0.01.

(** ** What the driver reads off the state *)

(** "Final BCP calculation": [bcp_total_calculated] and
    [btc_send_calculated], from the totals of the session state. *)
Definition bcp_projection (sim_results : SimState) : M (Q * Q) :=
  e <- getitem "energy" (energy sim_results) ;;
  let total_mwh_for_bcp := total_mwh e in
  total_oil_for_bcp <- getitem "oil" (oil sim_results) ;;
  let bcp_total_calculated :=
    total_mwh_for_bcp * BCP_GENERATION_RATE_PER_MWH_GRID_FLOW
    + total_oil_for_bcp * OIL_GENERATION_RATE_PER_BARREL_FOR_BCP in
  let btc_send_calculated := bcp_total_calculated / 30000 in
  ret (bcp_total_calculated, btc_send_calculated).

(** "Update Charts": [energy_data], a row (region, balance) per
    distribution node. *)
Definition energy_data (sim_results : SimState) : M (list (string * Q)) :=
  nodes <- getitem "distribution_nodes" (distribution_nodes sim_results) ;;
  ret (map (fun node => (region_name node, energy_balance node)) nodes).

(** "Live Operational Log": the lines in the order they are shown,
    [reversed(sim_results['logs'])]. *)
Definition log_shown (sim_results : SimState) : M (list string) :=
  l <- getitem "logs" (logs sim_results) ;;
  ret (List.rev l).

(** One run of the driver's script while the simulation is running and
    no button is pressed.  The script is run again from its top for every
    turn ([st.rerun()] closes the body of the loop), so before the body
    of the loop the test of line 55 reads [solar_nodes]: a dictionary
    without that key raises KeyError there.  In a state of this model a
    key that is present holds its list, so the test is false and lines 56
    to 59 write nothing.  What the body shows after the step (lines 104
    to 150) reads keys the step has just returned and writes nothing to
    the dictionary. *)
Definition script_run (GRID_NODES : list string) (SIM_INTERVAL_SECONDS : Q)
    (sim_results : SimState) : M SimState :=
  solar <- getitem "solar_nodes" (solar_nodes sim_results) ;;
  simulation_loop_turn GRID_NODES SIM_INTERVAL_SECONDS sim_results.

Fixpoint script_runs (GRID_NODES : list string) (SIM_INTERVAL_SECONDS : Q)
    (turns : nat) (sim_results : SimState) : M SimState :=
  match turns with
  | O => ret sim_results
  | S n =>
      sim_results <- script_run GRID_NODES SIM_INTERVAL_SECONDS sim_results ;;
      script_runs GRID_NODES SIM_INTERVAL_SECONDS n sim_results
  end.

(** ** Specification vocabulary *)

(** [m], run from the generator [g], returns: with a value and a
    generator that satisfy [P]. *)
Definition returns {A : Type} (m : M A) (g : RNG) (P : A -> RNG -> Prop) : Prop :=
  exists a g', m g = Ok (a, g') /\ P a g'.

(** [m], run from [g], raises [e]. *)
Definition raises {A : Type} (m : M A) (g : RNG) (e : PyError) : Prop :=
  m g = Raise e.

(** Every value of [random.random()] is in [[0, 1)]. *)
Definition valid_rng (g : RNG) : Prop :=
  forall i : nat, 0 <= draws g i /\ draws g i < 1.

(** The generator after [k] more calls of [random.random()]. *)
Definition skip (k : nat) (g : RNG) : RNG := mkRNG (draws g) (pos g + k).

(** The value [random.uniform(a, b)] takes at the [i]-th call of the
    generator. *)
Definition uniform_at (g : RNG) (i : nat) (a b : Q) : Q :=
  a + (b - a) * draws g i.

(** Every key of [run_simulation_step] is present. *)
Definition initialized (s : SimState) : Prop :=
  solar_nodes s <> None /\ distribution_nodes s <> None /\ asp s <> None /\
  energy s <> None /\ gold s <> None /\ oil s <> None /\
  nuclear_signatures s <> None /\ anomalies s <> None /\ supply_chain s <> None /\
  orbital s <> None /\ ids s <> None /\ bcp_transactions s <> None /\ logs s <> None.

(** The floor of [panel_health] in the data model, on every node. *)
Definition healthy (s : SimState) : Prop :=
  forall nodes, solar_nodes s = Some nodes ->
                Forall (fun n => 80 <= panel_health n) nodes.

(** The accumulators of [s'] are at least those of [s]. *)
Definition grows (s s' : SimState) : Prop :=
  (exists e e', energy s = Some e /\ energy s' = Some e' /\ total_mwh e <= total_mwh e') /\
  (exists x x', gold s = Some x /\ gold s' = Some x' /\ x <= x') /\
  (exists x x', oil s = Some x /\ oil s' = Some x' /\ x <= x') /\
  (exists n n', nuclear_signatures s = Some n /\ nuclear_signatures s' = Some n' /\
                (n <= n')%Z).

(** The solar nodes of [s'] are those of [s], none healthier than it
    was and none below 80. *)
Definition wears (s s' : SimState) : Prop :=
  exists nodes nodes',
    solar_nodes s = Some nodes /\ solar_nodes s' = Some nodes' /\
    Forall2 (fun n n' =>
               node_name n' = node_name n /\
               panel_health n' <= panel_health n /\ 80 <= panel_health n')
            nodes nodes'.

(** [s] holds one solar node and one distribution node per region. *)
Definition configured (GRID_NODES : list string) (s : SimState) : Prop :=
  initialized s /\
  (exists nodes, solar_nodes s = Some nodes /\
                 List.length nodes = List.length GRID_NODES) /\
  (exists nodes, distribution_nodes s = Some nodes /\
                 List.length nodes = List.length GRID_NODES).

(** What the nodes of [nodes'] hold more than those of [nodes]. *)
Definition increments (nodes nodes' : list UniversalDistributionNode) : list Q :=
  map (fun p => energy_balance (snd p) - energy_balance (fst p)) (combine nodes nodes').

(** The values a call starts from: what the keys hold, or what the lazy
    initialisation stores under the absent ones. *)
Definition start_solar (GRID_NODES : list string) (s : SimState) : list SolarNodeController :=
  or_default (solar_nodes s) (map new_SolarNodeController GRID_NODES).

Definition start_distribution (GRID_NODES : list string) (s : SimState)
  : list UniversalDistributionNode :=
  or_default (distribution_nodes s) (map new_UniversalDistributionNode GRID_NODES).

Definition start_energy (s : SimState) : Q := total_mwh (or_default (energy s) (mkEnergy 0)).

Definition start_lines (field : option (list string)) : list string := or_default field [].

(** The dictionary once the lazy initialisation has run. *)
Definition start_state (GRID_NODES : list string) (s : SimState) : SimState :=
  mkState (Some (start_solar GRID_NODES s)) (Some (start_distribution GRID_NODES s))
    (Some (or_default (asp s) mkASP))
    (Some (or_default (energy s) (mkEnergy 0)))
    (Some (or_default (gold s) 0)) (Some (or_default (oil s) 0))
    (Some (or_default (nuclear_signatures s) 0%Z))
    (Some (start_lines (anomalies s))) (Some (start_lines (supply_chain s)))
    (Some (start_lines (orbital s))) (Some (start_lines (ids s)))
    (Some (start_lines (bcp_transactions s))) (Some (start_lines (logs s)))
    (current_sim_time s) (sim_step_count s).

(** The call of the generator that draws the threat level: after three
    draws per solar node and five per region. *)
Definition threat_position (GRID_NODES : list string) (s : SimState) (g : RNG) : nat :=
  pos g + 3 * List.length (start_solar GRID_NODES s) + 5 * List.length GRID_NODES.

Definition threat_level_of (GRID_NODES : list string) (s : SimState) (g : RNG) : Q :=
  uniform_at g (threat_position GRID_NODES s g) 1000 9000.

(** [nodes], each credited with [amount / n]. *)
Definition credited (n amount : Q) (nodes : list UniversalDistributionNode)
  : list UniversalDistributionNode :=
  map (fun node => mkDist (region_name node) (energy_balance node + amount / n)) nodes.

(** What one run of the body of the step does: from the dictionary [s]
    and the generator [g] to [s'] and [g'], [outputs] being what the
    solar nodes generate. *)
Record tick (GRID_NODES : list string) (SIM_INTERVAL_SECONDS : Q)
    (s : SimState) (sim_interval_seconds : Q) (g : RNG)
    (outputs : list Q) (s' : SimState) (g' : RNG) : Prop := mkTick {
  tick_generate :
    exists solar',
      generate_energy_all SIM_INTERVAL_SECONDS (start_solar GRID_NODES s) g
      = Ok ((outputs, solar'), skip (3 * List.length (start_solar GRID_NODES s)) g) /\
      solar_nodes s' = Some solar' /\
      Forall2 (fun n n' =>
                 node_name n' = node_name n /\
                 80 <= panel_health n' /\
                 (80 <= panel_health n -> panel_health n' <= panel_health n))
              (start_solar GRID_NODES s) solar';
  tick_outputs_nonneg :
    0 <= SIM_INTERVAL_SECONDS -> Forall (fun o => 0 <= o) outputs;
  tick_outputs_pos :
    0 < SIM_INTERVAL_SECONDS -> Forall (fun o => 0 < o) outputs;
  tick_outputs_length :
    List.length outputs = List.length (start_solar GRID_NODES s);
  tick_distribution :
    distribution_nodes s'
    = Some (credited (py_len GRID_NODES) (py_sum outputs) (start_distribution GRID_NODES s));
  tick_asp : asp s' = Some (or_default (asp s) mkASP);
  tick_energy : energy s' = Some (mkEnergy (start_energy s + py_sum outputs));
  tick_gold :
    gold s' = Some (or_default (gold s) 0
                    + py_round (uniform_at g (threat_position GRID_NODES s g + 1) 0 0.002
                                * (sim_interval_seconds / 60)) 6);
  tick_oil :
    oil s' = Some (or_default (oil s) 0
                   + py_round (uniform_at g (threat_position GRID_NODES s g + 2) 0 0.003
                               * (sim_interval_seconds / 60)) 6);
  tick_nuclear :
    exists count, (count = 0 \/ count = 1)%Z /\
      nuclear_signatures s' = Some (or_default (nuclear_signatures s) 0 + count)%Z;
  tick_supply_chain :
    exists new, supply_chain s' = Some (start_lines (supply_chain s) ++ new) /\
      List.length new = List.length GRID_NODES;
  tick_orbital :
    exists new, orbital s' = Some (start_lines (orbital s) ++ new) /\
      List.length new = List.length GRID_NODES;
  tick_ids :
    exists new, ids s' = Some (start_lines (ids s) ++ new) /\
      List.length new = List.length GRID_NODES;
  tick_bcp_transactions :
    bcp_transactions s' = Some (start_lines (bcp_transactions s));
  tick_logs :
    exists head alerts tail,
      logs s' = Some (start_lines (logs s) ++ head ++ alerts ++ tail) /\
      anomalies s' = Some (start_lines (anomalies s) ++ alerts) /\
      List.length head
      = (1 + List.length (start_distribution GRID_NODES s) + 3 * List.length GRID_NODES)%nat /\
      List.length alerts
      = (if monitor_grid_integrity mkASP (threat_level_of GRID_NODES s g) then 1 else 0)%nat /\
      List.length tail = 3%nat;
  tick_current_sim_time : current_sim_time s' = current_sim_time s;
  tick_sim_step_count : sim_step_count s' = sim_step_count s;
  tick_rng : g' = skip (3 * List.length (start_solar GRID_NODES s)
                        + 5 * List.length GRID_NODES + 4) g
}.

(** The lines of a tick, as [run_simulation_step] formats them. *)
Definition energy_line (t : datetime) (generated : Q) : string :=
  stamp t (fstring ["[ENERGY] Generated "; format_f 6 generated; " MWh."]%string).

Definition distribution_line (t : datetime) (node : UniversalDistributionNode) : string :=
  stamp t (fstring ["[DISTRIBUTION] "; region_name node; " current balance ";
                    format_f 6 (energy_balance node); " MWh."]%string).

Definition alert_line (t : datetime) : string :=
  stamp t "[ASP ALERT] Threat Quarantined".

Definition gold_line (t : datetime) (found total : Q) : string :=
  stamp t (fstring ["[GOLD SEARCH] Found "; format_f 6 found;
                    " units of gold. Total: "; format_f 6 total]%string).

Definition oil_line (t : datetime) (found total : Q) : string :=
  stamp t (fstring ["[OIL SEARCH] Found "; format_f 6 found;
                    " barrels of oil. Total: "; format_f 6 total]%string).

Definition nuclear_line (t : datetime) (found total : Z) : string :=
  stamp t (fstring ["[NUCLEAR SCAN] Detected "; str_Z found;
                    " nuclear signatures. Total: "; str_Z total]%string).

(** The three texts the regional operations produce for a region:
    supply chain, orbital scan, sovereign id. *)
Record RegionEvent : Type := mkEvent {
  sc_log : string;
  orb_log : string;
  id_log : string
}.

(** The lines an event puts in the log. *)
Definition event_lines (t : datetime) (event : RegionEvent) : list string :=
  [stamp t (sc_log event); stamp t (orb_log event); stamp t (id_log event)].

(** The texts the three generators can return for [region]. *)
Definition supply_chain_text (region text : string) : Prop :=
  exists (water_units : Z) (meds : string),
    (10000 <= water_units <= 20000)%Z /\
    In meds ["antivirals"; "antibiotics"; "vaccines"]%string /\
    text = fstring ["[SUPPLY_CHAIN] Delivered "; str_Z water_units; "L water + "; meds;
                    " to "; region]%string.

Definition orbital_text (region text : string) : Prop :=
  exists findings : string,
    In findings ["Gold Vein Located"; "Tectonic Stress Point Detected";
                 "Uranium Trace Signature"; "No Anomaly"]%string /\
    text = fstring ["[ORBITAL SCAN] Satellite scan of "; region; ": "; findings]%string.

Definition sovereign_id_text (region text : string) : Prop :=
  exists (n hundredths : Z),
    (1000 <= n <= 9999)%Z /\ (50 <= hundredths <= 100)%Z /\
    text = fstring ["[SOVEREIGN ID] ";
                    fstring ["SEED_"; str_Z n; "_"; str_upper (substring 0 2 region)];
                    " active in "; region; " (rep: ";
                    str_float_2dp (hundredths # 100); ")"]%string.

Definition event_of (region : string) (event : RegionEvent) : Prop :=
  supply_chain_text region (sc_log event) /\
  orbital_text region (orb_log event) /\
  sovereign_id_text region (id_log event).

(** The alert of a tick, if the threat level drawn is above 8500. *)
Definition alerts_of (GRID_NODES : list string) (s : SimState) (t : datetime) (g : RNG)
  : list string :=
  if monitor_grid_integrity mkASP (threat_level_of GRID_NODES s g)
  then [alert_line t] else [].

(** The lines a tick appends to the log, in order: energy, one per
    distribution node, three per region, the alert if any, gold, oil,
    nuclear. *)
Definition tick_log_lines (GRID_NODES : list string) (s : SimState) (t : datetime)
    (g : RNG) (outputs : list Q) (events : list RegionEvent)
    (found_gold found_oil : Q) (count : Z) : list string :=
  energy_line t (py_sum outputs)
  :: map (distribution_line t)
       (credited (py_len GRID_NODES) (py_sum outputs) (start_distribution GRID_NODES s))
  ++ flat_map (event_lines t) events
  ++ alerts_of GRID_NODES s t g
  ++ [gold_line t found_gold (or_default (gold s) 0 + found_gold);
      oil_line t found_oil (or_default (oil s) 0 + found_oil);
      nuclear_line t count (or_default (nuclear_signatures s) 0 + count)%Z].

(** What the body of the step writes, line by line. *)
Record tick_lines (GRID_NODES : list string) (s : SimState) (t : datetime) (g : RNG)
    (outputs : list Q) (events : list RegionEvent) (found_gold found_oil : Q)
    (count : Z) (s' : SimState) : Prop := mkTickLines {
  lines_events : Forall2 event_of GRID_NODES events;
  lines_energy : energy s' = Some (mkEnergy (start_energy s + py_sum outputs));
  lines_distribution :
    distribution_nodes s'
    = Some (credited (py_len GRID_NODES) (py_sum outputs) (start_distribution GRID_NODES s));
  lines_supply_chain :
    supply_chain s'
    = Some (start_lines (supply_chain s) ++ map (fun e => stamp t (sc_log e)) events);
  lines_orbital :
    orbital s' = Some (start_lines (orbital s) ++ map (fun e => stamp t (orb_log e)) events);
  lines_ids :
    ids s' = Some (start_lines (ids s) ++ map (fun e => stamp t (id_log e)) events);
  lines_anomalies :
    anomalies s' = Some (start_lines (anomalies s) ++ alerts_of GRID_NODES s t g);
  lines_gold : gold s' = Some (or_default (gold s) 0 + found_gold);
  lines_oil : oil s' = Some (or_default (oil s) 0 + found_oil);
  lines_nuclear :
    nuclear_signatures s' = Some (or_default (nuclear_signatures s) 0 + count)%Z;
  lines_logs :
    logs s'
    = Some (start_lines (logs s)
            ++ tick_log_lines GRID_NODES s t g outputs events found_gold found_oil count)
}.

(** The log of [s] ends with the gold, oil and nuclear lines of a call
    made at time [t]. *)
Definition ends_with_resource_lines (t : datetime) (s : SimState) : Prop :=
  exists earlier found_gold found_oil count total_gold total_oil total_count,
    logs s = Some (earlier ++ [gold_line t found_gold total_gold;
                               oil_line t found_oil total_oil;
                               nuclear_line t count total_count]).

(** The generator whose every value is [r]. *)
Definition constant_rng (r : Q) : RNG := mkRNG (fun _ => r) 0.

(** * Properties *)

(** ** Numbers *)

(** Division by a numeral becomes a product, which [lra] knows. *)
Ltac div_by_numeral :=
  unfold Qdiv in *;
  repeat match goal with
         | |- context [Qinv (Qmake ?n ?d)] =>
             let v := eval cbv in (Qinv (Qmake n d)) in
             change (Qinv (Qmake n d)) with v in *
         | H : context [Qinv (Qmake ?n ?d)] |- _ =>
             let v := eval cbv in (Qinv (Qmake n d)) in
             change (Qinv (Qmake n d)) with v in *
         end.

Lemma Qgtb_true (x y : Q) : Qgtb x y = true <-> y < x.
Proof.
  unfold Qgtb. rewrite Bool.negb_true_iff.
  split; intro H.
  - apply Qnot_le_lt. intro Hle. apply Qle_bool_iff in Hle. congruence.
  - destruct (Qle_bool x y) eqn:E; [|reflexivity].
    apply Qle_bool_iff in E. exfalso. apply (Qlt_not_le _ _ H E).
Qed.

Lemma Qgtb_false (x y : Q) : Qgtb x y = false <-> x <= y.
Proof.
  unfold Qgtb. rewrite Bool.negb_false_iff. apply Qle_bool_iff.
Qed.

Lemma py_max_cases (a b : Q) :
  (a < b /\ py_max a b = b) \/ (b <= a /\ py_max a b = a).
Proof.
  unfold py_max. destruct (Qgtb b a) eqn:E.
  - left. apply Qgtb_true in E. split; [exact E|reflexivity].
  - right. apply Qgtb_false in E. split; [exact E|reflexivity].
Qed.

Lemma py_max_lower (a b : Q) : a <= py_max a b.
Proof. destruct (py_max_cases a b) as [[H ->]|[H ->]]; lra. Qed.

Lemma py_max_upper (a b c : Q) : a <= c -> b <= c -> py_max a b <= c.
Proof. intros. destruct (py_max_cases a b) as [[H1 ->]|[H1 ->]]; lra. Qed.

Lemma py_sum_from (l : list Q) (acc : Q) : fold_left Qplus l acc == acc + py_sum l.
Proof.
  unfold py_sum. revert acc.
  induction l as [|x l IH]; intro acc; cbn [fold_left].
  - lra.
  - rewrite (IH (acc + x)), (IH (0 + x)). lra.
Qed.

Lemma py_sum_cons (x : Q) (l : list Q) : py_sum (x :: l) == x + py_sum l.
Proof. unfold py_sum at 1. cbn [fold_left]. rewrite py_sum_from. lra. Qed.

Lemma py_sum_nonneg (l : list Q) : Forall (fun o => 0 <= o) l -> 0 <= py_sum l.
Proof.
  induction 1 as [|x l Hx _ IH].
  - unfold py_sum. cbn. lra.
  - rewrite py_sum_cons. lra.
Qed.

Lemma py_sum_pos (l : list Q) : l <> [] -> Forall (fun o => 0 < o) l -> 0 < py_sum l.
Proof.
  intros Hne H. destruct H as [|x l Hx Hl]; [congruence|].
  rewrite py_sum_cons.
  assert (0 <= py_sum l).
  { apply py_sum_nonneg. eapply Forall_impl; [|exact Hl]. cbv beta. intros; lra. }
  lra.
Qed.

(** Rounding stays within one half of its argument. *)
Lemma round_half_even_near (x : Q) :
  x - (1 # 2) <= inject_Z (round_half_even x) /\
  inject_Z (round_half_even x) <= x + (1 # 2).
Proof.
  unfold round_half_even.
  pose proof (Qfloor_le x) as Hlo. pose proof (Qlt_floor x) as Hhi.
  rewrite inject_Z_plus in Hhi. change (inject_Z 1) with 1 in Hhi.
  destruct (Qcompare (x - inject_Z (Qfloor x)) (1 # 2)) eqn:E.
  - apply Qeq_alt in E.
    destruct (Z.even (Qfloor x)); [|rewrite inject_Z_plus; change (inject_Z 1) with 1]; lra.
  - apply Qlt_alt in E. lra.
  - apply Qgt_alt in E. rewrite inject_Z_plus. change (inject_Z 1) with 1. lra.
Qed.

Lemma round_half_even_comp (x y : Q) : x == y -> round_half_even x = round_half_even y.
Proof.
  intro H. unfold round_half_even.
  rewrite (Qfloor_comp x y H).
  assert (Hc : Qcompare (x - inject_Z (Qfloor y)) (1 # 2)
               = Qcompare (y - inject_Z (Qfloor y)) (1 # 2)).
  { apply Qcompare_comp; [rewrite H|]; reflexivity. }
  rewrite Hc. reflexivity.
Qed.

Lemma round_half_even_mono (x y : Q) :
  x <= y -> (round_half_even x <= round_half_even y)%Z.
Proof.
  intro Hxy.
  destruct (Z_le_gt_dec (round_half_even x) (round_half_even y)) as [H|H]; [exact H|].
  exfalso.
  pose proof (round_half_even_near x) as [_ Hx].
  pose proof (round_half_even_near y) as [Hy _].
  assert (Hz : (round_half_even y + 1 <= round_half_even x)%Z) by lia.
  rewrite Zle_Qle, inject_Z_plus in Hz. change (inject_Z 1) with 1 in Hz.
  assert (Heq : x == y) by lra.
  rewrite (round_half_even_comp x y Heq) in H. lia.
Qed.

Lemma round_half_even_Z (z : Z) : round_half_even (inject_Z z) = z.
Proof.
  unfold round_half_even. rewrite Qfloor_Z.
  assert (E : Qcompare (inject_Z z - inject_Z z) (1 # 2) = Lt).
  { apply (proj1 (Qlt_alt _ _)). lra. }
  rewrite E. reflexivity.
Qed.

Lemma round_half_even_nonneg (x : Q) : 0 <= x -> (0 <= round_half_even x)%Z.
Proof.
  intro H. rewrite <- (round_half_even_Z 0). apply round_half_even_mono. exact H.
Qed.

Lemma pow10_pos_Q (n : nat) : 0 < inject_Z (Zpos (pow10 n)).
Proof. unfold Qlt. cbn. lia. Qed.

Lemma py_round_mono (x y : Q) (n : nat) : x <= y -> py_round x n <= py_round y n.
Proof.
  intro H. unfold py_round, Qle. cbn [Qnum Qden].
  apply Z.mul_le_mono_nonneg_r; [lia|].
  apply round_half_even_mono.
  pose proof (pow10_pos_Q n). nra.
Qed.

Lemma py_round_nonneg (x : Q) (n : nat) : 0 <= x -> 0 <= py_round x n.
Proof.
  intro H. unfold py_round, Qle. cbn [Qnum Qden].
  pose proof (pow10_pos_Q n).
  assert (0 <= round_half_even (x * inject_Z (Z.pos (pow10 n))))%Z.
  { apply round_half_even_nonneg. nra. }
  lia.
Qed.

(** [round(x, n)] is within half a unit of the last place of [x]. *)
Lemma py_round_near (x : Q) (n : nat) :
  x - (1 # (2 * pow10 n)) <= py_round x n /\ py_round x n <= x + (1 # (2 * pow10 n)).
Proof.
  pose proof (round_half_even_near (x * inject_Z (Zpos (pow10 n)))) as [Hlo Hhi].
  unfold py_round.
  set (r := round_half_even (x * inject_Z (Zpos (pow10 n)))) in *.
  set (p := pow10 n) in *.
  assert (Hr : r # p == inject_Z r / inject_Z (Zpos p)) by apply Qmake_Qdiv.
  assert (Hh : 1 # (2 * p) == (1 # 2) / inject_Z (Zpos p)).
  { rewrite (Qmake_Qdiv 1 (2 * p)). rewrite Pos2Z.inj_mul, inject_Z_mult.
    change (inject_Z 1) with 1. change (inject_Z 2) with 2.
    assert (Hp : ~ inject_Z (Zpos p) == 0).
    { unfold Qeq. cbn. lia. }
    field. exact Hp. }
  assert (Hp : 0 < inject_Z (Zpos p)) by (unfold Qlt; cbn; lia).
  rewrite Hr, Hh.
  split.
  - apply Qle_shift_div_l; [exact Hp|].
    assert (E : (x - (1 # 2) / inject_Z (Zpos p)) * inject_Z (Zpos p)
                == x * inject_Z (Zpos p) - (1 # 2)).
    { field. intro Hz. rewrite Hz in Hp. lra. }
    rewrite E. exact Hlo.
  - apply Qle_shift_div_r; [exact Hp|].
    assert (E : (x + (1 # 2) / inject_Z (Zpos p)) * inject_Z (Zpos p)
                == x * inject_Z (Zpos p) + (1 # 2)).
    { field. intro Hz. rewrite Hz in Hp. lra. }
    rewrite E. exact Hhi.
Qed.

(** ** The monad *)

Lemma returns_ret {A : Type} (a : A) (g : RNG) (P : A -> RNG -> Prop) :
  P a g -> returns (ret a) g P.
Proof. intro H. exists a, g. split; [reflexivity|exact H]. Qed.

Lemma returns_bind {A B : Type} (m : M A) (f : A -> M B) (g : RNG)
    (P : A -> RNG -> Prop) (R : B -> RNG -> Prop) :
  returns m g P ->
  (forall a g1, P a g1 -> returns (f a) g1 R) ->
  returns (bind m f) g R.
Proof.
  intros (a & g1 & Hm & HP) Hf.
  destruct (Hf a g1 HP) as (b & g2 & Hfa & HR).
  exists b, g2. split; [|exact HR].
  unfold bind. rewrite Hm. exact Hfa.
Qed.

Lemma returns_weaken {A : Type} (m : M A) (g : RNG) (P R : A -> RNG -> Prop) :
  returns m g P -> (forall a g1, P a g1 -> R a g1) -> returns m g R.
Proof.
  intros (a & g1 & Hm & HP) H. exists a, g1. split; [exact Hm|apply H; exact HP].
Qed.

Lemma returns_run {A : Type} (m : M A) (g : RNG) (P : A -> RNG -> Prop) :
  returns m g P -> returns m g (fun a g1 => m g = Ok (a, g1) /\ P a g1).
Proof.
  intros (a & g1 & Hm & HP). exists a, g1. split; [exact Hm|split; assumption].
Qed.

Lemma returns_not_raises {A : Type} (m : M A) (g : RNG) (P : A -> RNG -> Prop)
    (e : PyError) :
  returns m g P -> ~ raises m g e.
Proof. intros (a & g1 & Hm & _) Hr. unfold raises in Hr. congruence. Qed.

Lemma raises_bind_l {A B : Type} (m : M A) (f : A -> M B) (g : RNG) (e : PyError) :
  raises m g e -> raises (bind m f) g e.
Proof. unfold raises, bind. intros ->. reflexivity. Qed.

Lemma raises_bind_r {A B : Type} (m : M A) (f : A -> M B) (g : RNG)
    (P : A -> RNG -> Prop) (e : PyError) :
  returns m g P ->
  (forall a g1, P a g1 -> raises (f a) g1 e) ->
  raises (bind m f) g e.
Proof.
  intros (a & g1 & Hm & HP) Hf. unfold raises, bind. rewrite Hm.
  apply Hf. exact HP.
Qed.

Lemma raises_getitem {A B : Type} (key : string) (v : A) (f : A -> M B) (g : RNG)
    (e : PyError) :
  raises (f v) g e -> raises (bind (getitem key (Some v)) f) g e.
Proof. intro H. exact H. Qed.

(** ** The random generator *)

Lemma skip_0 (g : RNG) : skip 0 g = g.
Proof. destruct g as [d p]. unfold skip. cbn [draws pos]. f_equal. lia. Qed.

Lemma skip_skip (j k : nat) (g : RNG) : skip k (skip j g) = skip (j + k) g.
Proof. unfold skip. cbn [draws pos]. f_equal. lia. Qed.

Lemma valid_rng_skip (k : nat) (g : RNG) : valid_rng g -> valid_rng (skip k g).
Proof. intros H i. apply H. Qed.

Lemma random_random_spec (g : RNG) :
  returns random_random g (fun r g' => r = draws g (pos g) /\ g' = skip 1 g).
Proof.
  exists (draws g (pos g)), (skip 1 g). split; [|split; reflexivity].
  unfold random_random, skip. do 3 f_equal. lia.
Qed.

Lemma random_uniform_spec (a b : Q) (g : RNG) :
  returns (random_uniform a b) g
    (fun u g' => u = uniform_at g (pos g) a b /\ g' = skip 1 g).
Proof.
  unfold random_uniform.
  eapply returns_bind; [apply random_random_spec|].
  intros r g1 [-> ->]. apply returns_ret. split; reflexivity.
Qed.

Lemma uniform_at_range (g : RNG) (i : nat) (a b : Q) :
  valid_rng g -> a <= b ->
  a <= uniform_at g i a b /\ uniform_at g i a b <= b.
Proof.
  intros Hg Hab. destruct (Hg i) as [H0 H1]. unfold uniform_at.
  split; nra.
Qed.

Lemma random_randint_spec (a b : Z) (g : RNG) :
  returns (random_randint a b) g (fun _ g' => g' = skip 1 g).
Proof.
  unfold random_randint.
  eapply returns_bind; [apply random_random_spec|].
  intros r g1 [-> ->]. apply returns_ret. reflexivity.
Qed.

Lemma random_choice_spec {A : Type} (seq : list A) (g : RNG) :
  valid_rng g -> seq <> [] ->
  returns (random_choice seq) g (fun x g' => In x seq /\ g' = skip 1 g).
Proof.
  intros Hg Hne. unfold random_choice.
  eapply returns_bind; [apply random_random_spec|].
  intros r g1 [-> ->].
  destruct (Hg (pos g)) as [H0 H1].
  set (len := inject_Z (Z.of_nat (List.length seq))).
  assert (Hlen : 1 <= len).
  { unfold len. change 1 with (inject_Z 1). rewrite <- Zle_Qle. destruct seq; [congruence|cbn [List.length]; lia]. }
  assert (Hidx : (Z.to_nat (Qfloor (draws g (pos g) * len)) < List.length seq)%nat).
  { assert (Hlt : (Qfloor (draws g (pos g) * len) < Z.of_nat (List.length seq))%Z).
    { rewrite Zlt_Qlt. fold len.
      eapply Qle_lt_trans; [apply Qfloor_le|]. nra. }
    assert (0 < List.length seq)%nat by (destruct seq; [congruence|cbn [List.length]; lia]).
    lia. }
  destruct (nth_error seq (Z.to_nat (Qfloor (draws g (pos g) * len)))) as [x|] eqn:E.
  - apply returns_ret. split; [|reflexivity]. eapply nth_error_In. exact E.
  - apply nth_error_None in E. lia.
Qed.

Lemma py_div_spec (a b : Q) (g : RNG) :
  ~ b == 0 -> returns (py_div a b) g (fun q g' => q = a / b /\ g' = g).
Proof.
  intro Hb. unfold py_div.
  destruct (Qeq_bool b 0) eqn:E.
  - apply Qeq_bool_iff in E. contradiction.
  - apply returns_ret. split; reflexivity.
Qed.

Lemma py_div_zero (a b : Q) (g : RNG) :
  b == 0 -> raises (py_div a b) g ZeroDivisionError.
Proof.
  intro Hb. unfold raises, py_div.
  apply Qeq_bool_iff in Hb. rewrite Hb. reflexivity.
Qed.

(** ** SolarNodeController *)

Lemma generate_energy_spec (SIM_INTERVAL_SECONDS : Q)
    (self : SolarNodeController) (g : RNG) :
  returns (generate_energy SIM_INTERVAL_SECONDS self) g
    (fun r g' =>
       let out := fst r in
       let self' := snd r in
       irradiance self' = uniform_at g (pos g) 800 1200 /\
       temperature self' = uniform_at g (pos g + 1) 15 45 /\
       panel_health self'
       = py_max 80 (panel_health self - uniform_at g (pos g + 2) 0 0.01) /\
       node_name self' = node_name self /\
       output_power_mwh self' = out /\
       out == (irradiance self' / 1000 * 0.3) * (panel_health self' / 100)
              * py_max 0.75 (1 - (temperature self' - 25) * 0.01)
              * (SIM_INTERVAL_SECONDS / 3600) /\
       g' = skip 3 g).
Proof.
  unfold generate_energy, read_sensors.
  eapply returns_bind.
  - eapply returns_bind; [apply random_uniform_spec|]. intros irr g1 [-> ->].
    eapply returns_bind; [apply random_uniform_spec|]. intros temp g2 [-> ->].
    eapply returns_bind; [apply random_uniform_spec|]. intros wear g3 [-> ->].
    apply returns_ret.
    instantiate (1 := fun n g' =>
      n = mkSolar (node_name self) (uniform_at g (pos g) 800 1200)
            (uniform_at g (pos g + 1) 15 45)
            (py_max 80 (panel_health self - uniform_at g (pos g + 2) 0 0.01))
            (output_power_mwh self) /\ g' = skip 3 g).
    cbv beta. rewrite !skip_skip. split; reflexivity.
  - intros n g1 [-> ->]. apply returns_ret.
    unfold calibrate_output.
    cbn [fst snd irradiance temperature panel_health node_name output_power_mwh].
    repeat split; reflexivity.
Qed.

(** What a call does to one node, for a generator within its range: the
    health decreases, by at most 0.01, down to the floor 80, and the
    output has the sign of the interval. *)
Lemma generate_energy_facts (SIM_INTERVAL_SECONDS : Q)
    (self : SolarNodeController) (g : RNG) :
  valid_rng g ->
  returns (generate_energy SIM_INTERVAL_SECONDS self) g
    (fun r g' =>
       g' = skip 3 g /\
       node_name (snd r) = node_name self /\
       80 <= panel_health (snd r) /\
       (80 <= panel_health self -> panel_health (snd r) <= panel_health self) /\
       (0 <= SIM_INTERVAL_SECONDS -> 0 <= fst r) /\
       (0 < SIM_INTERVAL_SECONDS -> 0 < fst r)).
Proof.
  intro Hg.
  eapply returns_weaken; [apply generate_energy_spec|].
  intros [out self'] g1. cbn [fst snd].
  intros (Hirr & Htemp & Hh & Hname & _ & Hout & ->).
  pose proof (uniform_at_range g (pos g) 800 1200 Hg ltac:(lra)) as [Hi _].
  pose proof (uniform_at_range g (pos g + 2) 0 0.01 Hg ltac:(lra)) as [Hw _].
  rewrite <- Hirr in Hi.
  pose proof (py_max_lower 80 (panel_health self - uniform_at g (pos g + 2) 0 0.01)) as Hfloor.
  rewrite <- Hh in Hfloor.
  pose proof (py_max_lower 0.75 (1 - (temperature self' - 25) * 0.01)) as Htf.
  set (tf := py_max 0.75 (1 - (temperature self' - 25) * 0.01)) in *.
  clearbody tf. div_by_numeral.
  assert (Hbase : 0 < irradiance self' * (1 # 1000) * 0.3
                      * (panel_health self' * (1 # 100)) * tf).
  { apply Qmult_lt_0_compat; [apply Qmult_lt_0_compat|]; lra. }
  split; [reflexivity|]. split; [exact Hname|]. split; [exact Hfloor|].
  split; [|split].
  - intro H80. rewrite Hh. apply py_max_upper; lra.
  - intro Hs. rewrite Hout. apply Qmult_le_0_compat; lra.
  - intro Hs. rewrite Hout. apply Qmult_lt_0_compat; lra.
Qed.

(** C6. [generate_energy] draws irradiance, temperature and wear, in that
    order, leaves them in the node, and returns
    (irradiance/1000 x 0.3) x (panel_health/100)
    x max(0.75, 1 - (temperature - 25) x 0.01) x (interval/3600)
    of the values it has just stored, the interval being the
    configuration constant [SIM_INTERVAL_SECONDS]. *)
Theorem generate_energy_formula (SIM_INTERVAL_SECONDS : Q)
    (self : SolarNodeController) (g : RNG) :
  returns (generate_energy SIM_INTERVAL_SECONDS self) g
    (fun r g' =>
       let out := fst r in
       let self' := snd r in
       irradiance self' = uniform_at g (pos g) 800 1200 /\
       temperature self' = uniform_at g (pos g + 1) 15 45 /\
       panel_health self'
       = py_max 80 (panel_health self - uniform_at g (pos g + 2) 0 0.01) /\
       node_name self' = node_name self /\
       output_power_mwh self' = out /\
       out == (irradiance self' / 1000 * 0.3) * (panel_health self' / 100)
              * py_max 0.75 (1 - (temperature self' - 25) * 0.01)
              * (SIM_INTERVAL_SECONDS / 3600) /\
       g' = skip 3 g).
Proof. apply generate_energy_spec. Qed.

(** ** AISovereigntyProtocol *)

(** C4. [monitor_grid_integrity] is a function of the threat level alone:
    it is true exactly above 8500, false exactly up to 8500, so false at
    8500, and it gives equal answers on equal numbers, whatever the
    object. *)
Theorem monitor_grid_integrity_threshold (self : AISovereigntyProtocol) (x : Q) :
  (monitor_grid_integrity self x = true <-> 8500 < x) /\
  (monitor_grid_integrity self x = false <-> x <= 8500) /\
  monitor_grid_integrity self 8500 = false /\
  (forall (other : AISovereigntyProtocol) (y : Q),
      x == y -> monitor_grid_integrity other y = monitor_grid_integrity self x).
Proof.
  assert (Ht : forall s z, monitor_grid_integrity s z = Qgtb z 8500).
  { intros s z. unfold monitor_grid_integrity. destruct (Qgtb z 8500); reflexivity. }
  repeat split.
  - rewrite Ht. apply Qgtb_true.
  - rewrite Ht. apply Qgtb_true.
  - rewrite Ht. apply Qgtb_false.
  - rewrite Ht. apply Qgtb_false.
  - intros other y Hxy. rewrite !Ht.
    destruct (Qgtb x 8500) eqn:E.
    + apply Qgtb_true. apply Qgtb_true in E. lra.
    + apply Qgtb_false. apply Qgtb_false in E. lra.
Qed.

Lemma monitor_grid_integrity_threshold_witness :
  monitor_grid_integrity mkASP 8500.5 = true /\
  monitor_grid_integrity mkASP (17001 # 2) = monitor_grid_integrity mkASP 8500.5.
Proof.
  destruct (monitor_grid_integrity_threshold mkASP 8500.5) as (Ht & _ & _ & Heq).
  split.
  - apply Ht. reflexivity.
  - apply Heq. reflexivity.
Defined.

(** ** Resource generators *)

Lemma found_range (rate minutes : Q) (g : RNG) (i : nat) :
  valid_rng g -> 0 <= rate -> 0 <= minutes ->
  0 <= py_round (uniform_at g i 0 rate * minutes) 6 /\
  py_round (uniform_at g i 0 rate * minutes) 6 <= py_round (rate * minutes) 6 /\
  py_round (uniform_at g i 0 rate * minutes) 6 <= rate * minutes + 0.0000005.
Proof.
  intros Hg Hr Hm.
  pose proof (uniform_at_range g i 0 rate Hg Hr) as [Hlo Hhi].
  assert (Hle : uniform_at g i 0 rate * minutes <= rate * minutes) by nra.
  split; [|split].
  - apply py_round_nonneg. nra.
  - apply py_round_mono. exact Hle.
  - pose proof (py_round_near (uniform_at g i 0 rate * minutes) 6) as [_ Hn].
    change (1 # 2 * pow10 6) with (1 # 2000000) in Hn. lra.
Qed.

Lemma ai_boring_search_for_gold_spec (minutes : Q) (g : RNG) :
  returns (ai_boring_search_for_gold minutes) g
    (fun found g' =>
       found = py_round (uniform_at g (pos g) 0 0.002 * minutes) 6 /\ g' = skip 1 g).
Proof.
  unfold ai_boring_search_for_gold.
  eapply returns_bind; [apply random_uniform_spec|]. intros u g1 [-> ->].
  apply returns_ret. split; reflexivity.
Qed.

Lemma ai_boring_search_for_oil_spec (minutes : Q) (g : RNG) :
  returns (ai_boring_search_for_oil minutes) g
    (fun found g' =>
       found = py_round (uniform_at g (pos g) 0 0.003 * minutes) 6 /\ g' = skip 1 g).
Proof.
  unfold ai_boring_search_for_oil.
  eapply returns_bind; [apply random_uniform_spec|]. intros u g1 [-> ->].
  apply returns_ret. split; reflexivity.
Qed.

Lemma quiet_nuclear_protocol_scan_spec (minutes : Q) (g : RNG) :
  valid_rng g ->
  returns (quiet_nuclear_protocol_scan minutes) g
    (fun count g' => (count = 0%Z \/ count = 1%Z) /\ g' = skip 1 g).
Proof.
  intro Hg. unfold quiet_nuclear_protocol_scan.
  eapply returns_weaken; [apply random_choice_spec; [exact Hg|discriminate]|].
  intros c g1 [Hin ->]. split; [|reflexivity].
  cbn [In] in Hin. destruct Hin as [<-|[<-|[]]]; [left|right]; reflexivity.
Qed.

(** C8, amended. For [minutes >= 0] and a generator within its range,
    the gold found is [round(u x minutes, 6)] for the drawn [u] of
    [[0, 0.002]]: it is at least 0, at most [round(0.002 x minutes, 6)],
    hence at most [0.002 x minutes + 0.0000005]; likewise the oil with
    0.003; the nuclear count is 0 or 1. *)
Theorem resource_generators_range (minutes : Q) (g : RNG) :
  valid_rng g -> 0 <= minutes ->
  returns (ai_boring_search_for_gold minutes) g
    (fun found g' =>
       found = py_round (uniform_at g (pos g) 0 0.002 * minutes) 6 /\
       0 <= found /\ found <= py_round (0.002 * minutes) 6 /\
       found <= 0.002 * minutes + 0.0000005 /\ g' = skip 1 g) /\
  returns (ai_boring_search_for_oil minutes) g
    (fun found g' =>
       found = py_round (uniform_at g (pos g) 0 0.003 * minutes) 6 /\
       0 <= found /\ found <= py_round (0.003 * minutes) 6 /\
       found <= 0.003 * minutes + 0.0000005 /\ g' = skip 1 g) /\
  returns (quiet_nuclear_protocol_scan minutes) g
    (fun count g' => (count = 0%Z \/ count = 1%Z) /\ g' = skip 1 g).
Proof.
  intros Hg Hm. split; [|split].
  - eapply returns_weaken; [apply ai_boring_search_for_gold_spec|].
    intros found g1 [-> ->].
    pose proof (found_range 0.002 minutes g (pos g) Hg ltac:(lra) Hm) as (H1 & H2 & H3).
    repeat split; assumption.
  - eapply returns_weaken; [apply ai_boring_search_for_oil_spec|].
    intros found g1 [-> ->].
    pose proof (found_range 0.003 minutes g (pos g) Hg ltac:(lra) Hm) as (H1 & H2 & H3).
    repeat split; assumption.
  - apply quiet_nuclear_protocol_scan_spec. exact Hg.
Qed.

Lemma valid_constant_rng (r : Q) : 0 <= r -> r < 1 -> valid_rng (constant_rng r).
Proof. intros H0 H1 i. cbn [constant_rng draws]. split; assumption. Qed.

Lemma resource_generators_range_witness :
  returns (ai_boring_search_for_gold 1) (constant_rng 0.5)
    (fun found _ => 0 <= found /\ found <= 0.002 * 1 + 0.0000005).
Proof.
  destruct (resource_generators_range 1 (constant_rng 0.5)) as [Hgold _].
  - apply valid_constant_rng; lra.
  - lra.
  - eapply returns_weaken; [exact Hgold|].
    intros found g1 (_ & H0 & _ & H1 & _). split; assumption.
Defined.

(** C8 as stated fails: at 0.0003 minutes with the draw 0.95 x 0.002 the
    gold found is 0.000001, above 0.002 x 0.0003 = 0.0000006. *)
Lemma gold_found_above_scaled_rate :
  valid_rng (constant_rng 0.95) /\ 0 <= 0.0003 /\
  exists found g',
    ai_boring_search_for_gold 0.0003 (constant_rng 0.95) = Ok (found, g') /\
    found = 0.000001 /\ ~ found <= 0.002 * 0.0003.
Proof.
  split; [apply valid_constant_rng; lra|]. split; [lra|].
  eexists. eexists. split; [reflexivity|].
  split; [vm_compute; reflexivity|].
  apply Qlt_not_le. reflexivity.
Qed.

(** ** The dictionary *)

Ltac state_simpl :=
  cbv [solar_nodes distribution_nodes asp energy gold oil nuclear_signatures
       anomalies supply_chain orbital ids bcp_transactions logs current_sim_time
       sim_step_count
       set_solar_nodes set_distribution_nodes set_asp set_energy set_gold set_oil
       set_nuclear_signatures set_anomalies set_supply_chain set_orbital set_ids
       set_bcp_transactions set_logs set_current_sim_time set_sim_step_count
       total_mwh].

Lemma logs_append_spec (s : SimState) (l : list string) (line : string) (g : RNG) :
  logs s = Some l ->
  returns (logs_append s line) g (fun s' g' => s' = set_logs s (l ++ [line]) /\ g' = g).
Proof.
  intro H. unfold logs_append. rewrite H.
  eexists _, g. split; [reflexivity|split; reflexivity].
Qed.

Lemma anomalies_append_spec (s : SimState) (l : list string) (line : string) (g : RNG) :
  anomalies s = Some l ->
  returns (anomalies_append s line) g
    (fun s' g' => s' = set_anomalies s (l ++ [line]) /\ g' = g).
Proof.
  intro H. unfold anomalies_append. rewrite H.
  eexists _, g. split; [reflexivity|split; reflexivity].
Qed.

Lemma supply_chain_append_spec (s : SimState) (l : list string) (line : string) (g : RNG) :
  supply_chain s = Some l ->
  returns (supply_chain_append s line) g
    (fun s' g' => s' = set_supply_chain s (l ++ [line]) /\ g' = g).
Proof.
  intro H. unfold supply_chain_append. rewrite H.
  eexists _, g. split; [reflexivity|split; reflexivity].
Qed.

Lemma orbital_append_spec (s : SimState) (l : list string) (line : string) (g : RNG) :
  orbital s = Some l ->
  returns (orbital_append s line) g
    (fun s' g' => s' = set_orbital s (l ++ [line]) /\ g' = g).
Proof.
  intro H. unfold orbital_append. rewrite H.
  eexists _, g. split; [reflexivity|split; reflexivity].
Qed.

Lemma ids_append_spec (s : SimState) (l : list string) (line : string) (g : RNG) :
  ids s = Some l ->
  returns (ids_append s line) g
    (fun s' g' => s' = set_ids s (l ++ [line]) /\ g' = g).
Proof.
  intro H. unfold ids_append. rewrite H.
  eexists _, g. split; [reflexivity|split; reflexivity].
Qed.

(** An assignment to a key of a dictionary given by its entries. *)
Lemma set_solar_nodes_mk sn dn a e go oi nu an su orb idl bcp lg ct sc (v : list SolarNodeController) :
  set_solar_nodes (mkState sn dn a e go oi nu an su orb idl bcp lg ct sc) v
  = mkState (Some v) dn a e go oi nu an su orb idl bcp lg ct sc.
Proof. reflexivity. Qed.

Lemma set_distribution_nodes_mk sn dn a e go oi nu an su orb idl bcp lg ct sc (v : list UniversalDistributionNode) :
  set_distribution_nodes (mkState sn dn a e go oi nu an su orb idl bcp lg ct sc) v
  = mkState sn (Some v) a e go oi nu an su orb idl bcp lg ct sc.
Proof. reflexivity. Qed.

Lemma set_asp_mk sn dn a e go oi nu an su orb idl bcp lg ct sc (v : AISovereigntyProtocol) :
  set_asp (mkState sn dn a e go oi nu an su orb idl bcp lg ct sc) v
  = mkState sn dn (Some v) e go oi nu an su orb idl bcp lg ct sc.
Proof. reflexivity. Qed.

Lemma set_energy_mk sn dn a e go oi nu an su orb idl bcp lg ct sc (v : Energy) :
  set_energy (mkState sn dn a e go oi nu an su orb idl bcp lg ct sc) v
  = mkState sn dn a (Some v) go oi nu an su orb idl bcp lg ct sc.
Proof. reflexivity. Qed.

Lemma set_gold_mk sn dn a e go oi nu an su orb idl bcp lg ct sc (v : Q) :
  set_gold (mkState sn dn a e go oi nu an su orb idl bcp lg ct sc) v
  = mkState sn dn a e (Some v) oi nu an su orb idl bcp lg ct sc.
Proof. reflexivity. Qed.

Lemma set_oil_mk sn dn a e go oi nu an su orb idl bcp lg ct sc (v : Q) :
  set_oil (mkState sn dn a e go oi nu an su orb idl bcp lg ct sc) v
  = mkState sn dn a e go (Some v) nu an su orb idl bcp lg ct sc.
Proof. reflexivity. Qed.

Lemma set_nuclear_signatures_mk sn dn a e go oi nu an su orb idl bcp lg ct sc (v : Z) :
  set_nuclear_signatures (mkState sn dn a e go oi nu an su orb idl bcp lg ct sc) v
  = mkState sn dn a e go oi (Some v) an su orb idl bcp lg ct sc.
Proof. reflexivity. Qed.

Lemma set_anomalies_mk sn dn a e go oi nu an su orb idl bcp lg ct sc (v : list string) :
  set_anomalies (mkState sn dn a e go oi nu an su orb idl bcp lg ct sc) v
  = mkState sn dn a e go oi nu (Some v) su orb idl bcp lg ct sc.
Proof. reflexivity. Qed.

Lemma set_supply_chain_mk sn dn a e go oi nu an su orb idl bcp lg ct sc (v : list string) :
  set_supply_chain (mkState sn dn a e go oi nu an su orb idl bcp lg ct sc) v
  = mkState sn dn a e go oi nu an (Some v) orb idl bcp lg ct sc.
Proof. reflexivity. Qed.

Lemma set_orbital_mk sn dn a e go oi nu an su orb idl bcp lg ct sc (v : list string) :
  set_orbital (mkState sn dn a e go oi nu an su orb idl bcp lg ct sc) v
  = mkState sn dn a e go oi nu an su (Some v) idl bcp lg ct sc.
Proof. reflexivity. Qed.

Lemma set_ids_mk sn dn a e go oi nu an su orb idl bcp lg ct sc (v : list string) :
  set_ids (mkState sn dn a e go oi nu an su orb idl bcp lg ct sc) v
  = mkState sn dn a e go oi nu an su orb (Some v) bcp lg ct sc.
Proof. reflexivity. Qed.

Lemma set_bcp_transactions_mk sn dn a e go oi nu an su orb idl bcp lg ct sc (v : list string) :
  set_bcp_transactions (mkState sn dn a e go oi nu an su orb idl bcp lg ct sc) v
  = mkState sn dn a e go oi nu an su orb idl (Some v) lg ct sc.
Proof. reflexivity. Qed.

Lemma set_logs_mk sn dn a e go oi nu an su orb idl bcp lg ct sc (v : list string) :
  set_logs (mkState sn dn a e go oi nu an su orb idl bcp lg ct sc) v
  = mkState sn dn a e go oi nu an su orb idl bcp (Some v) ct sc.
Proof. reflexivity. Qed.

Lemma set_current_sim_time_mk sn dn a e go oi nu an su orb idl bcp lg ct sc (v : datetime) :
  set_current_sim_time (mkState sn dn a e go oi nu an su orb idl bcp lg ct sc) v
  = mkState sn dn a e go oi nu an su orb idl bcp lg (Some v) sc.
Proof. reflexivity. Qed.

Lemma set_sim_step_count_mk sn dn a e go oi nu an su orb idl bcp lg ct sc (v : Z) :
  set_sim_step_count (mkState sn dn a e go oi nu an su orb idl bcp lg ct sc) v
  = mkState sn dn a e go oi nu an su orb idl bcp lg ct (Some v).
Proof. reflexivity. Qed.

Ltac norm_state :=
  repeat progress rewrite ?set_solar_nodes_mk, ?set_distribution_nodes_mk, ?set_asp_mk, ?set_energy_mk,
    ?set_gold_mk, ?set_oil_mk, ?set_nuclear_signatures_mk, ?set_anomalies_mk,
    ?set_supply_chain_mk, ?set_orbital_mk, ?set_ids_mk, ?set_bcp_transactions_mk,
    ?set_logs_mk, ?set_current_sim_time_mk, ?set_sim_step_count_mk.

(** ** The blocks of the step *)

Section Blocks.

Variable GRID_NODES : list string.
Variable SIM_INTERVAL_SECONDS : Q.

Lemma py_len_nonzero : GRID_NODES <> [] -> ~ py_len GRID_NODES == 0.
Proof.
  intros Hne Hz. destruct GRID_NODES as [|r rest]; [congruence|].
  unfold py_len, Qeq in Hz. cbn [List.length Qnum Qden inject_Z] in Hz. lia.
Qed.

Lemma py_len_zero : GRID_NODES = [] -> py_len GRID_NODES == 0.
Proof. intros ->. reflexivity. Qed.

Lemma generate_energy_all_spec (nodes : list SolarNodeController) (g : RNG) :
  valid_rng g ->
  returns (generate_energy_all SIM_INTERVAL_SECONDS nodes) g
    (fun r g' =>
       g' = skip (3 * List.length nodes) g /\
       List.length (fst r) = List.length nodes /\
       Forall2 (fun n n' =>
                  node_name n' = node_name n /\
                  80 <= panel_health n' /\
                  (80 <= panel_health n -> panel_health n' <= panel_health n))
               nodes (snd r) /\
       (0 <= SIM_INTERVAL_SECONDS -> Forall (fun o => 0 <= o) (fst r)) /\
       (0 < SIM_INTERVAL_SECONDS -> Forall (fun o => 0 < o) (fst r))).
Proof.
  revert g. induction nodes as [|node rest IH]; intros g Hg.
  - cbn [generate_energy_all]. apply returns_ret. cbn [fst snd List.length].
    rewrite skip_0. repeat split; constructor.
  - cbn [generate_energy_all].
    eapply returns_bind; [apply generate_energy_facts; exact Hg|].
    intros [out node'] g1. cbn [fst snd]. intros (-> & Hn & Hf & Hd & H0 & H1).
    eapply returns_bind; [apply IH; apply valid_rng_skip; exact Hg|].
    intros [outs rest'] g2. cbn [fst snd]. intros (-> & Hlen & Hall & Hs0 & Hs1).
    apply returns_ret. cbn [fst snd List.length].
    rewrite skip_skip. split; [f_equal; lia|].
    split; [congruence|].
    split; [constructor; [repeat split; assumption|exact Hall]|].
    split; intro Hs; constructor; auto.
Qed.

Lemma balance_and_distribute_spec (self : UniversalDistributionNode) (amount : Q)
    (g : RNG) :
  GRID_NODES <> [] ->
  returns (balance_and_distribute GRID_NODES self amount) g
    (fun self' g' =>
       self' = mkDist (region_name self) (energy_balance self + amount / py_len GRID_NODES) /\
       g' = g).
Proof.
  intro Hne. unfold balance_and_distribute.
  eapply returns_bind; [apply py_div_spec; apply py_len_nonzero; exact Hne|].
  intros q g1 [-> ->]. apply returns_ret. split; reflexivity.
Qed.

Lemma balance_and_distribute_raises (self : UniversalDistributionNode) (amount : Q)
    (g : RNG) :
  GRID_NODES = [] ->
  raises (balance_and_distribute GRID_NODES self amount) g ZeroDivisionError.
Proof.
  intro He. unfold balance_and_distribute.
  apply raises_bind_l. apply py_div_zero. apply py_len_zero. exact He.
Qed.

Lemma distribute_energy_spec (nodes : list UniversalDistributionNode) (amount : Q)
    (t : datetime) (s : SimState) (l : list string) (g : RNG) :
  logs s = Some l ->
  GRID_NODES <> [] \/ nodes = [] ->
  returns (distribute_energy GRID_NODES nodes amount t s) g
    (fun r g' =>
       g' = g /\
       fst r = credited (py_len GRID_NODES) amount nodes /\
       exists new, snd r = set_logs s (l ++ new) /\
                   List.length new = List.length nodes).
Proof.
  revert s l. induction nodes as [|node rest IH]; intros s l Hl Hok.
  - cbn [distribute_energy]. apply returns_ret. cbn [fst snd map credited].
    split; [reflexivity|]. split; [reflexivity|].
    exists []. rewrite app_nil_r. split; [|reflexivity].
    destruct s. cbn in Hl. subst. reflexivity.
  - destruct Hok as [Hne|Hnil]; [|discriminate].
    cbn [distribute_energy].
    eapply returns_bind; [apply balance_and_distribute_spec; exact Hne|].
    intros node' g1 [-> ->].
    eapply returns_bind; [apply logs_append_spec; exact Hl|].
    intros s1 g1 [-> ->].
    eapply returns_bind; [eapply IH; [reflexivity|left; exact Hne]|].
    intros [rest' s2] g2. cbn [fst snd]. intros (-> & -> & new & -> & Hlen).
    apply returns_ret. cbn [fst snd map credited].
    split; [reflexivity|]. split; [reflexivity|].
    eexists (_ :: new). split.
    + rewrite <- app_assoc. reflexivity.
    + cbn [List.length]. congruence.
Qed.

Lemma distribute_energy_raises (nodes : list UniversalDistributionNode) (amount : Q)
    (t : datetime) (s : SimState) (g : RNG) :
  GRID_NODES = [] -> nodes <> [] ->
  raises (distribute_energy GRID_NODES nodes amount t s) g ZeroDivisionError.
Proof.
  intros He Hne. destruct nodes as [|node rest]; [congruence|].
  cbn [distribute_energy]. apply raises_bind_l.
  apply balance_and_distribute_raises. exact He.
Qed.

Lemma simulate_supply_chain_spec (region : string) (g : RNG) :
  valid_rng g ->
  returns (simulate_supply_chain region) g (fun _ g' => g' = skip 2 g).
Proof.
  intro Hg. unfold simulate_supply_chain.
  eapply returns_bind; [apply random_randint_spec|]. intros n g1 ->.
  eapply returns_bind;
    [apply random_choice_spec; [apply valid_rng_skip; exact Hg|discriminate]|].
  intros meds g1 [_ ->]. apply returns_ret. apply skip_skip.
Qed.

Lemma simulate_orbital_scan_spec (region : string) (g : RNG) :
  valid_rng g ->
  returns (simulate_orbital_scan region) g (fun _ g' => g' = skip 1 g).
Proof.
  intro Hg. unfold simulate_orbital_scan.
  eapply returns_bind; [apply random_choice_spec; [exact Hg|discriminate]|].
  intros f g1 [_ ->]. apply returns_ret. reflexivity.
Qed.

Lemma register_sovereign_id_spec (region : string) (g : RNG) :
  returns (register_sovereign_id region) g (fun _ g' => g' = skip 2 g).
Proof.
  unfold register_sovereign_id.
  eapply returns_bind; [apply random_randint_spec|]. intros n g1 ->.
  eapply returns_bind; [apply random_uniform_spec|]. intros u g1 [_ ->].
  apply returns_ret. apply skip_skip.
Qed.

Lemma regional_operations_spec (regions : list string) (t : datetime) (s : SimState)
    (sc orb idl l : list string) (g : RNG) :
  valid_rng g ->
  supply_chain s = Some sc -> orbital s = Some orb -> ids s = Some idl ->
  logs s = Some l ->
  returns (regional_operations regions t s) g
    (fun s' g' =>
       g' = skip (5 * List.length regions) g /\
       exists sc' orb' idl' new,
         s' = set_logs (set_ids (set_orbital (set_supply_chain s (sc ++ sc'))
                                   (orb ++ orb')) (idl ++ idl')) (l ++ new) /\
         List.length sc' = List.length regions /\
         List.length orb' = List.length regions /\
         List.length idl' = List.length regions /\
         List.length new = (3 * List.length regions)%nat).
Proof.
  revert s sc orb idl l g.
  induction regions as [|region rest IH]; intros s sc orb idl l g Hg Hsc Horb Hid Hl.
  - cbn [regional_operations]. apply returns_ret.
    split; [rewrite skip_0; reflexivity|].
    exists [], [], [], []. rewrite !app_nil_r.
    split; [|repeat split; reflexivity].
    destruct s. cbn in Hsc, Horb, Hid, Hl. subst. reflexivity.
  - cbn [regional_operations].
    eapply returns_bind; [apply simulate_supply_chain_spec; exact Hg|].
    intros sc_log g1 ->.
    eapply returns_bind; [apply supply_chain_append_spec; exact Hsc|].
    intros s1 g1 [-> ->].
    eapply returns_bind; [apply logs_append_spec; exact Hl|].
    intros s1 g1 [-> ->].
    eapply returns_bind;
      [apply simulate_orbital_scan_spec; apply valid_rng_skip; exact Hg|].
    intros orb_log g1 ->.
    eapply returns_bind; [apply orbital_append_spec; exact Horb|].
    intros s1 g1 [-> ->].
    eapply returns_bind; [apply logs_append_spec; reflexivity|].
    intros s1 g1 [-> ->].
    eapply returns_bind; [apply register_sovereign_id_spec|].
    intros id_log g1 ->.
    eapply returns_bind; [apply ids_append_spec; exact Hid|].
    intros s1 g1 [-> ->].
    eapply returns_bind; [apply logs_append_spec; reflexivity|].
    intros s1 g1 [-> ->].
    eapply returns_weaken.
    + eapply IH; [do 3 apply valid_rng_skip; exact Hg|reflexivity..].
    + cbv beta. intros s' g' (-> & sc' & orb' & idl' & new & -> & H1 & H2 & H3 & H4).
      split; [rewrite !skip_skip; cbn [List.length]; f_equal; lia|].
      eexists (_ :: sc'), (_ :: orb'), (_ :: idl'), (_ :: _ :: _ :: new).
      split; [|cbn [List.length]; repeat split; lia].
      state_simpl.
      rewrite <- !app_assoc. reflexivity.
Qed.

End Blocks.

(** ** The step *)

Section Step.

Variable GRID_NODES : list string.
Variable SIM_INTERVAL_SECONDS : Q.

Ltac solve_if_missing :=
  let s := fresh "s" in
  let v := fresh "v" in
  intros s v;
  destruct s as [sn dn a e go oi nu an su orb idl bcp lg ct sc];
  cbn [solar_nodes distribution_nodes asp energy gold oil nuclear_signatures
       anomalies supply_chain orbital ids bcp_transactions logs];
  match goal with |- if_missing ?f _ _ = _ => destruct f end; reflexivity.

Lemma if_missing_solar_nodes :
  forall (s : SimState) (v : list SolarNodeController),
    if_missing (solar_nodes s) s (set_solar_nodes s v) = set_solar_nodes s (or_default (solar_nodes s) v).
Proof. solve_if_missing. Qed.

Lemma if_missing_distribution_nodes :
  forall (s : SimState) (v : list UniversalDistributionNode),
    if_missing (distribution_nodes s) s (set_distribution_nodes s v) = set_distribution_nodes s (or_default (distribution_nodes s) v).
Proof. solve_if_missing. Qed.

Lemma if_missing_asp :
  forall (s : SimState) (v : AISovereigntyProtocol),
    if_missing (asp s) s (set_asp s v) = set_asp s (or_default (asp s) v).
Proof. solve_if_missing. Qed.

Lemma if_missing_energy :
  forall (s : SimState) (v : Energy),
    if_missing (energy s) s (set_energy s v) = set_energy s (or_default (energy s) v).
Proof. solve_if_missing. Qed.

Lemma if_missing_gold :
  forall (s : SimState) (v : Q),
    if_missing (gold s) s (set_gold s v) = set_gold s (or_default (gold s) v).
Proof. solve_if_missing. Qed.

Lemma if_missing_oil :
  forall (s : SimState) (v : Q),
    if_missing (oil s) s (set_oil s v) = set_oil s (or_default (oil s) v).
Proof. solve_if_missing. Qed.

Lemma if_missing_nuclear_signatures :
  forall (s : SimState) (v : Z),
    if_missing (nuclear_signatures s) s (set_nuclear_signatures s v) = set_nuclear_signatures s (or_default (nuclear_signatures s) v).
Proof. solve_if_missing. Qed.

Lemma if_missing_anomalies :
  forall (s : SimState) (v : list string),
    if_missing (anomalies s) s (set_anomalies s v) = set_anomalies s (or_default (anomalies s) v).
Proof. solve_if_missing. Qed.

Lemma if_missing_supply_chain :
  forall (s : SimState) (v : list string),
    if_missing (supply_chain s) s (set_supply_chain s v) = set_supply_chain s (or_default (supply_chain s) v).
Proof. solve_if_missing. Qed.

Lemma if_missing_orbital :
  forall (s : SimState) (v : list string),
    if_missing (orbital s) s (set_orbital s v) = set_orbital s (or_default (orbital s) v).
Proof. solve_if_missing. Qed.

Lemma if_missing_ids :
  forall (s : SimState) (v : list string),
    if_missing (ids s) s (set_ids s v) = set_ids s (or_default (ids s) v).
Proof. solve_if_missing. Qed.

Lemma if_missing_bcp_transactions :
  forall (s : SimState) (v : list string),
    if_missing (bcp_transactions s) s (set_bcp_transactions s v) = set_bcp_transactions s (or_default (bcp_transactions s) v).
Proof. solve_if_missing. Qed.

Lemma if_missing_logs :
  forall (s : SimState) (v : list string),
    if_missing (logs s) s (set_logs s v) = set_logs s (or_default (logs s) v).
Proof. solve_if_missing. Qed.

Lemma initialize_objects_eq (s : SimState) :
  initialize_objects GRID_NODES s
  = set_asp (set_distribution_nodes (set_solar_nodes s (start_solar GRID_NODES s))
               (start_distribution GRID_NODES s)) (or_default (asp s) mkASP).
Proof.
  unfold initialize_objects. cbv zeta.
  rewrite if_missing_solar_nodes, if_missing_distribution_nodes, if_missing_asp.
  reflexivity.
Qed.

Lemma initialize_metrics_eq (s : SimState) :
  initialize_metrics s
  = mkState (solar_nodes s) (distribution_nodes s) (asp s)
      (Some (or_default (energy s) (mkEnergy 0)))
      (Some (or_default (gold s) 0)) (Some (or_default (oil s) 0))
      (Some (or_default (nuclear_signatures s) 0%Z))
      (Some (start_lines (anomalies s))) (Some (start_lines (supply_chain s)))
      (Some (start_lines (orbital s))) (Some (start_lines (ids s)))
      (Some (start_lines (bcp_transactions s))) (Some (start_lines (logs s)))
      (current_sim_time s) (sim_step_count s).
Proof.
  unfold initialize_metrics. cbv zeta.
  rewrite if_missing_energy, if_missing_gold, if_missing_oil,
    if_missing_nuclear_signatures, if_missing_anomalies, if_missing_supply_chain,
    if_missing_orbital, if_missing_ids, if_missing_bcp_transactions, if_missing_logs.
  reflexivity.
Qed.

Lemma lazy_initialization (s : SimState) :
  initialize_metrics (initialize_objects GRID_NODES s) = start_state GRID_NODES s.
Proof. rewrite initialize_metrics_eq, initialize_objects_eq. reflexivity. Qed.

Lemma monitor_grid_integrity_self (self : AISovereigntyProtocol) (x : Q) :
  monitor_grid_integrity self x = monitor_grid_integrity mkASP x.
Proof. destruct self. reflexivity. Qed.

Lemma returns_getitem {A B : Type} (key : string) (v : A) (f : A -> M B) (g : RNG)
    (P : B -> RNG -> Prop) :
  returns (f v) g P -> returns (bind (getitem key (Some v)) f) g P.
Proof. intro H. exact H. Qed.

(** The body of the step returns, and does what [tick] says, unless it
    has to divide by an empty [GRID_NODES]. *)
Lemma run_simulation_body_tick (s : SimState) (t : datetime) (iv : Q) (g : RNG) :
  valid_rng g ->
  GRID_NODES <> [] \/ start_distribution GRID_NODES s = [] ->
  returns (run_simulation_body GRID_NODES SIM_INTERVAL_SECONDS s t iv) g
    (fun s' g' => exists outputs,
         tick GRID_NODES SIM_INTERVAL_SECONDS s iv g outputs s' g').
Proof.
  intros Hg Hok. unfold run_simulation_body. cbv zeta.
  rewrite lazy_initialization, initialize_objects_eq.
  do 3 apply returns_getitem.
  unfold start_state.
  eapply returns_bind; [apply returns_run, generate_energy_all_spec; exact Hg|].
  intros [outs solar'] g1. cbn [fst snd].
  intros (Hrun & Hg1 & Hlen & Hsolar & Hnn & Hpos).
  norm_state.
  apply returns_getitem. norm_state.
  eapply returns_bind; [apply logs_append_spec; reflexivity|].
  intros s1 g1' [-> ->]. norm_state.
  eapply returns_bind; [eapply distribute_energy_spec; [reflexivity|exact Hok]|].
  intros [dist' s2] g2. cbn [fst snd]. intros (-> & -> & lines_d & -> & Hlen_d).
  norm_state.
  eapply returns_bind.
  { eapply regional_operations_spec;
      [rewrite Hg1; apply valid_rng_skip; exact Hg|reflexivity..]. }
  intros s3 g3 (-> & sc' & orb' & idl' & lines_r & -> & Hsc & Horb & Hid & Hlr).
  norm_state.
  eapply returns_bind; [apply random_uniform_spec|]. intros threat g4 [-> ->].
  rewrite monitor_grid_integrity_self.
  assert (Hthreat : uniform_at (skip (5 * List.length GRID_NODES) g1)
                      (pos (skip (5 * List.length GRID_NODES) g1)) 1000 9000
                    = threat_level_of GRID_NODES s g).
  { rewrite Hg1. reflexivity. }
  rewrite Hthreat.
  set (alert := monitor_grid_integrity mkASP (threat_level_of GRID_NODES s g)).
  set (msg := stamp t "[ASP ALERT] Threat Quarantined").
  match goal with
  | |- returns (bind (if _ then _ else ret ?X) _) ?G _ =>
      eapply (returns_bind _ _ _
                (fun s4 g' =>
                   g' = G /\
                   s4 = set_logs
                          (set_anomalies X
                             (if alert then start_lines (anomalies s) ++ [msg]
                              else start_lines (anomalies s)))
                          (if alert then or_default (logs X) [] ++ [msg]
                           else or_default (logs X) [])))
  end.
  { destruct alert.
    - eapply returns_bind; [apply anomalies_append_spec; reflexivity|].
      intros s4 g4 [-> ->]. norm_state.
      eapply returns_weaken; [apply logs_append_spec; reflexivity|].
      intros s4 g4 [-> ->]. split; reflexivity.
    - apply returns_ret. split; reflexivity. }
  intros s4 g4 [-> ->]. cbn [logs or_default]. norm_state.
  eapply returns_bind; [apply ai_boring_search_for_gold_spec|].
  intros gold_found g5 [-> ->].
  eapply returns_bind; [apply ai_boring_search_for_oil_spec|].
  intros oil_found g5 [-> ->].
  eapply returns_bind.
  { apply quiet_nuclear_protocol_scan_spec.
    rewrite Hg1. do 5 apply valid_rng_skip. exact Hg. }
  intros count g5 [Hcount ->].
  apply returns_getitem. norm_state. apply returns_getitem.
  eapply returns_bind; [apply logs_append_spec; reflexivity|].
  intros s5 g5 [-> ->]. norm_state.
  apply returns_getitem. norm_state. apply returns_getitem.
  eapply returns_bind; [apply logs_append_spec; reflexivity|].
  intros s5 g5 [-> ->]. norm_state.
  apply returns_getitem. norm_state. apply returns_getitem.
  eapply returns_weaken; [apply logs_append_spec; reflexivity|].
  intros s5 g5 [-> ->]. norm_state.
  exists outs. subst g1.
  constructor; cbn [solar_nodes distribution_nodes asp energy gold oil
                      nuclear_signatures anomalies supply_chain orbital ids
                      bcp_transactions logs current_sim_time sim_step_count].
  - exists solar'. split; [exact Hrun|split; [reflexivity|exact Hsolar]].
  - exact Hnn.
  - exact Hpos.
  - exact Hlen.
  - reflexivity.
  - reflexivity.
  - reflexivity.
  - reflexivity.
  - replace (threat_position GRID_NODES s g + 2)%nat
      with (threat_position GRID_NODES s g + 1 + 1)%nat by lia.
    reflexivity.
  - exists count. split; [exact Hcount|reflexivity].
  - exists sc'. split; [reflexivity|exact Hsc].
  - exists orb'. split; [reflexivity|exact Horb].
  - exists idl'. split; [reflexivity|exact Hid].
  - reflexivity.
  - fold alert.
    eexists ([_] ++ lines_d ++ lines_r), (if alert then [msg] else []),
      ([_] ++ [_] ++ [_]).
    destruct alert.
    + split; [rewrite <- !app_assoc; reflexivity|].
      split; [reflexivity|].
      rewrite !length_app. cbn [List.length]. repeat split; lia.
    + split; [rewrite app_nil_l, <- !app_assoc; reflexivity|].
      split; [rewrite app_nil_r; reflexivity|].
      rewrite !length_app. cbn [List.length]. repeat split; lia.
  - reflexivity.
  - reflexivity.
  - rewrite !skip_skip. f_equal. lia.
Qed.

End Step.

(** ** What a tick leaves behind *)

Lemma slice_last_length {A : Type} (n : nat) (l : list A) :
  List.length (slice_last n l) = Nat.min n (List.length l).
Proof. unfold slice_last. rewrite length_skipn. lia. Qed.

Lemma slice_last_suffix {A : Type} (n : nat) (l : list A) :
  l = firstn (List.length l - n) l ++ slice_last n l.
Proof. unfold slice_last. symmetry. apply firstn_skipn. Qed.

Lemma slice_last_short {A : Type} (n : nat) (l : list A) :
  (List.length l <= n)%nat -> slice_last n l = l.
Proof.
  intro H. unfold slice_last.
  replace (List.length l - n)%nat with 0%nat by lia. reflexivity.
Qed.

Section Ticks.

Variable GRID_NODES : list string.
Variable SIM_INTERVAL_SECONDS : Q.

Lemma truncate_logs_spec (s : SimState) (l : list string) (g : RNG) :
  logs s = Some l ->
  returns (truncate_logs s) g (fun s' g' => s' = set_logs s (slice_last 50 l) /\ g' = g).
Proof.
  intro H. unfold truncate_logs. rewrite H.
  eexists _, g. split; [reflexivity|split; reflexivity].
Qed.

(** The step is its body followed by the truncation of the log. *)
Lemma run_simulation_step_tick (s : SimState) (t : datetime) (iv : Q) (g : RNG) :
  valid_rng g ->
  GRID_NODES <> [] \/ start_distribution GRID_NODES s = [] ->
  returns (run_simulation_step GRID_NODES SIM_INTERVAL_SECONDS s t iv) g
    (fun s' g' => exists outputs s_mid l_mid,
         run_simulation_body GRID_NODES SIM_INTERVAL_SECONDS s t iv g = Ok (s_mid, g') /\
         tick GRID_NODES SIM_INTERVAL_SECONDS s iv g outputs s_mid g' /\
         logs s_mid = Some l_mid /\
         s' = set_logs s_mid (slice_last 50 l_mid)).
Proof.
  intros Hg Hok. unfold run_simulation_step.
  eapply returns_bind; [apply returns_run, run_simulation_body_tick; assumption|].
  intros s_mid g1 (Hrun & outputs & Htick). cbv beta.
  destruct (tick_logs _ _ _ _ _ _ _ _ Htick) as (hd & al & tl & Hlogs & _).
  eapply returns_weaken; [apply truncate_logs_spec; exact Hlogs|].
  intros s' g' [-> ->]. eexists outputs, s_mid, _.
  split; [exact Hrun|split; [exact Htick|split; [exact Hlogs|reflexivity]]].
Qed.

Lemma run_simulation_body_raises (s : SimState) (t : datetime) (iv : Q) (g : RNG) :
  valid_rng g ->
  GRID_NODES = [] -> start_distribution GRID_NODES s <> [] ->
  raises (run_simulation_body GRID_NODES SIM_INTERVAL_SECONDS s t iv) g ZeroDivisionError.
Proof.
  intros Hg He Hne. unfold run_simulation_body. cbv zeta.
  rewrite lazy_initialization, initialize_objects_eq.
  do 3 apply raises_getitem. unfold start_state.
  eapply raises_bind_r; [apply generate_energy_all_spec; exact Hg|].
  intros [outs solar'] g1 _. norm_state. apply raises_getitem. norm_state.
  eapply raises_bind_r; [apply logs_append_spec; reflexivity|].
  intros s1 g1' [-> ->]. norm_state.
  apply raises_bind_l. apply distribute_energy_raises; assumption.
Qed.

Lemma run_simulation_step_raises (s : SimState) (t : datetime) (iv : Q) (g : RNG) :
  valid_rng g ->
  GRID_NODES = [] -> start_distribution GRID_NODES s <> [] ->
  raises (run_simulation_step GRID_NODES SIM_INTERVAL_SECONDS s t iv) g ZeroDivisionError.
Proof.
  intros Hg He Hne. unfold run_simulation_step.
  apply raises_bind_l. apply run_simulation_body_raises; assumption.
Qed.

End Ticks.

(** ** Lazy initialisation, repeated calls and the one fault *)

Section Calls.

Variable GRID_NODES : list string.
Variable SIM_INTERVAL_SECONDS : Q.

Lemma tick_initialized (s : SimState) (iv : Q) (g : RNG) (outputs : list Q)
    (s' : SimState) (g' : RNG) :
  tick GRID_NODES SIM_INTERVAL_SECONDS s iv g outputs s' g' -> initialized s'.
Proof.
  intros [(solar' & _ & Hs & _) _ _ _ Hd Ha He Hg Ho (c & _ & Hn)
          (su & Hsu & _) (orb & Horb & _) (idl & Hid & _) Hb
          (hd & al & tl & Hl & Han & _) _ _ _].
  unfold initialized.
  rewrite Hs, Hd, Ha, He, Hg, Ho, Hn, Han, Hsu, Horb, Hid, Hb, Hl.
  repeat split; discriminate.
Qed.

Lemma tick_valid_rng (s : SimState) (iv : Q) (g : RNG) (outputs : list Q)
    (s' : SimState) (g' : RNG) :
  valid_rng g ->
  tick GRID_NODES SIM_INTERVAL_SECONDS s iv g outputs s' g' -> valid_rng g'.
Proof.
  intros Hg Ht. rewrite (tick_rng _ _ _ _ _ _ _ _ Ht). apply valid_rng_skip. exact Hg.
Qed.

Lemma initialized_set_logs (s : SimState) (l : list string) :
  initialized s -> initialized (set_logs s l).
Proof.
  unfold initialized. intros (H1 & H2 & H3 & H4 & H5 & H6 & H7 & H8 & H9 & H10 & H11 & H12 & _).
  repeat split; try assumption. discriminate.
Qed.

Lemma run_simulation_step_initialized (s : SimState) (t : datetime) (iv : Q) (g : RNG) :
  GRID_NODES <> [] -> valid_rng g ->
  returns (run_simulation_step GRID_NODES SIM_INTERVAL_SECONDS s t iv) g
    (fun s' g' => initialized s' /\ valid_rng g').
Proof.
  intros Hne Hg.
  eapply returns_weaken; [apply run_simulation_step_tick; [exact Hg|left; exact Hne]|].
  intros s' g' (outputs & s_mid & l_mid & _ & Ht & _ & ->).
  split.
  - apply initialized_set_logs. eapply tick_initialized. exact Ht.
  - eapply tick_valid_rng; eassumption.
Qed.

Lemma run_simulation_steps_initialized (calls : list (datetime * Q)) (s : SimState)
    (g : RNG) :
  GRID_NODES <> [] -> valid_rng g -> initialized s ->
  returns (run_simulation_steps GRID_NODES SIM_INTERVAL_SECONDS calls s) g
    (fun s' g' => initialized s' /\ valid_rng g').
Proof.
  intros Hne. revert s g.
  induction calls as [|[t iv] rest IH]; intros s g Hg Hi.
  - apply returns_ret. split; assumption.
  - cbn [run_simulation_steps].
    eapply returns_bind; [apply run_simulation_step_initialized; assumption|].
    intros s1 g1 [Hi1 Hg1]. apply IH; assumption.
Qed.

(** C7. With a non-empty region set, [run_simulation_step] returns on
    every dictionary, whichever of its keys are absent (all of them, for
    the empty dictionary); the dictionary it returns has every key, and
    every sequence of further calls on what the previous call returned
    returns as well.  The initialisation is lazy: each of the thirteen
    keys of the returned dictionary is the tick's update of what the
    caller's dictionary held under that key or, where the key was absent,
    of its default (the nodes of [GRID_NODES], a new protocol object, 0,
    the empty list); a present key is never reset, and the driver's two
    keys are returned as they came. *)
Theorem run_simulation_step_any_state (s : SimState) (t : datetime) (iv : Q) (g : RNG) :
  GRID_NODES <> [] -> valid_rng g ->
  returns (run_simulation_step GRID_NODES SIM_INTERVAL_SECONDS s t iv) g
    (fun s' g' =>
       initialized s' /\
       (forall calls : list (datetime * Q),
           returns (run_simulation_steps GRID_NODES SIM_INTERVAL_SECONDS calls s') g'
             (fun s'' _ => initialized s'')) /\
       exists (outputs : list Q) (solar' : list SolarNodeController)
              (found_gold found_oil : Q) (count : Z)
              (alerts new_supply_chain new_orbital new_ids new_lines : list string),
         solar_nodes s' = Some solar' /\
         Forall2 (fun n n' => node_name n' = node_name n)
                 (or_default (solar_nodes s) (map new_SolarNodeController GRID_NODES))
                 solar' /\
         distribution_nodes s'
         = Some (credited (py_len GRID_NODES) (py_sum outputs)
                   (or_default (distribution_nodes s)
                      (map new_UniversalDistributionNode GRID_NODES))) /\
         asp s' = Some (or_default (asp s) mkASP) /\
         energy s'
         = Some (mkEnergy (total_mwh (or_default (energy s) (mkEnergy 0))
                           + py_sum outputs)) /\
         gold s' = Some (or_default (gold s) 0 + found_gold) /\
         oil s' = Some (or_default (oil s) 0 + found_oil) /\
         nuclear_signatures s' = Some (or_default (nuclear_signatures s) 0 + count)%Z /\
         anomalies s' = Some (or_default (anomalies s) [] ++ alerts) /\
         supply_chain s' = Some (or_default (supply_chain s) [] ++ new_supply_chain) /\
         orbital s' = Some (or_default (orbital s) [] ++ new_orbital) /\
         ids s' = Some (or_default (ids s) [] ++ new_ids) /\
         bcp_transactions s' = Some (or_default (bcp_transactions s) []) /\
         logs s' = Some (slice_last 50 (or_default (logs s) [] ++ new_lines)) /\
         current_sim_time s' = current_sim_time s /\
         sim_step_count s' = sim_step_count s).
Proof.
  intros Hne Hg.
  eapply returns_weaken.
  - apply run_simulation_step_tick; [exact Hg|left; exact Hne].
  - cbv beta.
    intros s' g' (outputs & s_mid & l_mid & _ & Ht & Hmid & Hs').
    assert (Hi : initialized s').
    { rewrite Hs'. apply initialized_set_logs. eapply tick_initialized. exact Ht. }
    assert (Hg' : valid_rng g') by (eapply tick_valid_rng; eassumption).
    split; [exact Hi|]. split.
    { intro calls.
      eapply returns_weaken; [apply run_simulation_steps_initialized; assumption|].
      intros s'' g'' [Hi'' _]. exact Hi''. }
    destruct (tick_generate _ _ _ _ _ _ _ _ Ht) as (solar' & _ & Hsolar & Hnames).
    destruct (tick_nuclear _ _ _ _ _ _ _ _ Ht) as (count & _ & Hcount).
    destruct (tick_supply_chain _ _ _ _ _ _ _ _ Ht) as (new_sc & Hsc & _).
    destruct (tick_orbital _ _ _ _ _ _ _ _ Ht) as (new_orb & Horb & _).
    destruct (tick_ids _ _ _ _ _ _ _ _ Ht) as (new_ids & Hids & _).
    destruct (tick_logs _ _ _ _ _ _ _ _ Ht)
      as (head & alerts & tail & Hlogs & Hanomalies & _).
    rewrite Hlogs in Hmid. injection Hmid as <-.
    eexists outputs, solar', _, _, count, alerts, new_sc, new_orb, new_ids,
      (head ++ alerts ++ tail).
    rewrite Hs'.
    split; [exact Hsolar|].
    split.
    { eapply Forall2_impl; [|exact Hnames]. cbv beta. intros n n' (Hn & _). exact Hn. }
    split; [exact (tick_distribution _ _ _ _ _ _ _ _ Ht)|].
    split; [exact (tick_asp _ _ _ _ _ _ _ _ Ht)|].
    split; [exact (tick_energy _ _ _ _ _ _ _ _ Ht)|].
    split; [exact (tick_gold _ _ _ _ _ _ _ _ Ht)|].
    split; [exact (tick_oil _ _ _ _ _ _ _ _ Ht)|].
    split; [exact Hcount|].
    split; [exact Hanomalies|].
    split; [exact Hsc|]. split; [exact Horb|]. split; [exact Hids|].
    split; [exact (tick_bcp_transactions _ _ _ _ _ _ _ _ Ht)|].
    split; [reflexivity|].
    split; [exact (tick_current_sim_time _ _ _ _ _ _ _ _ Ht)
           |exact (tick_sim_step_count _ _ _ _ _ _ _ _ Ht)].
Qed.

Lemma raises_unique {A : Type} (m : M A) (g : RNG) (e e' : PyError) :
  raises m g e -> raises m g e' -> e = e'.
Proof. unfold raises. intros H H'. congruence. Qed.

(** C9, amended. The step has one fault, the [ZeroDivisionError] of the
    division by [len(GRID_NODES)] in [balance_and_distribute]: a call
    raises exactly when [GRID_NODES] is empty and the dictionary holds a
    distribution node, and then it raises that error, during the call;
    with a non-empty [GRID_NODES] the step returns. *)
Theorem run_simulation_step_only_fault (s : SimState) (t : datetime) (iv : Q) (g : RNG) :
  valid_rng g ->
  (forall e : PyError,
      raises (run_simulation_step GRID_NODES SIM_INTERVAL_SECONDS s t iv) g e <->
      e = ZeroDivisionError /\ GRID_NODES = [] /\ start_distribution GRID_NODES s <> []) /\
  (GRID_NODES <> [] ->
   returns (run_simulation_step GRID_NODES SIM_INTERVAL_SECONDS s t iv) g
     (fun s' _ => initialized s')).
Proof.
  intro Hg. split.
  - intro e. split.
    + intro Hr.
      assert (Hcase : (GRID_NODES = [] /\ start_distribution GRID_NODES s <> []) \/
                      (GRID_NODES <> [] \/ start_distribution GRID_NODES s = [])).
      { destruct GRID_NODES as [|r rest].
        - destruct (start_distribution [] s) as [|n nodes].
          + right. right. reflexivity.
          + left. split; [reflexivity|discriminate].
        - right. left. discriminate. }
      destruct Hcase as [[He Hd]|Hok].
      * split; [|split; assumption].
        eapply raises_unique; [exact Hr|].
        apply run_simulation_step_raises; assumption.
      * exfalso. eapply returns_not_raises; [|exact Hr].
        apply run_simulation_step_tick; assumption.
    + intros (-> & He & Hd). apply run_simulation_step_raises; assumption.
  - intro Hne.
    eapply returns_weaken; [apply run_simulation_step_initialized; assumption|].
    intros s' g' [Hi _]. exact Hi.
Qed.

End Calls.

Lemma run_simulation_step_any_state_witness :
  returns (run_simulation_step repo_GRID_NODES repo_SIM_INTERVAL_SECONDS
             empty_state 0 1) (constant_rng 0.5)
    (fun s' _ =>
       initialized s' /\
       asp s' = Some mkASP /\ bcp_transactions s' = Some [] /\
       current_sim_time s' = None /\ sim_step_count s' = None).
Proof.
  eapply returns_weaken.
  - apply (run_simulation_step_any_state repo_GRID_NODES repo_SIM_INTERVAL_SECONDS
             empty_state 0 1 (constant_rng 0.5)).
    + discriminate.
    + apply valid_constant_rng; lra.
  - intros s' g'
      (Hi & _ & _ & _ & _ & _ & _ & _ & _ & _ & _ & _ & _ & _ & _ &
       Hasp & _ & _ & _ & _ & _ & _ & _ & _ & Hbcp & _ & Htime & Hcount).
    split; [exact Hi|]. split; [exact Hasp|]. split; [exact Hbcp|].
    split; [exact Htime|exact Hcount].
Defined.

Lemma run_simulation_step_only_fault_witness :
  returns (run_simulation_step repo_GRID_NODES repo_SIM_INTERVAL_SECONDS
             empty_state 0 1) (constant_rng 0.5)
    (fun s' _ => initialized s').
Proof.
  destruct (run_simulation_step_only_fault repo_GRID_NODES repo_SIM_INTERVAL_SECONDS
              empty_state 0 1 (constant_rng 0.5)) as [_ Hret].
  - apply valid_constant_rng; lra.
  - apply Hret. discriminate.
Defined.

(** C9 as stated fails twice. With an empty region set and the empty
    dictionary the step returns: no operation fails. With an empty
    region set and a dictionary that holds a distribution node the
    division fails inside the step: nothing rejects the configuration
    before the tick. *)
Lemma empty_region_set_unguarded :
  returns (run_simulation_step [] 1 empty_state 0 1) (constant_rng 0.5)
    (fun s' _ => initialized s') /\
  raises (run_simulation_step [] 1
            (set_distribution_nodes empty_state
               [new_UniversalDistributionNode "RegionAlpha"]) 0 1)
    (constant_rng 0.5) ZeroDivisionError.
Proof.
  assert (Hg : valid_rng (constant_rng 0.5)) by (apply valid_constant_rng; lra).
  split.
  - eapply returns_weaken.
    + apply run_simulation_step_tick; [exact Hg|right; reflexivity].
    + intros s' g' (outputs & s_mid & l_mid & _ & Ht & _ & ->).
      apply initialized_set_logs. eapply tick_initialized. exact Ht.
  - apply run_simulation_step_raises; [exact Hg|reflexivity|discriminate].
Qed.

(** ** The log and the distribution of a tick *)

Lemma configured_start (GRID_NODES : list string) (s : SimState) :
  configured GRID_NODES s ->
  initialized s /\
  solar_nodes s = Some (start_solar GRID_NODES s) /\
  List.length (start_solar GRID_NODES s) = List.length GRID_NODES /\
  distribution_nodes s = Some (start_distribution GRID_NODES s) /\
  List.length (start_distribution GRID_NODES s) = List.length GRID_NODES.
Proof.
  intros (Hi & (sn & Hs & Hsl) & (dn & Hd & Hdl)).
  unfold start_solar, start_distribution. rewrite Hs, Hd. cbn [or_default].
  split; [exact Hi|]. repeat split; solve [assumption|reflexivity].
Qed.

Lemma configured_ok (GRID_NODES : list string) (s : SimState) :
  configured GRID_NODES s ->
  GRID_NODES <> [] \/ start_distribution GRID_NODES s = [].
Proof.
  intro Hc. destruct (configured_start _ _ Hc) as (_ & _ & _ & _ & Hlen).
  destruct GRID_NODES as [|r rest]; [right|left; discriminate].
  destruct (start_distribution [] s); [reflexivity|discriminate].
Qed.

Lemma initialized_logs (s : SimState) :
  initialized s -> logs s = Some (start_lines (logs s)).
Proof.
  unfold initialized, start_lines. intros (_ & _ & _ & _ & _ & _ & _ & _ & _ & _ & _ & _ & H).
  destruct (logs s); [reflexivity|congruence].
Qed.

Lemma credited_increments (n amount : Q) (nodes : list UniversalDistributionNode) :
  py_sum (increments nodes (credited n amount nodes))
  == inject_Z (Z.of_nat (List.length nodes)) * (amount / n).
Proof.
  induction nodes as [|node rest IH].
  - cbn. unfold py_sum. cbn [fold_left]. unfold Qeq. cbn. reflexivity.
  - unfold increments, credited in *. cbn [map combine fst snd energy_balance].
    rewrite py_sum_cons, IH.
    cbn [List.length]. rewrite Nat2Z.inj_succ, <- Z.add_1_r, inject_Z_plus.
    change (inject_Z 1) with 1. ring.
Qed.

Lemma credited_Forall2 (n amount : Q) (nodes : list UniversalDistributionNode) :
  Forall2 (fun node node' =>
             region_name node' = region_name node /\
             energy_balance node' - energy_balance node == amount / n)
          nodes (credited n amount nodes).
Proof.
  induction nodes as [|node rest IH]; cbn [credited map]; constructor.
  - cbn [region_name energy_balance]. split; [reflexivity|ring].
  - exact IH.
Qed.

Section TickClaims.

Variable GRID_NODES : list string.
Variable SIM_INTERVAL_SECONDS : Q.

(** C2. The step returns with the last 50 lines of the log as the body
    leaves it: what it keeps is a suffix of the old lines followed by the
    appended ones, in their order, of length at most 50, and of length
    50 as soon as more than 50 lines are present. *)
Theorem run_simulation_step_keeps_last_50 (s : SimState) (t : datetime) (iv : Q)
    (g : RNG) :
  GRID_NODES <> [] -> valid_rng g ->
  returns (run_simulation_step GRID_NODES SIM_INTERVAL_SECONDS s t iv) g
    (fun s' g' =>
       exists s_mid new dropped kept,
         run_simulation_body GRID_NODES SIM_INTERVAL_SECONDS s t iv g = Ok (s_mid, g') /\
         logs s_mid = Some (start_lines (logs s) ++ new) /\
         logs s' = Some kept /\
         start_lines (logs s) ++ new = dropped ++ kept /\
         (List.length kept <= 50)%nat /\
         List.length kept = Nat.min 50 (List.length (start_lines (logs s) ++ new)) /\
         ((50 < List.length (start_lines (logs s) ++ new))%nat ->
          List.length kept = 50%nat /\
          List.length dropped = (List.length (start_lines (logs s) ++ new) - 50)%nat)).
Proof.
  intros Hne Hg.
  eapply returns_weaken; [apply run_simulation_step_tick; [exact Hg|left; exact Hne]|].
  intros s' g' (outputs & s_mid & l_mid & Hrun & Ht & Hmid & ->).
  destruct (tick_logs _ _ _ _ _ _ _ _ Ht) as (hd & al & tl & Hlogs & _).
  rewrite Hlogs in Hmid. injection Hmid as <-.
  set (new := hd ++ al ++ tl) in *.
  set (all := start_lines (logs s) ++ new) in *.
  exists s_mid, new, (firstn (List.length all - 50) all), (slice_last 50 all).
  split; [exact Hrun|]. split; [exact Hlogs|]. split; [reflexivity|].
  split; [apply slice_last_suffix|].
  rewrite slice_last_length.
  split; [lia|]. split; [subst all new; reflexivity|].
  intro Hlong. rewrite length_firstn. subst all new. lia.
Qed.

(** C10. On a dictionary with one distribution node per region, R
    regions, the body of the step appends 4R + 4 lines when the threat
    level drawn for the monitor is at most 8500 and 4R + 5, one of them
    the alert that also goes to [anomalies], when it is above; the step
    then keeps the last 50 lines. *)
Theorem run_simulation_step_lines_per_tick (s : SimState) (t : datetime) (iv : Q)
    (g : RNG) :
  configured GRID_NODES s -> valid_rng g ->
  returns (run_simulation_body GRID_NODES SIM_INTERVAL_SECONDS s t iv) g
    (fun s_mid g' =>
       exists before new alerts,
         logs s = Some before /\ logs s_mid = Some (before ++ new) /\
         anomalies s_mid = Some (start_lines (anomalies s) ++ alerts) /\
         (threat_level_of GRID_NODES s g <= 8500 ->
          List.length new = (4 * List.length GRID_NODES + 4)%nat /\ alerts = []) /\
         (8500 < threat_level_of GRID_NODES s g ->
          List.length new = (4 * List.length GRID_NODES + 5)%nat /\
          List.length alerts = 1%nat /\
          exists earlier later, new = earlier ++ alerts ++ later) /\
         returns (truncate_logs s_mid) g'
           (fun s' _ => logs s' = Some (slice_last 50 (before ++ new)))).
Proof.
  intros Hc Hg.
  pose proof (configured_start _ _ Hc) as (Hi & _ & _ & _ & Hdl).
  eapply returns_weaken;
    [apply run_simulation_body_tick; [exact Hg|apply configured_ok; exact Hc]|].
  intros s_mid g' (outputs & Ht).
  destruct (tick_logs _ _ _ _ _ _ _ _ Ht)
    as (hd & alerts & tl & Hlogs & Han & Hhd & Hal & Htl).
  exists (start_lines (logs s)), (hd ++ alerts ++ tl), alerts.
  split; [apply initialized_logs; exact Hi|]. split; [exact Hlogs|].
  split; [exact Han|].
  rewrite Hdl in Hhd.
  assert (Hmon : monitor_grid_integrity mkASP (threat_level_of GRID_NODES s g)
                 = Qgtb (threat_level_of GRID_NODES s g) 8500).
  { unfold monitor_grid_integrity. destruct (Qgtb _ 8500); reflexivity. }
  rewrite Hmon in Hal. rewrite !length_app.
  split; [|split].
  - intro Hle. apply Qgtb_false in Hle. rewrite Hle in Hal.
    split; [lia|]. destruct alerts; [reflexivity|discriminate].
  - intro Hgt. apply Qgtb_true in Hgt. rewrite Hgt in Hal.
    split; [lia|]. split; [exact Hal|].
    exists hd, tl. reflexivity.
  - eapply returns_weaken; [apply truncate_logs_spec; exact Hlogs|].
    intros s' g1 [-> _]. reflexivity.
Qed.

End TickClaims.

(** ** Accumulators and panel health *)

Lemma initialized_accumulators (s : SimState) :
  initialized s ->
  exists nodes e x y n,
    solar_nodes s = Some nodes /\ energy s = Some e /\ gold s = Some x /\
    oil s = Some y /\ nuclear_signatures s = Some n.
Proof.
  unfold initialized. intros (H1 & _ & _ & H4 & H5 & H6 & H7 & _).
  destruct (solar_nodes s) as [nodes|]; [|congruence].
  destruct (energy s) as [e|]; [|congruence].
  destruct (gold s) as [x|]; [|congruence].
  destruct (oil s) as [y|]; [|congruence].
  destruct (nuclear_signatures s) as [n|]; [|congruence].
  exists nodes, e, x, y, n. repeat split; reflexivity.
Qed.

Lemma grows_refl (s : SimState) : initialized s -> grows s s.
Proof.
  intro Hi. destruct (initialized_accumulators s Hi) as (nodes & e & x & y & n & _ & He & Hx & Hy & Hn).
  unfold grows. rewrite He, Hx, Hy, Hn.
  split; [exists e, e|split; [exists x, x|split; [exists y, y|exists n, n]]];
    repeat split; try reflexivity; try lra; lia.
Qed.

Lemma grows_trans (s1 s2 s3 : SimState) : grows s1 s2 -> grows s2 s3 -> grows s1 s3.
Proof.
  intros ((e1 & e2 & He1 & He2 & Hle) & (x1 & x2 & Hx1 & Hx2 & Hlx) &
          (y1 & y2 & Hy1 & Hy2 & Hly) & (n1 & n2 & Hn1 & Hn2 & Hln))
         ((e2' & e3 & He2' & He3 & Hle') & (x2' & x3 & Hx2' & Hx3 & Hlx') &
          (y2' & y3 & Hy2' & Hy3 & Hly') & (n2' & n3 & Hn2' & Hn3 & Hln')).
  rewrite He2 in He2'. injection He2' as <-.
  rewrite Hx2 in Hx2'. injection Hx2' as <-.
  rewrite Hy2 in Hy2'. injection Hy2' as <-.
  rewrite Hn2 in Hn2'. injection Hn2' as <-.
  split; [exists e1, e3|split; [exists x1, x3|split; [exists y1, y3|exists n1, n3]]];
    repeat split; try assumption; try lra; lia.
Qed.

Lemma wears_refl (s : SimState) : initialized s -> healthy s -> wears s s.
Proof.
  intros Hi Hh. destruct (initialized_accumulators s Hi) as (nodes & _ & _ & _ & _ & Hs & _).
  exists nodes, nodes. split; [exact Hs|]. split; [exact Hs|].
  specialize (Hh nodes Hs). clear Hs. induction Hh as [|n rest Hn _ IH]; constructor.
  - split; [reflexivity|]. split; [lra|exact Hn].
  - exact IH.
Qed.

Lemma Forall2_wear_trans (l1 l2 l3 : list SolarNodeController) :
  Forall2 (fun n n' => node_name n' = node_name n /\
                       panel_health n' <= panel_health n /\ 80 <= panel_health n') l1 l2 ->
  Forall2 (fun n n' => node_name n' = node_name n /\
                       panel_health n' <= panel_health n /\ 80 <= panel_health n') l2 l3 ->
  Forall2 (fun n n' => node_name n' = node_name n /\
                       panel_health n' <= panel_health n /\ 80 <= panel_health n') l1 l3.
Proof.
  intro H. revert l3. induction H as [|a b l1 l2 (Hn & Hle & Hf) _ IH]; intros l3 H23.
  - inversion H23. constructor.
  - inversion H23 as [|b' c l2' l3' (Hn' & Hle' & Hf') Hrest]; subst.
    constructor.
    + split; [congruence|]. split; [lra|exact Hf'].
    + apply IH. exact Hrest.
Qed.

Lemma wears_trans (s1 s2 s3 : SimState) : wears s1 s2 -> wears s2 s3 -> wears s1 s3.
Proof.
  intros (l1 & l2 & H1 & H2 & H12) (l2' & l3 & H2' & H3 & H23).
  rewrite H2 in H2'. injection H2' as <-.
  exists l1, l3. split; [exact H1|]. split; [exact H3|].
  eapply Forall2_wear_trans; eassumption.
Qed.

Lemma wears_healthy (s s' : SimState) : wears s s' -> healthy s'.
Proof.
  intros (l & l' & _ & Hs' & H) nodes Hn.
  rewrite Hs' in Hn. injection Hn as <-. clear Hs'.
  induction H as [|a b l l' (_ & _ & Hf) _ IH]; constructor; assumption.
Qed.

Section Accumulators.

Variable GRID_NODES : list string.
Variable SIM_INTERVAL_SECONDS : Q.

Lemma tick_grows (s : SimState) (iv : Q) (g : RNG) (outputs : list Q)
    (s' : SimState) (g' : RNG) :
  initialized s -> 0 <= SIM_INTERVAL_SECONDS -> 0 <= iv -> valid_rng g ->
  tick GRID_NODES SIM_INTERVAL_SECONDS s iv g outputs s' g' -> grows s s'.
Proof.
  intros Hi Hsim Hiv Hg Ht.
  destruct (initialized_accumulators s Hi)
    as (nodes & e & x & y & n & _ & He & Hx & Hy & Hn).
  pose proof (tick_energy _ _ _ _ _ _ _ _ Ht) as He'.
  pose proof (tick_gold _ _ _ _ _ _ _ _ Ht) as Hx'.
  pose proof (tick_oil _ _ _ _ _ _ _ _ Ht) as Hy'.
  destruct (tick_nuclear _ _ _ _ _ _ _ _ Ht) as (count & Hcount & Hn').
  pose proof (py_sum_nonneg outputs (tick_outputs_nonneg _ _ _ _ _ _ _ _ Ht Hsim)) as Hsum.
  assert (Hm : 0 <= iv / 60) by (div_by_numeral; lra).
  pose proof (found_range 0.002 (iv / 60) g
                (threat_position GRID_NODES s g + 1) Hg ltac:(lra) Hm) as (Hgold & _).
  pose proof (found_range 0.003 (iv / 60) g
                (threat_position GRID_NODES s g + 2) Hg ltac:(lra) Hm) as (Hoil & _).
  unfold start_energy in He'. rewrite He, Hx, Hy, Hn in *. cbn [or_default] in *.
  unfold grows. rewrite He, Hx, Hy, Hn, He', Hx', Hy', Hn'.
  split; [eexists _, _; split; [reflexivity|split; [reflexivity|cbn [total_mwh]; lra]]|].
  split; [eexists _, _; split; [reflexivity|split; [reflexivity|lra]]|].
  split; [eexists _, _; split; [reflexivity|split; [reflexivity|lra]]|].
  eexists _, _; split; [reflexivity|split; [reflexivity|lia]].
Qed.

Lemma tick_wears (s : SimState) (iv : Q) (g : RNG) (outputs : list Q)
    (s' : SimState) (g' : RNG) :
  initialized s -> healthy s ->
  tick GRID_NODES SIM_INTERVAL_SECONDS s iv g outputs s' g' -> wears s s'.
Proof.
  intros Hi Hh Ht.
  destruct (initialized_accumulators s Hi) as (nodes & _ & _ & _ & _ & Hs & _).
  destruct (tick_generate _ _ _ _ _ _ _ _ Ht) as (solar' & _ & Hs' & Hall).
  unfold start_solar in Hall. rewrite Hs in Hall. cbn [or_default] in Hall.
  exists nodes, solar'. split; [exact Hs|]. split; [exact Hs'|].
  specialize (Hh nodes Hs). clear Hs Hs' Ht.
  induction Hall as [|a b l l' (Hn & Hf & Hle) _ IH]; constructor.
  - inversion Hh; subst. split; [exact Hn|]. split; [apply Hle; assumption|exact Hf].
  - apply IH. inversion Hh; assumption.
Qed.

Lemma run_simulation_step_grows (s : SimState) (t : datetime) (iv : Q) (g : RNG) :
  GRID_NODES <> [] -> 0 <= SIM_INTERVAL_SECONDS -> initialized s -> healthy s ->
  0 <= iv -> valid_rng g ->
  returns (run_simulation_step GRID_NODES SIM_INTERVAL_SECONDS s t iv) g
    (fun s' g' =>
       initialized s' /\ healthy s' /\ valid_rng g' /\ grows s s' /\ wears s s').
Proof.
  intros Hne Hsim Hi Hh Hiv Hg.
  eapply returns_weaken; [apply run_simulation_step_tick; [exact Hg|left; exact Hne]|].
  intros s' g' (outputs & s_mid & l_mid & _ & Ht & _ & ->).
  assert (Hw : wears s (set_logs s_mid (slice_last 50 l_mid))).
  { exact (tick_wears _ _ _ _ _ _ Hi Hh Ht). }
  split; [apply initialized_set_logs; eapply tick_initialized; exact Ht|].
  split; [eapply wears_healthy; exact Hw|].
  split; [eapply tick_valid_rng; eassumption|].
  split; [|exact Hw].
  exact (tick_grows _ _ _ _ _ _ Hi Hsim Hiv Hg Ht).
Qed.

(** C1. From a dictionary whose keys are present and whose panels are at
    80 or more, through any number of calls of the step with
    non-negative intervals, every call returns, the accumulators
    ([total_mwh], [gold], [oil], [nuclear_signatures]) end at least where
    they started, and every solar node ends with a [panel_health] at
    most its starting one and at least 80; the dictionary reached is
    again one with its keys present and its panels at 80 or more. *)
Theorem accumulators_grow_and_panels_wear (calls : list (datetime * Q)) (s : SimState)
    (g : RNG) :
  GRID_NODES <> [] -> 0 <= SIM_INTERVAL_SECONDS ->
  initialized s -> healthy s ->
  Forall (fun call => 0 <= snd call) calls -> valid_rng g ->
  returns (run_simulation_steps GRID_NODES SIM_INTERVAL_SECONDS calls s) g
    (fun s' _ => initialized s' /\ healthy s' /\ grows s s' /\ wears s s').
Proof.
  intros Hne Hsim Hi Hh Hcalls Hg.
  enough (H : returns (run_simulation_steps GRID_NODES SIM_INTERVAL_SECONDS calls s) g
                (fun s' g' => initialized s' /\ healthy s' /\ valid_rng g' /\
                              grows s s' /\ wears s s')).
  { eapply returns_weaken; [exact H|]. cbv beta. intros s' g' (H1 & H2 & _ & H3 & H4).
    split; [exact H1|split; [exact H2|split; [exact H3|exact H4]]]. }
  revert s g Hi Hh Hg.
  induction Hcalls as [|[t iv] rest Hiv _ IH]; intros s g Hi Hh Hg.
  - apply returns_ret.
    split; [exact Hi|]. split; [exact Hh|]. split; [exact Hg|].
    split; [apply grows_refl; exact Hi|apply wears_refl; assumption].
  - cbn [run_simulation_steps].
    eapply returns_bind; [apply run_simulation_step_grows; assumption|].
    intros s1 g1 (Hi1 & Hh1 & Hg1 & Hgr1 & Hw1).
    eapply returns_weaken; [apply IH; assumption|].
    cbv beta. intros s2 g2 (Hi2 & Hh2 & Hg2 & Hgr2 & Hw2).
    split; [exact Hi2|]. split; [exact Hh2|]. split; [exact Hg2|].
    split; [eapply grows_trans; eassumption|eapply wears_trans; eassumption].
Qed.

End Accumulators.

(** ** Distribution *)

Lemma py_len_share (A : Type) (l : list A) (amount : Q) :
  l <> [] -> py_len l * (amount / py_len l) == amount.
Proof.
  intro Hne. field. intro Hz.
  destruct l as [|a rest]; [congruence|].
  unfold py_len, Qeq in Hz. cbn [List.length Qnum Qden inject_Z] in Hz. lia.
Qed.

Section Distribution.

Variable GRID_NODES : list string.
Variable SIM_INTERVAL_SECONDS : Q.

(** C3. On a dictionary with one solar node and one distribution node
    per region, a step whose solar nodes generate [outputs] (tick energy
    their sum) leaves every distribution node with its region name and a
    balance higher by tick energy over the number of regions; the
    increments of all nodes add up to the tick energy. *)
Theorem run_simulation_step_distributes_evenly (s : SimState) (t : datetime) (iv : Q)
    (g : RNG) :
  configured GRID_NODES s -> valid_rng g ->
  returns (run_simulation_step GRID_NODES SIM_INTERVAL_SECONDS s t iv) g
    (fun s' _ =>
       exists solar outputs solar' g1 nodes nodes',
         solar_nodes s = Some solar /\
         generate_energy_all SIM_INTERVAL_SECONDS solar g = Ok ((outputs, solar'), g1) /\
         distribution_nodes s = Some nodes /\
         distribution_nodes s' = Some nodes' /\
         Forall2 (fun n n' =>
                    region_name n' = region_name n /\
                    energy_balance n' - energy_balance n
                    == py_sum outputs / py_len GRID_NODES)
                 nodes nodes' /\
         py_sum (increments nodes nodes') == py_sum outputs).
Proof.
  intros Hc Hg.
  pose proof (configured_start _ _ Hc) as (Hi & Hs & Hsl & Hd & Hdl).
  eapply returns_weaken;
    [apply run_simulation_step_tick; [exact Hg|apply configured_ok; exact Hc]|].
  intros s' g' (outputs & s_mid & l_mid & _ & Ht & _ & ->).
  destruct (tick_generate _ _ _ _ _ _ _ _ Ht) as (solar' & Hrun & _ & _).
  pose proof (tick_distribution _ _ _ _ _ _ _ _ Ht) as Hd'.
  pose proof (tick_outputs_length _ _ _ _ _ _ _ _ Ht) as Hol.
  eexists (start_solar GRID_NODES s), outputs, solar', _,
    (start_distribution GRID_NODES s), _.
  split; [exact Hs|]. split; [exact Hrun|]. split; [exact Hd|].
  split; [exact Hd'|]. split; [apply credited_Forall2|].
  rewrite credited_increments, Hdl.
  destruct GRID_NODES as [|r rest] eqn:E.
  - destruct outputs; [|cbn in Hol; rewrite Hsl in Hol; discriminate].
    reflexivity.
  - apply (py_len_share _ (r :: rest)). discriminate.
Qed.

End Distribution.

(** ** The driver loop *)

Lemma slice_last_app {A : Type} (n : nat) (l new : list A) :
  slice_last n (slice_last n l ++ new) = slice_last n (l ++ new).
Proof.
  destruct (Nat.le_gt_cases (List.length l) n) as [Hle|Hgt].
  - rewrite (slice_last_short n l Hle). reflexivity.
  - pose proof (slice_last_suffix n l) as Hsplit.
    pose proof (slice_last_length n l) as Hk.
    set (k := slice_last n l) in *.
    set (d := firstn (List.length l - n) l) in *.
    clearbody k d. subst l.
    rewrite length_app in Hk, Hgt.
    unfold slice_last. rewrite <- app_assoc, !length_app.
    replace (List.length d + (List.length k + List.length new) - n)%nat
      with (List.length d + (List.length k + List.length new - n))%nat by lia.
    rewrite (skipn_app (List.length d + _) d), (skipn_all2 d) by lia.
    rewrite app_nil_l. f_equal. lia.
Qed.

Section Driver.

Variable GRID_NODES : list string.
Variable SIM_INTERVAL_SECONDS : Q.

Lemma tick_configured (s : SimState) (iv : Q) (g : RNG) (outputs : list Q)
    (s' : SimState) (g' : RNG) :
  configured GRID_NODES s ->
  tick GRID_NODES SIM_INTERVAL_SECONDS s iv g outputs s' g' ->
  configured GRID_NODES s'.
Proof.
  intros Hc Ht.
  pose proof (configured_start _ _ Hc) as (Hi & Hs & Hsl & Hd & Hdl).
  destruct (tick_generate _ _ _ _ _ _ _ _ Ht) as (solar' & _ & Hs' & Hall).
  split; [eapply tick_initialized; exact Ht|]. split.
  - exists solar'. split; [exact Hs'|].
    rewrite <- (Forall2_length Hall). exact Hsl.
  - eexists. split; [exact (tick_distribution _ _ _ _ _ _ _ _ Ht)|].
    unfold credited. rewrite length_map. exact Hdl.
Qed.

Lemma configured_set_logs (s : SimState) (l : list string) :
  configured GRID_NODES s -> configured GRID_NODES (set_logs s l).
Proof.
  intros (Hi & Hs & Hd). split; [apply initialized_set_logs; exact Hi|].
  split; assumption.
Qed.

(** One turn of the loop: the step counter advances by one, the total
    energy grows (strictly, for a positive interval and a region), and
    the log is the last 50 lines of all lines so far. *)
Lemma simulation_loop_turn_spec (s : SimState) (g : RNG) (now : datetime) (c : Z)
    (e : Energy) (history : list string) :
  configured GRID_NODES s -> valid_rng g ->
  current_sim_time s = Some now -> sim_step_count s = Some c ->
  energy s = Some e -> logs s = Some (slice_last 50 history) ->
  returns (simulation_loop_turn GRID_NODES SIM_INTERVAL_SECONDS s) g
    (fun s' g' =>
       configured GRID_NODES s' /\ valid_rng g' /\
       current_sim_time s' = Some (now + SIM_INTERVAL_SECONDS) /\
       sim_step_count s' = Some (c + 1)%Z /\
       (exists e', energy s' = Some e' /\
                   (0 <= SIM_INTERVAL_SECONDS -> total_mwh e <= total_mwh e') /\
                   (0 < SIM_INTERVAL_SECONDS -> GRID_NODES <> [] ->
                    total_mwh e < total_mwh e')) /\
       exists new, logs s' = Some (slice_last 50 (history ++ new)) /\
                   (4 * List.length GRID_NODES + 4 <= List.length new)%nat /\
                   (List.length new <= 4 * List.length GRID_NODES + 5)%nat).
Proof.
  intros Hc Hg Hnow Hcount He Hlogs.
  unfold simulation_loop_turn. rewrite Hnow. apply returns_getitem.
  cbv zeta. cbn [sim_step_count set_current_sim_time]. rewrite Hcount.
  apply returns_getitem.
  set (s0 := set_sim_step_count (set_current_sim_time s (now + SIM_INTERVAL_SECONDS))
               (c + 1)%Z).
  assert (Hc0 : configured GRID_NODES s0).
  { destruct Hc as (Hi & Hs & Hd). split; [|split; assumption].
    unfold initialized in *. exact Hi. }
  pose proof (configured_start _ _ Hc0) as (Hi0 & Hs0 & Hsl0 & Hd0 & Hdl0).
  eapply returns_weaken;
    [apply run_simulation_step_tick; [exact Hg|apply configured_ok; exact Hc0]|].
  intros s' g' (outputs & s_mid & l_mid & _ & Ht & Hmid & ->).
  split; [apply configured_set_logs; eapply tick_configured; eassumption|].
  split; [eapply tick_valid_rng; eassumption|].
  split; [exact (tick_current_sim_time _ _ _ _ _ _ _ _ Ht)|].
  split; [exact (tick_sim_step_count _ _ _ _ _ _ _ _ Ht)|].
  split.
  - eexists. split; [exact (tick_energy _ _ _ _ _ _ _ _ Ht)|].
    assert (Hst : start_energy s0 = total_mwh e).
    { unfold start_energy, s0. cbn [energy set_sim_step_count set_current_sim_time].
      rewrite He. reflexivity. }
    rewrite Hst. cbn [total_mwh]. split.
    + intro Hsim.
      pose proof (py_sum_nonneg outputs (tick_outputs_nonneg _ _ _ _ _ _ _ _ Ht Hsim)). lra.
    + intros Hsim Hne.
      assert (Hout : outputs <> []).
      { pose proof (tick_outputs_length _ _ _ _ _ _ _ _ Ht) as Hol.
        rewrite Hsl0 in Hol. destruct outputs; [|discriminate].
        destruct GRID_NODES; [congruence|discriminate]. }
      pose proof (py_sum_pos outputs Hout (tick_outputs_pos _ _ _ _ _ _ _ _ Ht Hsim)). lra.
  - destruct (tick_logs _ _ _ _ _ _ _ _ Ht) as (hd & al & tl & Hl & _ & Hhd & Hal & Htl).
    rewrite Hl in Hmid. injection Hmid as <-.
    exists (hd ++ al ++ tl).
    split.
    { cbn [logs set_logs]. unfold start_lines. rewrite Hlogs. cbn [or_default].
      rewrite slice_last_app. reflexivity. }
    rewrite !length_app, Hhd, Htl, Hdl0.
    destruct (monitor_grid_integrity mkASP (threat_level_of GRID_NODES s0 g));
      rewrite Hal; lia.
Qed.

Lemma simulation_loop_spec (turns : nat) (s : SimState) (g : RNG) (now : datetime)
    (c : Z) (e : Energy) (history : list string) :
  configured GRID_NODES s -> valid_rng g ->
  current_sim_time s = Some now -> sim_step_count s = Some c ->
  energy s = Some e -> logs s = Some (slice_last 50 history) ->
  returns (simulation_loop GRID_NODES SIM_INTERVAL_SECONDS turns s) g
    (fun s' g' =>
       sim_step_count s' = Some (c + Z.of_nat turns)%Z /\
       (exists e', energy s' = Some e' /\
                   (0 <= SIM_INTERVAL_SECONDS -> total_mwh e <= total_mwh e') /\
                   (0 < SIM_INTERVAL_SECONDS -> GRID_NODES <> [] -> (0 < turns)%nat ->
                    total_mwh e < total_mwh e')) /\
       exists new, logs s' = Some (slice_last 50 (history ++ new)) /\
                   (turns * (4 * List.length GRID_NODES + 4) <= List.length new)%nat /\
                   (List.length new <= turns * (4 * List.length GRID_NODES + 5))%nat).
Proof.
  revert s g now c e history.
  induction turns as [|n IH]; intros s g now c e history Hc Hg Hnow Hcount He Hlogs.
  - cbn [simulation_loop]. apply returns_ret.
    split; [rewrite Hcount; f_equal; lia|].
    split.
    + exists e. split; [exact He|]. split; intros; [lra|lia].
    + exists []. rewrite app_nil_r. split; [exact Hlogs|]. cbn [List.length]. lia.
  - cbn [simulation_loop].
    eapply returns_bind; [eapply simulation_loop_turn_spec; eassumption|].
    intros s1 g1 (Hc1 & Hg1 & Hnow1 & Hcount1 & (e1 & He1 & Hle1 & Hlt1) &
                  (new1 & Hlogs1 & Hlo1 & Hhi1)).
    eapply returns_weaken; [eapply IH; eassumption|].
    cbv beta.
    intros s2 g2 (Hcount2 & (e2 & He2 & Hle2 & Hlt2) & (new2 & Hlogs2 & Hlo2 & Hhi2)).
    split; [rewrite Hcount2; f_equal; lia|].
    split.
    + exists e2. split; [exact He2|]. split.
      * intro Hsim. specialize (Hle1 Hsim). specialize (Hle2 Hsim). lra.
      * intros Hsim Hne _.
        specialize (Hlt1 Hsim Hne). specialize (Hle2 (Qlt_le_weak _ _ Hsim)). lra.
    + exists (new1 ++ new2). rewrite app_assoc. split; [exact Hlogs2|].
      rewrite length_app. lia.
Qed.

End Driver.

(** C5. From the session state the driver builds for the three regions
    of the repository, with the interval of one second, ten turns of the
    loop return, for every generator within its range: the step counter
    is 10, the total energy is positive, and the log holds the last 50
    of the lines appended, between 16 and 17 per turn: 50 lines. *)
Theorem ten_turns_from_fresh_state (now : datetime) (g : RNG) :
  valid_rng g ->
  returns (simulation_loop repo_GRID_NODES repo_SIM_INTERVAL_SECONDS 10
             (fresh_sim_results repo_GRID_NODES now)) g
    (fun s _ =>
       sim_step_count s = Some 10%Z /\
       (exists e, energy s = Some e /\ 0 < total_mwh e) /\
       exists appended l,
         logs s = Some l /\ l = slice_last 50 appended /\
         (10 * 16 <= List.length appended <= 10 * 17)%nat /\
         List.length l = Nat.min (List.length appended) 50 /\
         List.length l = 50%nat).
Proof.
  intro Hg.
  assert (Hc : configured repo_GRID_NODES (fresh_sim_results repo_GRID_NODES now)).
  { split; [unfold initialized; cbn; repeat split; discriminate|].
    split; eexists; (split; [reflexivity|reflexivity]). }
  eapply returns_weaken.
  - eapply (simulation_loop_spec repo_GRID_NODES repo_SIM_INTERVAL_SECONDS 10
              (fresh_sim_results repo_GRID_NODES now) g now 0%Z (mkEnergy 0) []);
      [exact Hc|exact Hg|reflexivity..].
  - cbv beta.
    intros s g' (Hcount & (e & He & _ & Hlt) & (new & Hlogs & Hlo & Hhi)).
    split; [exact Hcount|]. split.
    + exists e. split; [exact He|].
      assert (H : total_mwh (mkEnergy 0) < total_mwh e).
      { apply Hlt; [reflexivity|discriminate|lia]. }
      exact H.
    + cbn [app] in Hlogs. cbn [repo_GRID_NODES List.length] in Hlo, Hhi.
      exists new, (slice_last 50 new).
      split; [exact Hlogs|]. split; [reflexivity|].
      rewrite slice_last_length. lia.
Qed.

Lemma ten_turns_from_fresh_state_witness :
  returns (simulation_loop repo_GRID_NODES repo_SIM_INTERVAL_SECONDS 10
             (fresh_sim_results repo_GRID_NODES 0)) (constant_rng 0.5)
    (fun s _ => sim_step_count s = Some 10%Z).
Proof.
  eapply returns_weaken.
  - apply (ten_turns_from_fresh_state 0 (constant_rng 0.5)).
    apply valid_constant_rng; lra.
  - intros s g' [H _]. exact H.
Defined.

(** ** The claims at the configuration of the repository *)

Lemma fresh_sim_results_configured (GRID_NODES : list string) (now : datetime) :
  configured GRID_NODES (fresh_sim_results GRID_NODES now).
Proof.
  split; [unfold initialized; cbn; repeat split; discriminate|].
  split; eexists; (split; [reflexivity|apply length_map]).
Qed.

Lemma fresh_sim_results_healthy (GRID_NODES : list string) (now : datetime) :
  healthy (fresh_sim_results GRID_NODES now).
Proof.
  intros nodes H. cbn in H. injection H as <-.
  induction GRID_NODES as [|r rest IH]; cbn [map]; constructor.
  - cbn. lra.
  - exact IH.
Qed.

Lemma accumulators_grow_and_panels_wear_witness :
  returns (run_simulation_steps repo_GRID_NODES repo_SIM_INTERVAL_SECONDS
             [(0, 1); (1, 1)] (fresh_sim_results repo_GRID_NODES 0))
    (constant_rng 0.5)
    (fun s' _ =>
       grows (fresh_sim_results repo_GRID_NODES 0) s' /\
       wears (fresh_sim_results repo_GRID_NODES 0) s').
Proof.
  eapply returns_weaken.
  - apply (accumulators_grow_and_panels_wear repo_GRID_NODES repo_SIM_INTERVAL_SECONDS
             [(0, 1); (1, 1)] (fresh_sim_results repo_GRID_NODES 0) (constant_rng 0.5)).
    + discriminate.
    + unfold repo_SIM_INTERVAL_SECONDS. lra.
    + apply fresh_sim_results_configured.
    + apply fresh_sim_results_healthy.
    + repeat constructor; cbn [snd]; lra.
    + apply valid_constant_rng; lra.
  - intros s' g' (_ & _ & Hg & Hw). split; assumption.
Defined.

Lemma run_simulation_step_keeps_last_50_witness :
  returns (run_simulation_step repo_GRID_NODES repo_SIM_INTERVAL_SECONDS
             empty_state 0 1) (constant_rng 0.5)
    (fun s' _ => exists kept, logs s' = Some kept /\ (List.length kept <= 50)%nat).
Proof.
  eapply returns_weaken.
  - apply (run_simulation_step_keeps_last_50 repo_GRID_NODES repo_SIM_INTERVAL_SECONDS
             empty_state 0 1 (constant_rng 0.5)).
    + discriminate.
    + apply valid_constant_rng; lra.
  - intros s' g' (s_mid & new & dropped & kept & _ & _ & Hk & _ & Hlen & _).
    exists kept. split; assumption.
Defined.

Lemma run_simulation_step_lines_per_tick_witness :
  returns (run_simulation_body repo_GRID_NODES repo_SIM_INTERVAL_SECONDS
             (fresh_sim_results repo_GRID_NODES 0) 0 1) (constant_rng 0.5)
    (fun s_mid _ => exists new, logs s_mid = Some new /\ List.length new = 16%nat).
Proof.
  eapply returns_weaken.
  - apply (run_simulation_step_lines_per_tick repo_GRID_NODES repo_SIM_INTERVAL_SECONDS
             (fresh_sim_results repo_GRID_NODES 0) 0 1 (constant_rng 0.5)).
    + apply fresh_sim_results_configured.
    + apply valid_constant_rng; lra.
  - intros s_mid g' (before & new & alerts & Hb & Hl & _ & Hquiet & _).
    cbn in Hb. injection Hb as <-.
    exists new. split; [exact Hl|].
    apply Hquiet. vm_compute. discriminate.
Defined.

Lemma run_simulation_step_distributes_evenly_witness :
  returns (run_simulation_step repo_GRID_NODES repo_SIM_INTERVAL_SECONDS
             (fresh_sim_results repo_GRID_NODES 0) 0 1) (constant_rng 0.5)
    (fun s' _ =>
       exists outputs nodes',
         distribution_nodes s' = Some nodes' /\
         py_sum (increments (map new_UniversalDistributionNode repo_GRID_NODES) nodes')
         == py_sum outputs).
Proof.
  eapply returns_weaken.
  - apply (run_simulation_step_distributes_evenly repo_GRID_NODES
             repo_SIM_INTERVAL_SECONDS (fresh_sim_results repo_GRID_NODES 0) 0 1
             (constant_rng 0.5)).
    + apply fresh_sim_results_configured.
    + apply valid_constant_rng; lra.
  - intros s' g' (solar & outputs & solar' & g1 & nodes & nodes' &
                  _ & _ & Hd & Hd' & _ & Hsum).
    cbn in Hd. injection Hd as <-.
    exists outputs, nodes'. split; [exact Hd'|exact Hsum].
Defined.

(** * Further properties of the code *)

(** ** Event generators *)

Lemma random_randint_range (a b : Z) (g : RNG) :
  valid_rng g -> (a <= b)%Z ->
  returns (random_randint a b) g (fun n g' => (a <= n <= b)%Z /\ g' = skip 1 g).
Proof.
  intros Hg Hab. unfold random_randint.
  eapply returns_bind; [apply random_random_spec|].
  intros r g1 [-> ->]. apply returns_ret. split; [|reflexivity].
  destruct (Hg (pos g)) as [H0 H1].
  assert (Hw : 1 <= inject_Z (b - a + 1)).
  { change 1 with (inject_Z 1). rewrite <- Zle_Qle. lia. }
  assert (Hhi : (Qfloor (draws g (pos g) * inject_Z (b - a + 1)) < b - a + 1)%Z).
  { rewrite Zlt_Qlt. eapply Qle_lt_trans; [apply Qfloor_le|].
    remember (inject_Z (b - a + 1)) as w eqn:Ew. clear Ew.
    rewrite <- (Qmult_1_l w) at 2. apply Qmult_lt_compat_r; lra. }
  assert (Hlo : (0 <= Qfloor (draws g (pos g) * inject_Z (b - a + 1)))%Z).
  { rewrite <- (Qfloor_Z 0). apply Qfloor_resp_le. change (inject_Z 0) with 0.
    remember (inject_Z (b - a + 1)) as w eqn:Ew. clear Ew Hhi.
    apply Qmult_le_0_compat; lra. }
  lia.
Qed.

Lemma simulate_supply_chain_text (region : string) (g : RNG) :
  valid_rng g ->
  returns (simulate_supply_chain region) g
    (fun text g' => supply_chain_text region text /\ g' = skip 2 g).
Proof.
  intro Hg. unfold simulate_supply_chain.
  eapply returns_bind; [apply random_randint_range; [exact Hg|lia]|].
  intros water g1 [Hw ->].
  eapply returns_bind;
    [apply random_choice_spec; [apply valid_rng_skip; exact Hg|discriminate]|].
  intros meds g1 [Hm ->]. apply returns_ret.
  split; [|apply skip_skip]. exists water, meds.
  split; [exact Hw|]. split; [exact Hm|reflexivity].
Qed.

Lemma simulate_orbital_scan_text (region : string) (g : RNG) :
  valid_rng g ->
  returns (simulate_orbital_scan region) g
    (fun text g' => orbital_text region text /\ g' = skip 1 g).
Proof.
  intro Hg. unfold simulate_orbital_scan.
  eapply returns_bind; [apply random_choice_spec; [exact Hg|discriminate]|].
  intros findings g1 [Hf ->]. apply returns_ret.
  split; [|reflexivity]. exists findings. split; [exact Hf|reflexivity].
Qed.

Lemma rep_score_hundredths (u : Q) :
  0.5 <= u -> u <= 1 ->
  (50 <= round_half_even (u * inject_Z (Zpos (pow10 2))) <= 100)%Z.
Proof.
  intros Hlo Hhi. change (inject_Z (Zpos (pow10 2))) with 100.
  split.
  - pose proof (round_half_even_mono (inject_Z 50) (u * 100)) as H.
    rewrite round_half_even_Z in H. apply H. change (inject_Z 50) with 50. lra.
  - pose proof (round_half_even_mono (u * 100) (inject_Z 100)) as H.
    rewrite round_half_even_Z in H. apply H. change (inject_Z 100) with 100. lra.
Qed.

Lemma register_sovereign_id_text (region : string) (g : RNG) :
  valid_rng g ->
  returns (register_sovereign_id region) g
    (fun text g' => sovereign_id_text region text /\ g' = skip 2 g).
Proof.
  intro Hg. unfold register_sovereign_id.
  eapply returns_bind; [apply random_randint_range; [exact Hg|lia]|].
  intros n g1 [Hn ->].
  eapply returns_bind; [apply random_uniform_spec|]. intros u g1 [-> ->].
  apply returns_ret. split; [|apply skip_skip].
  pose proof (uniform_at_range (skip 1 g) (pos (skip 1 g)) 0.5 1.0
                (valid_rng_skip 1 g Hg) ltac:(lra)) as [Hlo Hhi].
  exists n, (round_half_even
               (uniform_at (skip 1 g) (pos (skip 1 g)) 0.5 1.0 * inject_Z (Zpos (pow10 2)))).
  split; [exact Hn|]. split; [|reflexivity].
  apply rep_score_hundredths; lra.
Qed.

(** X1. For a generator within its range, [simulate_supply_chain] returns
    "[SUPPLY_CHAIN] Delivered <w>L water + <m> to <region>" with w an
    integer from 10000 to 20000 and m one of the three medicines, and it
    draws two random numbers. *)
Theorem simulate_supply_chain_delivers (region : string) (g : RNG) :
  valid_rng g ->
  returns (simulate_supply_chain region) g
    (fun text g' =>
       (exists (water_units : Z) (meds : string),
           (10000 <= water_units <= 20000)%Z /\
           In meds ["antivirals"; "antibiotics"; "vaccines"]%string /\
           text = fstring ["[SUPPLY_CHAIN] Delivered "; str_Z water_units;
                           "L water + "; meds; " to "; region]%string) /\
       g' = skip 2 g).
Proof. intro Hg. exact (simulate_supply_chain_text region g Hg). Qed.

Lemma simulate_supply_chain_delivers_witness :
  returns (simulate_supply_chain "RegionAlpha") (constant_rng 0.5)
    (fun text _ =>
       text = "[SUPPLY_CHAIN] Delivered 15000L water + antibiotics to RegionAlpha"%string).
Proof.
  destruct (simulate_supply_chain_delivers "RegionAlpha" (constant_rng 0.5))
    as (text & g' & Hrun & _).
  - apply valid_constant_rng; lra.
  - exists text, g'. split; [exact Hrun|].
    vm_compute in Hrun. injection Hrun as <- _. reflexivity.
Defined.

(** X2. For a generator within its range, [simulate_orbital_scan] returns
    "[ORBITAL SCAN] Satellite scan of <region>: <f>" with f one of the
    four findings, and it draws one random number. *)
Theorem simulate_orbital_scan_finds (region : string) (g : RNG) :
  valid_rng g ->
  returns (simulate_orbital_scan region) g
    (fun text g' =>
       (exists findings : string,
           In findings ["Gold Vein Located"; "Tectonic Stress Point Detected";
                        "Uranium Trace Signature"; "No Anomaly"]%string /\
           text = fstring ["[ORBITAL SCAN] Satellite scan of "; region; ": ";
                           findings]%string) /\
       g' = skip 1 g).
Proof. intro Hg. exact (simulate_orbital_scan_text region g Hg). Qed.

Lemma simulate_orbital_scan_finds_witness :
  returns (simulate_orbital_scan "RegionBeta") (constant_rng 0.5)
    (fun text _ =>
       text = "[ORBITAL SCAN] Satellite scan of RegionBeta: Uranium Trace Signature"%string).
Proof.
  destruct (simulate_orbital_scan_finds "RegionBeta" (constant_rng 0.5))
    as (text & g' & Hrun & _).
  - apply valid_constant_rng; lra.
  - exists text, g'. split; [exact Hrun|].
    vm_compute in Hrun. injection Hrun as <- _. reflexivity.
Defined.

(** X3. For a generator within its range and a region name that is
    ASCII, [register_sovereign_id] returns
    "[SOVEREIGN ID] SEED_<n>_<RR> active in <region> (rep: <r>)" with n
    an integer from 1000 to 9999, RR the first two characters of the
    region in upper case and r a number of hundredths from 0.5 to 1.0,
    and it calls the generator twice. *)
Theorem register_sovereign_id_registers (region : string) (g : RNG) :
  str_isascii region = true -> valid_rng g ->
  returns (register_sovereign_id region) g
    (fun text g' =>
       (exists (n hundredths : Z),
           (1000 <= n <= 9999)%Z /\ (50 <= hundredths <= 100)%Z /\
           text = fstring ["[SOVEREIGN ID] ";
                           fstring ["SEED_"; str_Z n; "_";
                                    str_upper (substring 0 2 region)];
                           " active in "; region; " (rep: ";
                           str_float_2dp (hundredths # 100); ")"]%string) /\
       g' = skip 2 g).
Proof. intros _ Hg. exact (register_sovereign_id_text region g Hg). Qed.

Lemma register_sovereign_id_registers_witness :
  str_isascii "RegionGamma" = true /\
  returns (register_sovereign_id "RegionGamma") (constant_rng 0.5)
    (fun text _ =>
       text = "[SOVEREIGN ID] SEED_5500_RE active in RegionGamma (rep: 0.75)"%string).
Proof.
  split; [reflexivity|].
  destruct (register_sovereign_id_registers "RegionGamma" (constant_rng 0.5))
    as (text & g' & Hrun & _).
  - reflexivity.
  - apply valid_constant_rng; lra.
  - exists text, g'. split; [exact Hrun|].
    vm_compute in Hrun. injection Hrun as <- _. reflexivity.
Defined.

(** ** Sensors and output of a solar node *)

Lemma py_max_right (a b : Q) : a < b -> py_max a b = b.
Proof.
  intro H. destruct (py_max_cases a b) as [[_ E]|[Hle _]]; [exact E|lra].
Qed.

Lemma py_max_left (a b : Q) : b <= a -> py_max a b = a.
Proof.
  intro H. destruct (py_max_cases a b) as [[Hlt _]|[_ E]]; [lra|exact E].
Qed.

Lemma generate_energy_bounds (SIM_INTERVAL_SECONDS : Q)
    (self : SolarNodeController) (g : RNG) :
  valid_rng g ->
  returns (generate_energy SIM_INTERVAL_SECONDS self) g
    (fun r g' =>
       let out := fst r in
       let self' := snd r in
       (800 <= irradiance self' /\ irradiance self' <= 1200) /\
       (15 <= temperature self' /\ temperature self' <= 45) /\
       (80 <= panel_health self' /\ panel_health self - 0.01 <= panel_health self' /\
        (80 <= panel_health self -> panel_health self' <= panel_health self) /\
        (panel_health self <= 80 -> panel_health self' = 80)) /\
       (py_max 0.75 (1 - (temperature self' - 25) * 0.01)
        = 1 - (temperature self' - 25) * 0.01 /\
        0.8 <= 1 - (temperature self' - 25) * 0.01 /\
        1 - (temperature self' - 25) * 0.01 <= 1.1) /\
       (0 <= SIM_INTERVAL_SECONDS -> panel_health self <= 100 ->
        0.1536 * (SIM_INTERVAL_SECONDS / 3600) <= out /\
        out <= 0.396 * (SIM_INTERVAL_SECONDS / 3600))).
Proof.
  intro Hg.
  eapply returns_weaken; [apply generate_energy_spec|].
  intros [out self'] g1. cbn [fst snd].
  intros (Hirr & Htemp & Hh & _ & _ & Hout & _).
  pose proof (uniform_at_range g (pos g) 800 1200 Hg ltac:(lra)) as [Hi0 Hi1].
  pose proof (uniform_at_range g (pos g + 1) 15 45 Hg ltac:(lra)) as [Ht0 Ht1].
  pose proof (uniform_at_range g (pos g + 2) 0 0.01 Hg ltac:(lra)) as [Hw0 Hw1].
  rewrite <- Hirr in Hi0, Hi1. rewrite <- Htemp in Ht0, Ht1.
  set (w := uniform_at g (pos g + 2) 0 0.01) in *. clearbody w.
  assert (Hf : 80 <= panel_health self') by (rewrite Hh; apply py_max_lower).
  assert (Hwear : panel_health self - 0.01 <= panel_health self').
  { rewrite Hh. destruct (py_max_cases 80 (panel_health self - w)) as [[H ->]|[H ->]]; lra. }
  assert (Hdown : 80 <= panel_health self -> panel_health self' <= panel_health self).
  { intro H. rewrite Hh. apply py_max_upper; lra. }
  assert (Hlift : panel_health self <= 80 -> panel_health self' = 80).
  { intro H. rewrite Hh. apply py_max_left. lra. }
  assert (Htf : py_max 0.75 (1 - (temperature self' - 25) * 0.01)
                = 1 - (temperature self' - 25) * 0.01).
  { apply py_max_right. lra. }
  split; [split; assumption|]. split; [split; assumption|].
  split; [repeat split; assumption|].
  split; [split; [exact Htf|split; lra]|].
  intros Hs H100. rewrite Htf in Hout.
  assert (Hh1 : panel_health self' <= 100).
  { destruct (Qlt_le_dec (panel_health self) 80) as [Hlt|Hge].
    - rewrite (Hlift (Qlt_le_weak _ _ Hlt)). lra.
    - specialize (Hdown Hge). lra. }
  div_by_numeral.
  set (a := irradiance self' * (1 # 1000) * 0.3) in *.
  set (b := panel_health self' * (1 # 100)) in *.
  set (c := 1 - (temperature self' - 25) * 0.01) in *.
  set (k := SIM_INTERVAL_SECONDS * (1 # 3600)) in *.
  assert (Ha : 0.24 <= a /\ a <= 0.36) by (unfold a; split; lra).
  assert (Hb : 0.8 <= b /\ b <= 1) by (unfold b; split; lra).
  assert (Hc : 0.8 <= c /\ c <= 1.1) by (unfold c; split; lra).
  assert (Hk : 0 <= k) by (unfold k; lra).
  clearbody a b c k.
  assert (Hab : 0.192 <= a * b /\ a * b <= 0.36) by (split; nra).
  assert (Habc : 0.1536 <= a * b * c /\ a * b * c <= 0.396) by (split; nra).
  rewrite Hout. split; nra.
Qed.

(** X4. For a generator within its range, [generate_energy] leaves the
    node with an irradiance in [800, 1200], a temperature in [15, 45]
    and a health that is at least 80 and at least the old one minus
    0.01; a health of at least 80 does not rise, and one at or below 80
    becomes 80. *)
Theorem generate_energy_sensor_ranges (SIM_INTERVAL_SECONDS : Q)
    (self : SolarNodeController) (g : RNG) :
  valid_rng g ->
  returns (generate_energy SIM_INTERVAL_SECONDS self) g
    (fun r _ =>
       let self' := snd r in
       (800 <= irradiance self' /\ irradiance self' <= 1200) /\
       (15 <= temperature self' /\ temperature self' <= 45) /\
       80 <= panel_health self' /\
       panel_health self - 0.01 <= panel_health self' /\
       (80 <= panel_health self -> panel_health self' <= panel_health self) /\
       (panel_health self <= 80 -> panel_health self' = 80)).
Proof.
  intro Hg.
  eapply returns_weaken; [apply generate_energy_bounds; exact Hg|].
  intros r g1. cbv zeta. intros (Hi & Ht & (H1 & H2 & H3 & H4) & _).
  repeat split; solve [apply Hi|apply Ht|assumption].
Qed.

Lemma generate_energy_sensor_ranges_witness :
  returns (generate_energy 1 (new_SolarNodeController "RegionAlpha")) (constant_rng 0.5)
    (fun r _ => 80 <= panel_health (snd r) /\ panel_health (snd r) <= 100).
Proof.
  eapply returns_weaken.
  - apply (generate_energy_sensor_ranges 1 (new_SolarNodeController "RegionAlpha")
             (constant_rng 0.5)).
    apply valid_constant_rng; lra.
  - intros r g1. cbv zeta. intros (_ & _ & Hf & _ & Hdown & _).
    split; [exact Hf|]. apply Hdown. cbn. lra.
Defined.

(** X5. The floor 0.75 of the temperature factor is never in force: for
    the temperatures [read_sensors] can draw, the factor
    max(0.75, 1 - (temperature - 25) x 0.01) is 1 - (temperature - 25) x
    0.01, a number from 0.8 to 1.1, and the output is the product with
    that number. *)
Theorem generate_energy_temperature_floor_idle (SIM_INTERVAL_SECONDS : Q)
    (self : SolarNodeController) (g : RNG) :
  valid_rng g ->
  returns (generate_energy SIM_INTERVAL_SECONDS self) g
    (fun r _ =>
       let out := fst r in
       let self' := snd r in
       py_max 0.75 (1 - (temperature self' - 25) * 0.01)
       = 1 - (temperature self' - 25) * 0.01 /\
       0.8 <= 1 - (temperature self' - 25) * 0.01 /\
       1 - (temperature self' - 25) * 0.01 <= 1.1 /\
       out == (irradiance self' / 1000 * 0.3) * (panel_health self' / 100)
              * (1 - (temperature self' - 25) * 0.01)
              * (SIM_INTERVAL_SECONDS / 3600)).
Proof.
  intro Hg.
  eapply returns_weaken;
    [apply returns_run, generate_energy_bounds; exact Hg|].
  intros [out self'] g1. cbn [fst snd].
  intros (Hrun & _ & _ & _ & (Htf & Hlo & Hhi) & _).
  split; [exact Htf|]. split; [exact Hlo|]. split; [exact Hhi|].
  destruct (generate_energy_spec SIM_INTERVAL_SECONDS self g)
    as ([out2 self2] & g2 & Hrun2 & Hspec).
  rewrite Hrun in Hrun2. injection Hrun2 as <- <- <-.
  cbn [fst snd] in Hspec. destruct Hspec as (_ & _ & _ & _ & _ & Hout & _).
  rewrite Htf in Hout. exact Hout.
Qed.

Lemma generate_energy_temperature_floor_idle_witness :
  returns (generate_energy 1 (new_SolarNodeController "RegionAlpha")) (constant_rng 0.5)
    (fun r _ => 0.8 <= 1 - (temperature (snd r) - 25) * 0.01).
Proof.
  eapply returns_weaken.
  - apply (generate_energy_temperature_floor_idle 1
             (new_SolarNodeController "RegionAlpha") (constant_rng 0.5)).
    apply valid_constant_rng; lra.
  - intros r g1. cbv zeta. intros (_ & H & _). exact H.
Defined.

(** X6. For a generator within its range, a non-negative interval and a
    node whose health is at most 100, the output of [generate_energy] is
    between 0.1536 and 0.396 times interval/3600 (MWh): between
    0.24 x 0.8 x 0.8 and 0.36 x 1 x 1.1 MW for the interval. *)
Theorem generate_energy_output_range (SIM_INTERVAL_SECONDS : Q)
    (self : SolarNodeController) (g : RNG) :
  valid_rng g -> 0 <= SIM_INTERVAL_SECONDS -> panel_health self <= 100 ->
  returns (generate_energy SIM_INTERVAL_SECONDS self) g
    (fun r _ =>
       0.1536 * (SIM_INTERVAL_SECONDS / 3600) <= fst r /\
       fst r <= 0.396 * (SIM_INTERVAL_SECONDS / 3600)).
Proof.
  intros Hg Hs Hh.
  eapply returns_weaken; [apply generate_energy_bounds; exact Hg|].
  intros r g1. cbv zeta. intros (_ & _ & _ & _ & Hout). apply Hout; assumption.
Qed.

Lemma generate_energy_output_range_witness :
  returns (generate_energy 1 (new_SolarNodeController "RegionAlpha")) (constant_rng 0.5)
    (fun r _ => 0.1536 * (1 / 3600) <= fst r /\ fst r <= 0.396 * (1 / 3600)).
Proof.
  apply (generate_energy_output_range 1 (new_SolarNodeController "RegionAlpha")
           (constant_rng 0.5)).
  - apply valid_constant_rng; lra.
  - lra.
  - cbn. lra.
Defined.

(** ** Runs of several calls *)

Lemma returns_inv {A : Type} (m : M A) (g : RNG) (P : A -> RNG -> Prop) (a : A)
    (g' : RNG) :
  m g = Ok (a, g') -> returns m g P -> P a g'.
Proof.
  intros Hm (a2 & g2 & Hm2 & HP). rewrite Hm in Hm2. injection Hm2 as <- <-. exact HP.
Qed.

Lemma returns_and_spec {A : Type} (m : M A) (g : RNG) (P R : A -> RNG -> Prop) :
  returns m g P -> returns m g R -> returns m g (fun a g1 => P a g1 /\ R a g1).
Proof.
  intros (a & g1 & Hm & HP) HR. exists a, g1. split; [exact Hm|].
  split; [exact HP|exact (returns_inv m g R a g1 Hm HR)].
Qed.

Lemma Qnat_succ (k : nat) :
  inject_Z (Z.of_nat (S k)) == inject_Z (Z.of_nat k) + 1.
Proof. rewrite Nat2Z.inj_succ, <- Z.add_1_r, inject_Z_plus. reflexivity. Qed.

Lemma Qnat_nonneg (k : nat) : 0 <= inject_Z (Z.of_nat k).
Proof. change 0 with (inject_Z 0). rewrite <- Zle_Qle. lia. Qed.

Lemma py_sum_bounds (l : list Q) (lo hi : Q) :
  Forall (fun o => lo <= o /\ o <= hi) l ->
  py_len l * lo <= py_sum l /\ py_sum l <= py_len l * hi.
Proof.
  induction 1 as [|x l [Hlo Hhi] _ [IHlo IHhi]].
  - unfold py_len, py_sum. cbn [List.length fold_left Z.of_nat].
    change (inject_Z 0) with 0. split; lra.
  - rewrite py_sum_cons. unfold py_len in *. cbn [List.length].
    pose proof (Qnat_succ (List.length l)) as Hs.
    set (n := inject_Z (Z.of_nat (List.length l))) in *.
    set (n1 := inject_Z (Z.of_nat (S (List.length l)))) in *.
    clearbody n n1. rewrite Hs. split; lra.
Qed.

Section Runs.

Variable GRID_NODES : list string.
Variable SIM_INTERVAL_SECONDS : Q.

Lemma generate_energy_all_bounds (nodes : list SolarNodeController) (g : RNG) :
  valid_rng g ->
  returns (generate_energy_all SIM_INTERVAL_SECONDS nodes) g
    (fun r _ =>
       Forall2 (fun n n' =>
                  node_name n' = node_name n /\
                  panel_health n - 0.01 <= panel_health n' /\
                  (panel_health n <= 100 -> panel_health n' <= 100))
               nodes (snd r) /\
       (0 <= SIM_INTERVAL_SECONDS ->
        Forall (fun n => panel_health n <= 100) nodes ->
        Forall (fun o => 0.1536 * (SIM_INTERVAL_SECONDS / 3600) <= o /\
                         o <= 0.396 * (SIM_INTERVAL_SECONDS / 3600)) (fst r))).
Proof.
  revert g. induction nodes as [|node rest IH]; intros g Hg.
  - cbn [generate_energy_all]. apply returns_ret. cbn [fst snd].
    split; [constructor|]. intros _ _. constructor.
  - cbn [generate_energy_all].
    eapply returns_bind.
    { apply returns_and_spec.
      - apply generate_energy_bounds. exact Hg.
      - apply generate_energy_spec. }
    intros [out node'] g1. cbn [fst snd].
    intros [(_ & _ & (Hf & Hwear & Hdown & Hlift) & _ & Hout)
            (_ & _ & _ & Hname & _ & _ & ->)].
    eapply returns_bind; [apply IH; apply valid_rng_skip; exact Hg|].
    intros [outs rest'] g2. cbn [fst snd]. intros [Hall Houts].
    apply returns_ret. cbn [fst snd]. split.
    + constructor; [|exact Hall].
      split; [exact Hname|]. split; [exact Hwear|].
      intro H100. destruct (Qlt_le_dec (panel_health node) 80) as [Hlt|Hge].
      * rewrite (Hlift (Qlt_le_weak _ _ Hlt)). lra.
      * specialize (Hdown Hge). lra.
    + intros Hs H100. inversion H100 as [|n l Hn Hl]; subst.
      constructor; [apply Hout; assumption|apply Houts; assumption].
Qed.

End Runs.

Lemma initialized_shape (s : SimState) :
  initialized s ->
  exists sn dn a e go oi nu an su orb idl bcp lg,
    s = mkState (Some sn) (Some dn) (Some a) (Some e) (Some go) (Some oi) (Some nu)
          (Some an) (Some su) (Some orb) (Some idl) (Some bcp) (Some lg)
          (current_sim_time s) (sim_step_count s).
Proof.
  destruct s as [sn dn a e go oi nu an su orb idl bcp lg ct sc].
  unfold initialized.
  cbn [solar_nodes distribution_nodes asp energy gold oil nuclear_signatures
       anomalies supply_chain orbital ids bcp_transactions logs current_sim_time
       sim_step_count].
  intros (H1 & H2 & H3 & H4 & H5 & H6 & H7 & H8 & H9 & H10 & H11 & H12 & H13).
  destruct sn as [sn|]; [|congruence]. destruct dn as [dn|]; [|congruence].
  destruct a as [a|]; [|congruence]. destruct e as [e|]; [|congruence].
  destruct go as [go|]; [|congruence]. destruct oi as [oi|]; [|congruence].
  destruct nu as [nu|]; [|congruence]. destruct an as [an|]; [|congruence].
  destruct su as [su|]; [|congruence]. destruct orb as [orb|]; [|congruence].
  destruct idl as [idl|]; [|congruence]. destruct bcp as [bcp|]; [|congruence].
  destruct lg as [lg|]; [|congruence].
  exists sn, dn, a, e, go, oi, nu, an, su, orb, idl, bcp, lg. reflexivity.
Qed.

Section RunInvariants.

Variable GRID_NODES : list string.
Variable SIM_INTERVAL_SECONDS : Q.

(** An invariant indexed by the number of calls made is kept by a run
    when every call keeps it. *)
Lemma run_simulation_steps_invariant (C : datetime * Q -> Prop)
    (Inv : nat -> SimState -> Prop) :
  (forall k s t iv g,
      C (t, iv) -> Inv k s -> valid_rng g ->
      returns (run_simulation_step GRID_NODES SIM_INTERVAL_SECONDS s t iv) g
        (fun s' g' => Inv (S k) s' /\ valid_rng g')) ->
  forall calls k s g,
    Forall C calls -> Inv k s -> valid_rng g ->
    returns (run_simulation_steps GRID_NODES SIM_INTERVAL_SECONDS calls s) g
      (fun s' g' => Inv (k + List.length calls)%nat s' /\ valid_rng g').
Proof.
  intros Hstep calls.
  induction calls as [|[t iv] rest IH]; intros k s g Hc Hi Hg.
  - apply returns_ret. cbn [List.length]. rewrite Nat.add_0_r. split; assumption.
  - inversion Hc as [|c l Hc1 Hcr]; subst.
    cbn [run_simulation_steps].
    eapply returns_bind; [apply Hstep; eassumption|].
    intros s1 g1 [Hi1 Hg1].
    eapply returns_weaken; [apply IH; eassumption|].
    cbv beta. intros s2 g2 [Hi2 Hg2].
    cbn [List.length]. rewrite Nat.add_succ_r. split; assumption.
Qed.

(** One call, seen from the state it starts from: the tick of the body,
    the truncation, and what the solar nodes go through. *)
Lemma run_simulation_step_view (s : SimState) (t : datetime) (iv : Q) (g : RNG) :
  valid_rng g ->
  GRID_NODES <> [] \/ start_distribution GRID_NODES s = [] ->
  returns (run_simulation_step GRID_NODES SIM_INTERVAL_SECONDS s t iv) g
    (fun s' g' =>
       valid_rng g' /\ initialized s' /\
       exists outputs s_mid l_mid solar',
         tick GRID_NODES SIM_INTERVAL_SECONDS s iv g outputs s_mid g' /\
         logs s_mid = Some l_mid /\
         s' = set_logs s_mid (slice_last 50 l_mid) /\
         solar_nodes s' = Some solar' /\
         Forall2 (fun n n' =>
                    node_name n' = node_name n /\
                    panel_health n - 0.01 <= panel_health n' /\
                    (panel_health n <= 100 -> panel_health n' <= 100))
                 (start_solar GRID_NODES s) solar' /\
         (0 <= SIM_INTERVAL_SECONDS ->
          Forall (fun n => panel_health n <= 100) (start_solar GRID_NODES s) ->
          Forall (fun o => 0.1536 * (SIM_INTERVAL_SECONDS / 3600) <= o /\
                           o <= 0.396 * (SIM_INTERVAL_SECONDS / 3600)) outputs)).
Proof.
  intros Hg Hok.
  eapply returns_weaken; [apply run_simulation_step_tick; assumption|].
  intros s' g' (outputs & s_mid & l_mid & _ & Ht & Hmid & ->).
  split; [eapply tick_valid_rng; eassumption|].
  split; [apply initialized_set_logs; eapply tick_initialized; exact Ht|].
  destruct (tick_generate _ _ _ _ _ _ _ _ Ht) as (solar' & Hrun & Hs' & _).
  pose proof (returns_inv _ _ _ _ _ Hrun
                (generate_energy_all_bounds SIM_INTERVAL_SECONDS
                   (start_solar GRID_NODES s) g Hg)) as [Hall Hout].
  cbn [fst snd] in Hall, Hout.
  exists outputs, s_mid, l_mid, solar'.
  split; [exact Ht|]. split; [exact Hmid|]. split; [reflexivity|].
  split; [exact Hs'|]. split; [exact Hall|exact Hout].
Qed.

End RunInvariants.

Lemma Forall2_refl_on {A : Type} (R : A -> A -> Prop) (l : list A) :
  (forall x, R x x) -> Forall2 R l l.
Proof. intro H. induction l; constructor; auto. Qed.

Lemma Forall2_compose {A : Type} (R1 R2 R3 : A -> A -> Prop) (l1 l2 l3 : list A) :
  (forall x y z, R1 x y -> R2 y z -> R3 x z) ->
  Forall2 R1 l1 l2 -> Forall2 R2 l2 l3 -> Forall2 R3 l1 l3.
Proof.
  intros H H12. revert l3. induction H12 as [|x y l1 l2 Hxy _ IH]; intros l3 H23.
  - inversion H23. constructor.
  - inversion H23 as [|y' z l2' l3' Hyz Hrest]; subst.
    constructor; [eapply H; eassumption|apply IH; exact Hrest].
Qed.

Lemma Forall2_Forall_r {A : Type} (R : A -> A -> Prop) (P Q : A -> Prop)
    (l l' : list A) :
  (forall x y, R x y -> P x -> Q y) -> Forall2 R l l' -> Forall P l -> Forall Q l'.
Proof.
  intros H H2. induction H2 as [|x y l l' Hxy _ IH]; intro HP; constructor.
  - inversion HP; subst. eapply H; eassumption.
  - apply IH. inversion HP; assumption.
Qed.

Lemma py_len_eq {A B : Type} (l : list A) (l' : list B) :
  List.length l = List.length l' -> py_len l = py_len l'.
Proof. unfold py_len. intros ->. reflexivity. Qed.

Section RunProperties.

Variable GRID_NODES : list string.
Variable SIM_INTERVAL_SECONDS : Q.

Lemma start_solar_present (s : SimState) (nodes : list SolarNodeController) :
  solar_nodes s = Some nodes -> start_solar GRID_NODES s = nodes.
Proof. intro H. unfold start_solar. rewrite H. reflexivity. Qed.

Lemma start_distribution_present (s : SimState)
    (nodes : list UniversalDistributionNode) :
  distribution_nodes s = Some nodes -> start_distribution GRID_NODES s = nodes.
Proof. intro H. unfold start_distribution. rewrite H. reflexivity. Qed.

Lemma run_simulation_steps_wear (calls : list (datetime * Q)) (s : SimState)
    (nodes : list SolarNodeController) (g : RNG) :
  GRID_NODES <> [] -> solar_nodes s = Some nodes -> valid_rng g ->
  returns (run_simulation_steps GRID_NODES SIM_INTERVAL_SECONDS calls s) g
    (fun s' _ =>
       exists nodes',
         solar_nodes s' = Some nodes' /\
         Forall2 (fun n n' =>
                    node_name n' = node_name n /\
                    panel_health n - 0.01 * py_len calls <= panel_health n')
                 nodes nodes').
Proof.
  intros Hne Hs Hg.
  eapply returns_weaken.
  - apply (run_simulation_steps_invariant GRID_NODES SIM_INTERVAL_SECONDS
             (fun _ => True)
             (fun k s' =>
                exists nodes',
                  solar_nodes s' = Some nodes' /\
                  Forall2 (fun n n' =>
                             node_name n' = node_name n /\
                             panel_health n - 0.01 * inject_Z (Z.of_nat k)
                             <= panel_health n')
                          nodes nodes')) with (k := 0%nat).
    + intros k s1 t iv g1 _ (n1 & Hs1 & Hall1) Hg1.
      eapply returns_weaken;
        [apply run_simulation_step_view; [exact Hg1|left; exact Hne]|].
      intros s2 g2 (Hg2 & _ & outputs & s_mid & l_mid & n2 & _ & _ & _ & Hs2 & Hall2 & _).
      split; [|exact Hg2]. exists n2. split; [exact Hs2|].
      rewrite (start_solar_present s1 n1 Hs1) in Hall2.
      eapply Forall2_compose; [|exact Hall1|exact Hall2].
      cbv beta. intros x y z (Hn1 & Hh1) (Hn2 & Hh2 & _).
      split; [congruence|].
      pose proof (Qnat_succ k) as Hk.
      set (a := inject_Z (Z.of_nat k)) in *.
      set (b := inject_Z (Z.of_nat (S k))) in *. clearbody a b.
      rewrite Hk. lra.
    + apply Forall_forall. intros; exact I.
    + exists nodes. split; [exact Hs|].
      apply Forall2_refl_on. intro x. split; [reflexivity|].
      change (inject_Z (Z.of_nat 0)) with 0. lra.
    + exact Hg.
  - cbv beta. intros s' g' [(nodes' & Hs' & Hall) _].
    exists nodes'. split; [exact Hs'|exact Hall].
Qed.

(** X7. Panels wear by at most 0.01 a call: with a non-empty region set
    and a generator within its range, after any sequence of calls every
    solar node of the state is still there, under its name, with a
    health of at least its starting health minus 0.01 times the number
    of calls. *)
Theorem panel_health_wear_rate (calls : list (datetime * Q)) (s : SimState)
    (nodes : list SolarNodeController) (g : RNG) :
  GRID_NODES <> [] -> solar_nodes s = Some nodes -> valid_rng g ->
  returns (run_simulation_steps GRID_NODES SIM_INTERVAL_SECONDS calls s) g
    (fun s' _ =>
       exists nodes',
         solar_nodes s' = Some nodes' /\
         Forall2 (fun n n' =>
                    node_name n' = node_name n /\
                    panel_health n - 0.01 * py_len calls <= panel_health n')
                 nodes nodes').
Proof. exact (run_simulation_steps_wear calls s nodes g). Qed.

Lemma run_simulation_steps_energy (calls : list (datetime * Q)) (s : SimState)
    (e : Energy) (g : RNG) :
  GRID_NODES <> [] -> 0 <= SIM_INTERVAL_SECONDS ->
  configured GRID_NODES s ->
  (forall nodes, solar_nodes s = Some nodes ->
                 Forall (fun n => panel_health n <= 100) nodes) ->
  energy s = Some e -> valid_rng g ->
  returns (run_simulation_steps GRID_NODES SIM_INTERVAL_SECONDS calls s) g
    (fun s' _ =>
       exists e',
         energy s' = Some e' /\
         py_len calls * (py_len GRID_NODES * (0.1536 * (SIM_INTERVAL_SECONDS / 3600)))
         <= total_mwh e' - total_mwh e /\
         total_mwh e' - total_mwh e
         <= py_len calls * (py_len GRID_NODES * (0.396 * (SIM_INTERVAL_SECONDS / 3600)))).
Proof.
  intros Hne Hsim Hc H100 He Hg.
  set (lo := 0.1536 * (SIM_INTERVAL_SECONDS / 3600)).
  set (hi := 0.396 * (SIM_INTERVAL_SECONDS / 3600)).
  eapply returns_weaken.
  - apply (run_simulation_steps_invariant GRID_NODES SIM_INTERVAL_SECONDS
             (fun _ => True)
             (fun k s' =>
                configured GRID_NODES s' /\
                (forall nodes, solar_nodes s' = Some nodes ->
                               Forall (fun n => panel_health n <= 100) nodes) /\
                exists e',
                  energy s' = Some e' /\
                  inject_Z (Z.of_nat k) * (py_len GRID_NODES * lo)
                  <= total_mwh e' - total_mwh e /\
                  total_mwh e' - total_mwh e
                  <= inject_Z (Z.of_nat k) * (py_len GRID_NODES * hi)))
      with (k := 0%nat).
    + intros k s1 t iv g1 _ (Hc1 & H1 & e1 & He1 & Hlo1 & Hhi1) Hg1.
      pose proof (configured_start _ _ Hc1) as (_ & Hs1 & Hsl1 & _).
      eapply returns_weaken;
        [apply run_simulation_step_view; [exact Hg1|left; exact Hne]|].
      intros s2 g2 (Hg2 & _ & outputs & s_mid & l_mid & n2 & Ht & _ & -> & Hs2 & Hall2 & Hout).
      split; [|exact Hg2].
      split; [apply configured_set_logs; eapply tick_configured; eassumption|].
      split.
      { intros nodes Hn. rewrite Hs2 in Hn. injection Hn as <-.
        eapply Forall2_Forall_r; [|exact Hall2|exact (H1 _ Hs1)].
        cbv beta. intros x y (_ & _ & H) Hx. exact (H Hx). }
      eexists. split; [exact (tick_energy _ _ _ _ _ _ _ _ Ht)|].
      cbn [total_mwh]. unfold start_energy. rewrite He1. cbn [or_default].
      pose proof (py_sum_bounds outputs lo hi (Hout Hsim (H1 _ Hs1))) as [Hsl Hsh].
      rewrite (py_len_eq outputs GRID_NODES) in Hsl, Hsh
        by (rewrite (tick_outputs_length _ _ _ _ _ _ _ _ Ht); exact Hsl1).
      pose proof (Qnat_succ k) as Hk.
      set (a := inject_Z (Z.of_nat k)) in *.
      set (b := inject_Z (Z.of_nat (S k))) in *.
      set (r := py_len GRID_NODES) in *. clearbody a b r lo hi.
      rewrite Hk. split; lra.
    + apply Forall_forall. intros; exact I.
    + split; [exact Hc|]. split; [exact H100|].
      exists e. split; [exact He|].
      change (inject_Z (Z.of_nat 0)) with 0. split; lra.
    + exact Hg.
  - cbv beta. intros s' g' [(_ & _ & e' & He' & Hlo & Hhi) _].
    exists e'. split; [exact He'|split; assumption].
Qed.

(** X8. With one solar node per region, none above 100 of health, a
    non-negative [SIM_INTERVAL_SECONDS] and a generator within its
    range, n calls raise [total_mwh] by at least
    n x R x 0.1536 x interval/3600 and at most n x R x 0.396 x
    interval/3600, R the number of regions. *)
Theorem total_energy_range (calls : list (datetime * Q)) (s : SimState)
    (e : Energy) (g : RNG) :
  GRID_NODES <> [] -> 0 <= SIM_INTERVAL_SECONDS ->
  configured GRID_NODES s ->
  (forall nodes, solar_nodes s = Some nodes ->
                 Forall (fun n => panel_health n <= 100) nodes) ->
  energy s = Some e -> valid_rng g ->
  returns (run_simulation_steps GRID_NODES SIM_INTERVAL_SECONDS calls s) g
    (fun s' _ =>
       exists e',
         energy s' = Some e' /\
         py_len calls * (py_len GRID_NODES * (0.1536 * (SIM_INTERVAL_SECONDS / 3600)))
         <= total_mwh e' - total_mwh e /\
         total_mwh e' - total_mwh e
         <= py_len calls * (py_len GRID_NODES * (0.396 * (SIM_INTERVAL_SECONDS / 3600)))).
Proof. exact (run_simulation_steps_energy calls s e g). Qed.

End RunProperties.

(** ** Distribution over a run *)

Section RunDistribution.

Variable GRID_NODES : list string.
Variable SIM_INTERVAL_SECONDS : Q.


Lemma share_nonneg (A : Type) (l : list A) (amount : Q) :
  0 <= amount -> 0 <= amount / py_len l.
Proof.
  intro H. unfold Qdiv. apply Qmult_le_0_compat; [exact H|].
  apply Qinv_le_0_compat. apply Qnat_nonneg.
Qed.



End RunDistribution.

(** ** Histories, counters and the keys a call leaves alone *)

Section RunHistories.

Variable GRID_NODES : list string.
Variable SIM_INTERVAL_SECONDS : Q.

Lemma start_lines_present (field : option (list string)) (l : list string) :
  field = Some l -> start_lines field = l.
Proof. intros ->. reflexivity. Qed.

Lemma run_simulation_steps_histories (calls : list (datetime * Q)) (s : SimState)
    (g : RNG) :
  GRID_NODES <> [] -> initialized s -> valid_rng g ->
  returns (run_simulation_steps GRID_NODES SIM_INTERVAL_SECONDS calls s) g
    (fun s' _ =>
       (exists a b c,
           supply_chain s' = Some (start_lines (supply_chain s) ++ a) /\
           orbital s' = Some (start_lines (orbital s) ++ b) /\
           ids s' = Some (start_lines (ids s) ++ c) /\
           List.length a = (List.length calls * List.length GRID_NODES)%nat /\
           List.length b = (List.length calls * List.length GRID_NODES)%nat /\
           List.length c = (List.length calls * List.length GRID_NODES)%nat) /\
       (bcp_transactions s' = bcp_transactions s /\ asp s' = asp s /\
        current_sim_time s' = current_sim_time s /\
        sim_step_count s' = sim_step_count s) /\
       (exists d n',
           anomalies s' = Some (start_lines (anomalies s) ++ d) /\
           (List.length d <= List.length calls)%nat /\
           nuclear_signatures s' = Some n' /\
           (or_default (nuclear_signatures s) 0 <= n'
            <= or_default (nuclear_signatures s) 0 + Z.of_nat (List.length calls))%Z)).
Proof.
  intros Hne Hi Hg.
  destruct (initialized_shape s Hi)
    as (sn & dn & a0 & e0 & go & oi & nu & an & su & orb & idl & bcp & lg & Es).
  set (ct := current_sim_time s) in *. set (sc := sim_step_count s) in *.
  clearbody ct sc. subst s.
  cbn [supply_chain orbital ids anomalies bcp_transactions asp current_sim_time
       sim_step_count nuclear_signatures start_lines or_default].
  eapply returns_weaken.
  - apply (run_simulation_steps_invariant GRID_NODES SIM_INTERVAL_SECONDS
             (fun _ => True)
             (fun k s' =>
                (exists a b c,
                    supply_chain s' = Some (su ++ a) /\ orbital s' = Some (orb ++ b) /\
                    ids s' = Some (idl ++ c) /\
                    List.length a = (k * List.length GRID_NODES)%nat /\
                    List.length b = (k * List.length GRID_NODES)%nat /\
                    List.length c = (k * List.length GRID_NODES)%nat) /\
                (bcp_transactions s' = Some bcp /\ asp s' = Some a0 /\
                 current_sim_time s' = ct /\ sim_step_count s' = sc) /\
                (exists d n',
                    anomalies s' = Some (an ++ d) /\ (List.length d <= k)%nat /\
                    nuclear_signatures s' = Some n' /\
                    (nu <= n' <= nu + Z.of_nat k)%Z))) with (k := 0%nat).
    + intros k s1 t iv g1 _
        ((a & b & c & Ha & Hb & Hc & Hla & Hlb & Hlc) & (Hbcp & Hasp & Hct & Hsc) &
         (d & n' & Hd & Hld & Hn & Hrange)) Hg1.
      eapply returns_weaken;
        [apply run_simulation_step_view; [exact Hg1|left; exact Hne]|].
      intros s2 g2 (Hg2 & _ & outputs & s_mid & l_mid & sl & Ht & _ & -> & _).
      split; [|exact Hg2].
      destruct (tick_supply_chain _ _ _ _ _ _ _ _ Ht) as (na & Ha2 & Hla2).
      destruct (tick_orbital _ _ _ _ _ _ _ _ Ht) as (nb & Hb2 & Hlb2).
      destruct (tick_ids _ _ _ _ _ _ _ _ Ht) as (nc & Hc2 & Hlc2).
      destruct (tick_logs _ _ _ _ _ _ _ _ Ht) as (hd & al & tl & _ & Han2 & _ & Hal & _).
      destruct (tick_nuclear _ _ _ _ _ _ _ _ Ht) as (count & Hcount & Hn2).
      rewrite (start_lines_present _ _ Ha) in Ha2.
      rewrite (start_lines_present _ _ Hb) in Hb2.
      rewrite (start_lines_present _ _ Hc) in Hc2.
      rewrite (start_lines_present _ _ Hd) in Han2.
      rewrite Hn in Hn2. cbn [or_default] in Hn2.
      rewrite <- app_assoc in Ha2, Hb2, Hc2, Han2.
      split; [|split].
      * exists (a ++ na), (b ++ nb), (c ++ nc).
        split; [exact Ha2|]. split; [exact Hb2|]. split; [exact Hc2|].
        rewrite !length_app. repeat split; lia.
      * pose proof (tick_bcp_transactions _ _ _ _ _ _ _ _ Ht) as Hbcp2.
        rewrite Hbcp in Hbcp2.
        pose proof (tick_asp _ _ _ _ _ _ _ _ Ht) as Hasp2. rewrite Hasp in Hasp2.
        split; [exact Hbcp2|]. split; [exact Hasp2|].
        split; [rewrite <- Hct; exact (tick_current_sim_time _ _ _ _ _ _ _ _ Ht)|].
        rewrite <- Hsc. exact (tick_sim_step_count _ _ _ _ _ _ _ _ Ht).
      * exists (d ++ al), (n' + count)%Z.
        split; [exact Han2|]. split.
        { rewrite length_app, Hal.
          destruct (monitor_grid_integrity mkASP (threat_level_of GRID_NODES s1 g1)); lia. }
        split; [exact Hn2|]. lia.
    + apply Forall_forall. intros; exact I.
    + split; [|split].
      * exists [], [], []. rewrite !app_nil_r. cbn. repeat split; reflexivity.
      * cbn. repeat split; reflexivity.
      * exists [], nu. rewrite app_nil_r. cbn. repeat split; try reflexivity; lia.
    + exact Hg.
  - cbv beta. intros s' g' [(H1 & H2 & H3) _]. split; [exact H1|]. split; [exact H2|exact H3].
Qed.

(** X11. The histories are append-only and unbounded: with a non-empty
    region set, a generator within its range and every key present,
    after n calls [supply_chain], [orbital] and [ids] each hold what
    they held, followed by n x R further entries (R regions); nothing is
    ever dropped from them, unlike from [logs]. *)
Theorem histories_append_per_region (calls : list (datetime * Q)) (s : SimState)
    (g : RNG) :
  GRID_NODES <> [] -> initialized s -> valid_rng g ->
  returns (run_simulation_steps GRID_NODES SIM_INTERVAL_SECONDS calls s) g
    (fun s' _ =>
       exists a b c,
         supply_chain s' = Some (start_lines (supply_chain s) ++ a) /\
         orbital s' = Some (start_lines (orbital s) ++ b) /\
         ids s' = Some (start_lines (ids s) ++ c) /\
         List.length a = (List.length calls * List.length GRID_NODES)%nat /\
         List.length b = (List.length calls * List.length GRID_NODES)%nat /\
         List.length c = (List.length calls * List.length GRID_NODES)%nat).
Proof.
  intros Hne Hi Hg.
  eapply returns_weaken; [apply run_simulation_steps_histories; assumption|].
  cbv beta. intros s' g' (H & _). exact H.
Qed.

(** X12. The step leaves four keys alone: after any sequence of calls
    (same conditions) [bcp_transactions], [asp], [current_sim_time] and
    [sim_step_count] hold what they held; the simulated time and the
    step counter are the driver's alone. *)
Theorem step_leaves_driver_keys (calls : list (datetime * Q)) (s : SimState)
    (g : RNG) :
  GRID_NODES <> [] -> initialized s -> valid_rng g ->
  returns (run_simulation_steps GRID_NODES SIM_INTERVAL_SECONDS calls s) g
    (fun s' _ =>
       bcp_transactions s' = bcp_transactions s /\ asp s' = asp s /\
       current_sim_time s' = current_sim_time s /\
       sim_step_count s' = sim_step_count s).
Proof.
  intros Hne Hi Hg.
  eapply returns_weaken; [apply run_simulation_steps_histories; assumption|].
  cbv beta. intros s' g' (_ & H & _). exact H.
Qed.

(** X13. At most one alert and one nuclear signature a call: after n
    calls (same conditions) [anomalies] holds what it held followed by
    at most n alerts, and [nuclear_signatures] is between its old value
    and its old value plus n. *)
Theorem alerts_and_signatures_bounded (calls : list (datetime * Q)) (s : SimState)
    (g : RNG) :
  GRID_NODES <> [] -> initialized s -> valid_rng g ->
  returns (run_simulation_steps GRID_NODES SIM_INTERVAL_SECONDS calls s) g
    (fun s' _ =>
       exists d n',
         anomalies s' = Some (start_lines (anomalies s) ++ d) /\
         (List.length d <= List.length calls)%nat /\
         nuclear_signatures s' = Some n' /\
         (or_default (nuclear_signatures s) 0 <= n'
          <= or_default (nuclear_signatures s) 0 + Z.of_nat (List.length calls))%Z).
Proof.
  intros Hne Hi Hg.
  eapply returns_weaken; [apply run_simulation_steps_histories; assumption|].
  cbv beta. intros s' g' (_ & _ & H). exact H.
Qed.

(** X14. A call draws the same number of random numbers whatever they
    are: three per solar node, five per region and four more (threat,
    gold, oil, nuclear), alert or not; the generator is otherwise
    unchanged. *)
Theorem step_draw_count (s : SimState) (t : datetime) (iv : Q) (g : RNG) :
  valid_rng g ->
  GRID_NODES <> [] \/ start_distribution GRID_NODES s = [] ->
  returns (run_simulation_step GRID_NODES SIM_INTERVAL_SECONDS s t iv) g
    (fun _ g' =>
       draws g' = draws g /\
       pos g' = (pos g + (3 * List.length (start_solar GRID_NODES s)
                          + 5 * List.length GRID_NODES + 4))%nat).
Proof.
  intros Hg Hok.
  eapply returns_weaken; [apply run_simulation_step_tick; assumption|].
  intros s' g' (outputs & s_mid & l_mid & _ & Ht & _).
  rewrite (tick_rng _ _ _ _ _ _ _ _ Ht). split; reflexivity.
Qed.

End RunHistories.

(** ** Lazy initialisation and node names *)

Lemma Forall2_names (l l' : list SolarNodeController) (P : SolarNodeController ->
    SolarNodeController -> Prop) :
  Forall2 (fun n n' => node_name n' = node_name n /\ P n n') l l' ->
  map node_name l' = map node_name l.
Proof.
  induction 1 as [|n n' l l' [Hn _] _ IH]; [reflexivity|].
  cbn [map]. rewrite Hn, IH. reflexivity.
Qed.

Lemma credited_names (n amount : Q) (nodes : list UniversalDistributionNode) :
  map region_name (credited n amount nodes) = map region_name nodes.
Proof.
  unfold credited. rewrite map_map. apply map_ext. intro node. reflexivity.
Qed.

Lemma new_nodes_names (regions : list string) :
  map node_name (map new_SolarNodeController regions) = regions /\
  map region_name (map new_UniversalDistributionNode regions) = regions.
Proof.
  split; rewrite map_map; rewrite <- (map_id regions) at 2; apply map_ext;
    intro r; reflexivity.
Qed.

Section LazyInitialization.

Variable GRID_NODES : list string.
Variable SIM_INTERVAL_SECONDS : Q.

Lemma start_state_initialized (s : SimState) : initialized (start_state GRID_NODES s).
Proof. unfold initialized, start_state. cbn. repeat split; discriminate. Qed.

Lemma start_state_fixed (s : SimState) : initialized s -> start_state GRID_NODES s = s.
Proof.
  intro Hi.
  destruct (initialized_shape s Hi)
    as (sn & dn & a0 & e0 & go & oi & nu & an & su & orb & idl & bcp & lg & Es).
  destruct s as [f1 f2 f3 f4 f5 f6 f7 f8 f9 f10 f11 f12 f13 ct sc].
  cbn [current_sim_time sim_step_count] in Es. injection Es as -> -> -> -> -> -> -> -> -> -> -> -> ->.
  reflexivity.
Qed.

(** X15. The lazy initialisation at the head of [run_simulation_step]
    fills the absent keys and never writes over a present one: what it
    returns has all thirteen keys; on a state that has them it changes
    nothing; running it again changes nothing; and the driver's two keys
    are not touched. *)
Theorem lazy_initialization_keeps_present (s : SimState) :
  let init := fun s0 => initialize_metrics (initialize_objects GRID_NODES s0) in
  initialized (init s) /\
  (initialized s -> init s = s) /\
  init (init s) = init s /\
  current_sim_time (init s) = current_sim_time s /\
  sim_step_count (init s) = sim_step_count s.
Proof.
  cbv zeta beta. rewrite !lazy_initialization.
  split; [apply start_state_initialized|].
  split; [apply start_state_fixed|].
  split; [apply start_state_fixed; apply start_state_initialized|].
  split; reflexivity.
Qed.

Lemma run_simulation_steps_names (calls : list (datetime * Q)) (s : SimState)
    (solar : list SolarNodeController) (dist : list UniversalDistributionNode)
    (g : RNG) :
  GRID_NODES <> [] -> valid_rng g ->
  solar_nodes s = Some solar -> distribution_nodes s = Some dist ->
  returns (run_simulation_steps GRID_NODES SIM_INTERVAL_SECONDS calls s) g
    (fun s' g' =>
       valid_rng g' /\
       exists solar' dist',
         solar_nodes s' = Some solar' /\ distribution_nodes s' = Some dist' /\
         map node_name solar' = map node_name solar /\
         map region_name dist' = map region_name dist).
Proof.
  intros Hne Hg Hs Hd.
  eapply returns_weaken.
  - apply (run_simulation_steps_invariant GRID_NODES SIM_INTERVAL_SECONDS
             (fun _ => True)
             (fun _ s' =>
                exists solar' dist',
                  solar_nodes s' = Some solar' /\ distribution_nodes s' = Some dist' /\
                  map node_name solar' = map node_name solar /\
                  map region_name dist' = map region_name dist)) with (k := 0%nat).
    + intros k s1 t iv g1 _ (s1' & d1' & Hs1 & Hd1 & Hn1 & Hr1) Hg1.
      eapply returns_weaken;
        [apply run_simulation_step_view; [exact Hg1|left; exact Hne]|].
      intros s2 g2 (Hg2 & _ & outputs & s_mid & l_mid & sl & Ht & _ & -> & Hs2 & Hall & _).
      split; [|exact Hg2].
      exists sl, (credited (py_len GRID_NODES) (py_sum outputs)
                    (start_distribution GRID_NODES s1)).
      split; [exact Hs2|].
      split; [exact (tick_distribution _ _ _ _ _ _ _ _ Ht)|].
      rewrite (start_solar_present GRID_NODES s1 s1' Hs1) in Hall.
      rewrite (start_distribution_present GRID_NODES s1 d1' Hd1).
      split; [rewrite (Forall2_names _ _ _ Hall); exact Hn1|].
      rewrite credited_names. exact Hr1.
    + apply Forall_forall. intros; exact I.
    + exists solar, dist. repeat split; assumption.
    + exact Hg.
  - cbv beta. intros s' g' [H Hg']. split; [exact Hg'|exact H].
Qed.

(** X16. Nodes are created once and never renamed: with a non-empty
    region set and a generator within its range, after one call or more
    on any state the solar and distribution nodes carry, in order, the
    names of the nodes the state held, or the region names of
    [GRID_NODES] where the state held none. *)
Theorem node_names_fixed (call : datetime * Q) (calls : list (datetime * Q))
    (s : SimState) (g : RNG) :
  GRID_NODES <> [] -> valid_rng g ->
  returns (run_simulation_steps GRID_NODES SIM_INTERVAL_SECONDS (call :: calls) s) g
    (fun s' _ =>
       exists solar' dist',
         solar_nodes s' = Some solar' /\ distribution_nodes s' = Some dist' /\
         map node_name solar' = map node_name (start_solar GRID_NODES s) /\
         map region_name dist' = map region_name (start_distribution GRID_NODES s) /\
         (solar_nodes s = None -> map node_name solar' = GRID_NODES) /\
         (distribution_nodes s = None -> map region_name dist' = GRID_NODES)).
Proof.
  intros Hne Hg. destruct call as [t iv]. cbn [run_simulation_steps].
  eapply returns_bind;
    [apply run_simulation_step_view; [exact Hg|left; exact Hne]|].
  intros s1 g1 (Hg1 & _ & outputs & s_mid & l_mid & sl & Ht & _ & -> & Hs1 & Hall & _).
  eapply returns_weaken.
  - eapply run_simulation_steps_names;
      [exact Hne|exact Hg1|exact Hs1|exact (tick_distribution _ _ _ _ _ _ _ _ Ht)].
  - cbv beta. intros s' g' (_ & solar' & dist' & Hs' & Hd' & Hn & Hr).
    rewrite (Forall2_names _ _ _ Hall) in Hn. rewrite credited_names in Hr.
    exists solar', dist'.
    split; [exact Hs'|]. split; [exact Hd'|]. split; [exact Hn|]. split; [exact Hr|].
    destruct (new_nodes_names GRID_NODES) as [En Er].
    split; intro Hnone.
    + rewrite Hn. unfold start_solar. rewrite Hnone. exact En.
    + rewrite Hr. unfold start_distribution. rewrite Hnone. exact Er.
Qed.

End LazyInitialization.

(** ** The lines of a tick *)

Lemma string_append_assoc (a b c : string) :
  String.append (String.append a b) c = String.append a (String.append b c).
Proof. induction a as [|ch a IH]; cbn; [reflexivity|rewrite IH; reflexivity]. Qed.

Lemma prefix_append (p s : string) : String.prefix p (String.append p s) = true.
Proof.
  induction p as [|ch p IH]; cbn; [destruct s; reflexivity|].
  destruct (ascii_dec ch ch) as [_|Hne]; [exact IH|congruence].
Qed.

(** Every stamped line starts with the time between brackets. *)
Lemma stamp_prefix (t : datetime) (text : string) :
  String.prefix (fstring ["["; strftime_HMS t; "] "]%string) (stamp t text) = true.
Proof.
  assert (E : stamp t text
              = String.append (fstring ["["; strftime_HMS t; "] "]%string) text).
  { unfold stamp, fstring. cbn [String.concat String.append].
    rewrite string_append_assoc. reflexivity. }
  rewrite E. apply prefix_append.
Qed.

Lemma slice_last_snoc {A : Type} (n : nat) (l : list A) (x : A) :
  slice_last (S n) (l ++ [x]) = slice_last n l ++ [x].
Proof.
  unfold slice_last. rewrite length_app. cbn [List.length].
  replace (List.length l + 1 - S n)%nat with (List.length l - n)%nat by lia.
  rewrite skipn_app.
  replace (List.length l - n - List.length l)%nat with 0%nat by lia.
  reflexivity.
Qed.

Lemma app_tail3 {A : Type} (l0 : list A) (e : A) (front : list A) (a b c : A) :
  l0 ++ e :: front ++ [a; b; c] = (((l0 ++ e :: front) ++ [a]) ++ [b]) ++ [c].
Proof. rewrite <- !app_assoc. reflexivity. Qed.

Section Lines.

Variable GRID_NODES : list string.
Variable SIM_INTERVAL_SECONDS : Q.

Lemma distribute_energy_lines (nodes : list UniversalDistributionNode) (amount : Q)
    (t : datetime) (s : SimState) (l : list string) (g : RNG) :
  logs s = Some l ->
  GRID_NODES <> [] \/ nodes = [] ->
  returns (distribute_energy GRID_NODES nodes amount t s) g
    (fun r g' =>
       g' = g /\
       fst r = credited (py_len GRID_NODES) amount nodes /\
       snd r = set_logs s (l ++ map (distribution_line t)
                                  (credited (py_len GRID_NODES) amount nodes))).
Proof.
  revert s l. induction nodes as [|node rest IH]; intros s l Hl Hok.
  - cbn [distribute_energy]. apply returns_ret. cbn [fst snd map credited].
    split; [reflexivity|]. split; [reflexivity|].
    rewrite app_nil_r. destruct s. cbn in Hl. subst. reflexivity.
  - destruct Hok as [Hne|Hnil]; [|discriminate].
    cbn [distribute_energy].
    eapply returns_bind; [apply balance_and_distribute_spec; exact Hne|].
    intros node' g1 [-> ->].
    eapply returns_bind; [apply logs_append_spec; exact Hl|].
    intros s1 g1 [-> ->].
    eapply returns_bind; [eapply IH; [reflexivity|left; exact Hne]|].
    intros [rest' s2] g2. cbn [fst snd]. intros (-> & -> & ->).
    apply returns_ret. cbn [fst snd map credited].
    split; [reflexivity|]. split; [reflexivity|].
    rewrite <- app_assoc. reflexivity.
Qed.

Lemma regional_operations_events (regions : list string) (t : datetime) (s : SimState)
    (sc orb idl l : list string) (g : RNG) :
  valid_rng g ->
  supply_chain s = Some sc -> orbital s = Some orb -> ids s = Some idl ->
  logs s = Some l ->
  returns (regional_operations regions t s) g
    (fun s' g' =>
       g' = skip (5 * List.length regions) g /\
       exists events,
         Forall2 event_of regions events /\
         s' = set_logs
                (set_ids
                   (set_orbital
                      (set_supply_chain s
                         (sc ++ map (fun e => stamp t (sc_log e)) events))
                      (orb ++ map (fun e => stamp t (orb_log e)) events))
                   (idl ++ map (fun e => stamp t (id_log e)) events))
                (l ++ flat_map (event_lines t) events)).
Proof.
  revert s sc orb idl l g.
  induction regions as [|region rest IH]; intros s sc orb idl l g Hg Hsc Horb Hid Hl.
  - cbn [regional_operations]. apply returns_ret.
    split; [rewrite skip_0; reflexivity|].
    exists []. split; [constructor|].
    cbn [map flat_map]. rewrite !app_nil_r.
    destruct s. cbn in Hsc, Horb, Hid, Hl. subst. reflexivity.
  - cbn [regional_operations].
    eapply returns_bind; [apply simulate_supply_chain_text; exact Hg|].
    intros sc_text g1 [Hsct ->].
    eapply returns_bind; [apply supply_chain_append_spec; exact Hsc|].
    intros s1 g1 [-> ->].
    eapply returns_bind; [apply logs_append_spec; exact Hl|].
    intros s1 g1 [-> ->].
    eapply returns_bind;
      [apply simulate_orbital_scan_text; apply valid_rng_skip; exact Hg|].
    intros orb_text g1 [Horbt ->].
    eapply returns_bind; [apply orbital_append_spec; exact Horb|].
    intros s1 g1 [-> ->].
    eapply returns_bind; [apply logs_append_spec; reflexivity|].
    intros s1 g1 [-> ->].
    eapply returns_bind;
      [apply register_sovereign_id_text; do 2 apply valid_rng_skip; exact Hg|].
    intros id_text g1 [Hidt ->].
    eapply returns_bind; [apply ids_append_spec; exact Hid|].
    intros s1 g1 [-> ->].
    eapply returns_bind; [apply logs_append_spec; reflexivity|].
    intros s1 g1 [-> ->].
    eapply returns_weaken.
    + eapply IH; [do 3 apply valid_rng_skip; exact Hg|reflexivity..].
    + cbv beta. intros s' g' (-> & events & Hev & ->).
      split; [rewrite !skip_skip; cbn [List.length]; f_equal; lia|].
      exists (mkEvent sc_text orb_text id_text :: events).
      split; [constructor; [repeat split; assumption|exact Hev]|].
      cbn [map flat_map event_lines sc_log orb_log id_log app].
      state_simpl.
      rewrite <- !app_assoc. reflexivity.
Qed.

End Lines.

Section TickLines.

Variable GRID_NODES : list string.
Variable SIM_INTERVAL_SECONDS : Q.

(** The body of the step, line by line. *)
Lemma run_simulation_body_lines (s : SimState) (t : datetime) (iv : Q) (g : RNG) :
  valid_rng g ->
  GRID_NODES <> [] \/ start_distribution GRID_NODES s = [] ->
  returns (run_simulation_body GRID_NODES SIM_INTERVAL_SECONDS s t iv) g
    (fun s' g' =>
       exists outputs events found_gold found_oil count,
         tick_lines GRID_NODES s t g outputs events found_gold found_oil count s').
Proof.
  intros Hg Hok. unfold run_simulation_body. cbv zeta.
  rewrite lazy_initialization, initialize_objects_eq.
  do 3 apply returns_getitem.
  unfold start_state.
  eapply returns_bind; [apply generate_energy_all_spec; exact Hg|].
  intros [outs solar'] g1. cbn [fst snd]. intros (Hg1 & _).
  norm_state.
  apply returns_getitem. norm_state.
  eapply returns_bind; [apply logs_append_spec; reflexivity|].
  intros s1 g1' [-> ->]. norm_state.
  eapply returns_bind; [eapply distribute_energy_lines; [reflexivity|exact Hok]|].
  intros [dist' s2] g2. cbn [fst snd]. intros (-> & -> & ->).
  norm_state.
  eapply returns_bind.
  { eapply regional_operations_events;
      [rewrite Hg1; apply valid_rng_skip; exact Hg|reflexivity..]. }
  intros s3 g3 (-> & events & Hev & ->).
  norm_state.
  eapply returns_bind; [apply random_uniform_spec|]. intros threat g4 [-> ->].
  rewrite monitor_grid_integrity_self.
  assert (Hthreat : uniform_at (skip (5 * List.length GRID_NODES) g1)
                      (pos (skip (5 * List.length GRID_NODES) g1)) 1000 9000
                    = threat_level_of GRID_NODES s g).
  { rewrite Hg1. reflexivity. }
  rewrite Hthreat.
  match goal with
  | |- returns (bind (if _ then _ else ret ?X) _) ?G _ =>
      eapply (returns_bind _ _ _
                (fun s4 g' =>
                   g' = G /\
                   s4 = set_logs
                          (set_anomalies X
                             (start_lines (anomalies s) ++ alerts_of GRID_NODES s t g))
                          (or_default (logs X) [] ++ alerts_of GRID_NODES s t g)))
  end.
  { unfold alerts_of.
    destruct (monitor_grid_integrity mkASP (threat_level_of GRID_NODES s g)).
    - eapply returns_bind; [apply anomalies_append_spec; reflexivity|].
      intros s4 g4 [-> ->]. norm_state.
      eapply returns_weaken; [apply logs_append_spec; reflexivity|].
      intros s4 g4 [-> ->]. split; reflexivity.
    - apply returns_ret. split; [reflexivity|].
      cbn [logs or_default]. norm_state. rewrite !app_nil_r. reflexivity. }
  intros s4 g4 [-> ->]. cbn [logs or_default]. norm_state.
  eapply returns_bind; [apply ai_boring_search_for_gold_spec|].
  intros gold_found g5 [_ ->].
  eapply returns_bind; [apply ai_boring_search_for_oil_spec|].
  intros oil_found g5 [_ ->].
  eapply returns_bind.
  { apply quiet_nuclear_protocol_scan_spec.
    rewrite Hg1. do 5 apply valid_rng_skip. exact Hg. }
  intros count g5 [_ ->].
  apply returns_getitem. norm_state. apply returns_getitem.
  eapply returns_bind; [apply logs_append_spec; reflexivity|].
  intros s5 g5 [-> ->]. norm_state.
  apply returns_getitem. norm_state. apply returns_getitem.
  eapply returns_bind; [apply logs_append_spec; reflexivity|].
  intros s5 g5 [-> ->]. norm_state.
  apply returns_getitem. norm_state. apply returns_getitem.
  eapply returns_weaken; [apply logs_append_spec; reflexivity|].
  intros s5 g5 [-> ->]. norm_state.
  exists outs, events, gold_found, oil_found, count.
  constructor; cbn [energy distribution_nodes supply_chain orbital ids anomalies
                      gold oil nuclear_signatures logs];
    try reflexivity.
  - exact Hev.
  - unfold tick_log_lines, energy_line, gold_line, oil_line, nuclear_line.
    rewrite <- !app_assoc. reflexivity.
Qed.

End TickLines.

Lemma Forall_stamped_map {A : Type} (t : datetime) (f : A -> string) (l : list A) :
  Forall (fun line => exists text, line = stamp t text) (map (fun x => stamp t (f x)) l).
Proof.
  induction l as [|x l IH]; cbn [map]; constructor; [eexists; reflexivity|exact IH].
Qed.

Lemma tick_log_lines_stamped (GRID_NODES : list string) (s : SimState) (t : datetime)
    (g : RNG) (outputs : list Q) (events : list RegionEvent) (fg fo : Q) (count : Z) :
  Forall (fun line => exists text, line = stamp t text)
    (tick_log_lines GRID_NODES s t g outputs events fg fo count).
Proof.
  unfold tick_log_lines.
  constructor; [eexists; reflexivity|].
  apply Forall_app. split; [|apply Forall_app; split; [|apply Forall_app; split]].
  - unfold distribution_line. apply (Forall_stamped_map t _ _).
  - induction events as [|e events IH]; cbn [flat_map event_lines app].
    + constructor.
    + repeat (constructor; [eexists; reflexivity|]). exact IH.
  - unfold alerts_of. destruct (monitor_grid_integrity _ _); repeat constructor.
    eexists; reflexivity.
  - repeat (constructor; [eexists; reflexivity|]). constructor.
Qed.

Lemma incl_event_lines (t : datetime) (events : list RegionEvent) :
  incl (map (fun e => stamp t (sc_log e)) events) (flat_map (event_lines t) events) /\
  incl (map (fun e => stamp t (orb_log e)) events) (flat_map (event_lines t) events) /\
  incl (map (fun e => stamp t (id_log e)) events) (flat_map (event_lines t) events).
Proof.
  induction events as [|e events (IH1 & IH2 & IH3)].
  - repeat split; intros x [].
  - cbn [map flat_map event_lines app].
    split; [|split]; intros x [<-|Hin].
    + left. reflexivity.
    + right. right. right. apply IH1. exact Hin.
    + right. left. reflexivity.
    + right. right. right. apply IH2. exact Hin.
    + right. right. left. reflexivity.
    + right. right. right. apply IH3. exact Hin.
Qed.

Section LineProperties.

Variable GRID_NODES : list string.
Variable SIM_INTERVAL_SECONDS : Q.

(** X17. Every line a call appends to the log is stamped with the time
    of the call: it starts with "[" followed by the hour, minute and
    second of [current_time] and "] ". *)
Theorem appended_lines_stamped (s : SimState) (t : datetime) (iv : Q) (g : RNG) :
  valid_rng g ->
  GRID_NODES <> [] \/ start_distribution GRID_NODES s = [] ->
  returns (run_simulation_body GRID_NODES SIM_INTERVAL_SECONDS s t iv) g
    (fun s_mid _ =>
       exists new,
         logs s_mid = Some (start_lines (logs s) ++ new) /\
         Forall (fun line =>
                   String.prefix (fstring ["["; strftime_HMS t; "] "]%string) line = true)
                new).
Proof.
  intros Hg Hok.
  eapply returns_weaken; [apply run_simulation_body_lines; assumption|].
  intros s_mid g' (outputs & events & fg & fo & count & Hl).
  eexists. split; [exact (lines_logs _ _ _ _ _ _ _ _ _ _ Hl)|].
  eapply Forall_impl; [|apply tick_log_lines_stamped].
  cbv beta. intros line (text & ->). apply stamp_prefix.
Qed.

(** X18. The histories mirror the log: every entry a call appends to
    [supply_chain], [orbital], [ids] or [anomalies] is one of the lines
    the same call appends to [logs]; each region gets one entry in each
    of the first three, of the form its generator gives. *)
Theorem histories_mirror_log (s : SimState) (t : datetime) (iv : Q) (g : RNG) :
  valid_rng g ->
  GRID_NODES <> [] \/ start_distribution GRID_NODES s = [] ->
  returns (run_simulation_body GRID_NODES SIM_INTERVAL_SECONDS s t iv) g
    (fun s_mid _ =>
       exists new events alerts,
         logs s_mid = Some (start_lines (logs s) ++ new) /\
         Forall2 event_of GRID_NODES events /\
         supply_chain s_mid
         = Some (start_lines (supply_chain s) ++ map (fun e => stamp t (sc_log e)) events) /\
         orbital s_mid
         = Some (start_lines (orbital s) ++ map (fun e => stamp t (orb_log e)) events) /\
         ids s_mid
         = Some (start_lines (ids s) ++ map (fun e => stamp t (id_log e)) events) /\
         anomalies s_mid = Some (start_lines (anomalies s) ++ alerts) /\
         incl (map (fun e => stamp t (sc_log e)) events) new /\
         incl (map (fun e => stamp t (orb_log e)) events) new /\
         incl (map (fun e => stamp t (id_log e)) events) new /\
         incl alerts new).
Proof.
  intros Hg Hok.
  eapply returns_weaken; [apply run_simulation_body_lines; assumption|].
  intros s_mid g' (outputs & events & fg & fo & count & Hl).
  exists (tick_log_lines GRID_NODES s t g outputs events fg fo count), events,
    (alerts_of GRID_NODES s t g).
  split; [exact (lines_logs _ _ _ _ _ _ _ _ _ _ Hl)|].
  split; [exact (lines_events _ _ _ _ _ _ _ _ _ _ Hl)|].
  split; [exact (lines_supply_chain _ _ _ _ _ _ _ _ _ _ Hl)|].
  split; [exact (lines_orbital _ _ _ _ _ _ _ _ _ _ Hl)|].
  split; [exact (lines_ids _ _ _ _ _ _ _ _ _ _ Hl)|].
  split; [exact (lines_anomalies _ _ _ _ _ _ _ _ _ _ Hl)|].
  destruct (incl_event_lines t events) as (I1 & I2 & I3).
  unfold tick_log_lines.
  assert (Hmid : incl (flat_map (event_lines t) events)
                   (energy_line t (py_sum outputs)
                    :: map (distribution_line t)
                         (credited (py_len GRID_NODES) (py_sum outputs)
                            (start_distribution GRID_NODES s))
                    ++ flat_map (event_lines t) events
                    ++ alerts_of GRID_NODES s t g
                    ++ [gold_line t fg (or_default (gold s) 0 + fg);
                        oil_line t fo (or_default (oil s) 0 + fo);
                        nuclear_line t count
                          (or_default (nuclear_signatures s) 0 + count)%Z])).
  { apply incl_tl, incl_appr, incl_appl, incl_refl. }
  split; [eapply incl_tran; eassumption|].
  split; [eapply incl_tran; eassumption|].
  split; [eapply incl_tran; eassumption|].
  apply incl_tl, incl_appr, incl_appr, incl_appl, incl_refl.
Qed.

(** X19. The log reports the state: the first line a call appends is the
    energy line of the tick energy, by which [total_mwh] has risen, and
    the next ones are the distribution lines of the nodes as the call
    leaves them, each with the balance its node now holds. *)
Theorem log_reports_energy (s : SimState) (t : datetime) (iv : Q) (g : RNG) :
  valid_rng g ->
  GRID_NODES <> [] \/ start_distribution GRID_NODES s = [] ->
  returns (run_simulation_body GRID_NODES SIM_INTERVAL_SECONDS s t iv) g
    (fun s_mid _ =>
       exists generated nodes' later,
         energy s_mid = Some (mkEnergy (start_energy s + generated)) /\
         distribution_nodes s_mid = Some nodes' /\
         logs s_mid
         = Some (start_lines (logs s)
                 ++ energy_line t generated :: map (distribution_line t) nodes' ++ later)).
Proof.
  intros Hg Hok.
  eapply returns_weaken; [apply run_simulation_body_lines; assumption|].
  intros s_mid g' (outputs & events & fg & fo & count & Hl).
  eexists (py_sum outputs), _, _.
  split; [exact (lines_energy _ _ _ _ _ _ _ _ _ _ Hl)|].
  split; [exact (lines_distribution _ _ _ _ _ _ _ _ _ _ Hl)|].
  rewrite (lines_logs _ _ _ _ _ _ _ _ _ _ Hl). unfold tick_log_lines. reflexivity.
Qed.

Lemma run_simulation_step_tail (s : SimState) (t : datetime) (iv : Q) (g : RNG) :
  valid_rng g ->
  GRID_NODES <> [] \/ start_distribution GRID_NODES s = [] ->
  returns (run_simulation_step GRID_NODES SIM_INTERVAL_SECONDS s t iv) g
    (fun s' _ =>
       exists earlier found_gold found_oil count total_gold total_oil total_count,
         logs s' = Some (earlier ++ [gold_line t found_gold total_gold;
                                     oil_line t found_oil total_oil;
                                     nuclear_line t count total_count]) /\
         (List.length earlier <= 47)%nat /\
         gold s' = Some total_gold /\ oil s' = Some total_oil /\
         nuclear_signatures s' = Some total_count /\
         total_gold = or_default (gold s) 0 + found_gold /\
         total_oil = or_default (oil s) 0 + found_oil /\
         total_count = (or_default (nuclear_signatures s) 0 + count)%Z).
Proof.
  intros Hg Hok. unfold run_simulation_step.
  eapply returns_bind; [apply run_simulation_body_lines; assumption|].
  intros s_mid g1 (outputs & events & fg & fo & count & Hl).
  pose proof (lines_logs _ _ _ _ _ _ _ _ _ _ Hl) as Hlogs.
  eapply returns_weaken; [apply truncate_logs_spec; exact Hlogs|].
  intros s' g' [-> _].
  unfold tick_log_lines.
  set (a := gold_line t fg (or_default (gold s) 0 + fg)).
  set (b := oil_line t fo (or_default (oil s) 0 + fo)).
  set (c := nuclear_line t count (or_default (nuclear_signatures s) 0 + count)%Z).
  set (front := map (distribution_line t)
                  (credited (py_len GRID_NODES) (py_sum outputs)
                     (start_distribution GRID_NODES s))
                ++ flat_map (event_lines t) events
                ++ alerts_of GRID_NODES s t g).
  assert (E : start_lines (logs s)
              ++ energy_line t (py_sum outputs)
                 :: map (distribution_line t)
                      (credited (py_len GRID_NODES) (py_sum outputs)
                         (start_distribution GRID_NODES s))
                 ++ flat_map (event_lines t) events
                 ++ alerts_of GRID_NODES s t g ++ [a; b; c]
              = (((start_lines (logs s) ++ energy_line t (py_sum outputs) :: front)
                  ++ [a]) ++ [b]) ++ [c]).
  { replace (map (distribution_line t)
               (credited (py_len GRID_NODES) (py_sum outputs)
                  (start_distribution GRID_NODES s))
             ++ flat_map (event_lines t) events
             ++ alerts_of GRID_NODES s t g ++ [a; b; c])
      with (front ++ [a; b; c])
      by (unfold front; rewrite <- !app_assoc; reflexivity).
    apply app_tail3. }
  exists (slice_last 47 (start_lines (logs s) ++ energy_line t (py_sum outputs) :: front)),
    fg, fo, count, (or_default (gold s) 0 + fg), (or_default (oil s) 0 + fo),
    (or_default (nuclear_signatures s) 0 + count)%Z.
  split.
  { cbn [logs set_logs]. rewrite E, !slice_last_snoc, <- !app_assoc. reflexivity. }
  split; [rewrite slice_last_length; lia|].
  split; [exact (lines_gold _ _ _ _ _ _ _ _ _ _ Hl)|].
  split; [exact (lines_oil _ _ _ _ _ _ _ _ _ _ Hl)|].
  split; [exact (lines_nuclear _ _ _ _ _ _ _ _ _ _ Hl)|].
  repeat split; reflexivity.
Qed.

(** X20. After a call the log ends with the gold, oil and nuclear lines
    of that call, whatever was truncated, and the totals those lines
    print are the totals the state holds: the old total plus what the
    line says was found. *)
Theorem log_ends_with_resource_lines (s : SimState) (t : datetime) (iv : Q) (g : RNG) :
  valid_rng g ->
  GRID_NODES <> [] \/ start_distribution GRID_NODES s = [] ->
  returns (run_simulation_step GRID_NODES SIM_INTERVAL_SECONDS s t iv) g
    (fun s' _ =>
       exists earlier found_gold found_oil count total_gold total_oil total_count,
         logs s' = Some (earlier ++ [gold_line t found_gold total_gold;
                                     oil_line t found_oil total_oil;
                                     nuclear_line t count total_count]) /\
         (List.length earlier <= 47)%nat /\
         gold s' = Some total_gold /\ oil s' = Some total_oil /\
         nuclear_signatures s' = Some total_count /\
         total_gold = or_default (gold s) 0 + found_gold /\
         total_oil = or_default (oil s) 0 + found_oil /\
         total_count = (or_default (nuclear_signatures s) 0 + count)%Z).
Proof. exact (run_simulation_step_tail s t iv g). Qed.

(** X21. The driver shows the newest line first: the log as displayed
    after a call, [reversed(logs)], has at most 50 lines and starts with
    the nuclear, oil and gold lines of that call. *)
Theorem log_shown_newest_first (s : SimState) (t : datetime) (iv : Q) (g : RNG) :
  valid_rng g ->
  GRID_NODES <> [] \/ start_distribution GRID_NODES s = [] ->
  returns (s' <- run_simulation_step GRID_NODES SIM_INTERVAL_SECONDS s t iv ;;
           log_shown s') g
    (fun shown _ =>
       (List.length shown <= 50)%nat /\
       exists found_gold found_oil count total_gold total_oil total_count older,
         shown = nuclear_line t count total_count
                 :: oil_line t found_oil total_oil
                 :: gold_line t found_gold total_gold :: older).
Proof.
  intros Hg Hok.
  eapply returns_bind; [apply run_simulation_step_tail; assumption|].
  intros s' g' (earlier & fg & fo & count & tg & to & tc & Hlogs & Hlen & _).
  unfold log_shown. rewrite Hlogs. apply returns_getitem. apply returns_ret.
  rewrite rev_app_distr. cbn [List.rev app].
  split.
  - change (S (S (S (List.length (List.rev earlier)))) <= 50)%nat.
    rewrite length_rev. lia.
  - exists fg, fo, count, tg, to, tc, (List.rev earlier). reflexivity.
Qed.

End LineProperties.

(** ** The run properties on the repository's configuration

    Two calls from the driver's fresh state, every draw 0.5. *)

Lemma panel_health_wear_rate_witness :
  returns (run_simulation_steps repo_GRID_NODES repo_SIM_INTERVAL_SECONDS
             [(0, 1); (1, 1)] (fresh_sim_results repo_GRID_NODES 0))
    (constant_rng 0.5)
    (fun s' _ =>
       exists nodes',
         solar_nodes s' = Some nodes' /\
         Forall2 (fun n n' =>
                    node_name n' = node_name n /\
                    panel_health n - 0.01 * py_len [(0, 1); (1, 1)] <= panel_health n')
                 (map new_SolarNodeController repo_GRID_NODES) nodes').
Proof.
  apply (panel_health_wear_rate repo_GRID_NODES repo_SIM_INTERVAL_SECONDS
           [(0, 1); (1, 1)] (fresh_sim_results repo_GRID_NODES 0)
           (map new_SolarNodeController repo_GRID_NODES) (constant_rng 0.5)).
  - discriminate.
  - reflexivity.
  - apply valid_constant_rng; lra.
Defined.

Lemma total_energy_range_witness :
  returns (run_simulation_steps repo_GRID_NODES repo_SIM_INTERVAL_SECONDS
             [(0, 1); (1, 1)] (fresh_sim_results repo_GRID_NODES 0))
    (constant_rng 0.5)
    (fun s' _ =>
       exists e',
         energy s' = Some e' /\
         py_len [(0, 1); (1, 1)]
         * (py_len repo_GRID_NODES * (0.1536 * (repo_SIM_INTERVAL_SECONDS / 3600)))
         <= total_mwh e' - total_mwh (mkEnergy 0) /\
         total_mwh e' - total_mwh (mkEnergy 0)
         <= py_len [(0, 1); (1, 1)]
            * (py_len repo_GRID_NODES * (0.396 * (repo_SIM_INTERVAL_SECONDS / 3600)))).
Proof.
  apply (total_energy_range repo_GRID_NODES repo_SIM_INTERVAL_SECONDS
           [(0, 1); (1, 1)] (fresh_sim_results repo_GRID_NODES 0)
           (mkEnergy 0) (constant_rng 0.5)).
  - discriminate.
  - unfold repo_SIM_INTERVAL_SECONDS. lra.
  - apply fresh_sim_results_configured.
  - intros nodes H. injection H as <-.
    repeat constructor; cbn; lra.
  - reflexivity.
  - apply valid_constant_rng; lra.
Defined.

Lemma histories_append_per_region_witness :
  returns (run_simulation_steps repo_GRID_NODES repo_SIM_INTERVAL_SECONDS
             [(0, 1); (1, 1)] (fresh_sim_results repo_GRID_NODES 0))
    (constant_rng 0.5)
    (fun s' _ =>
       exists a b c,
         supply_chain s' = Some a /\ orbital s' = Some b /\ ids s' = Some c /\
         List.length a = 6%nat /\ List.length b = 6%nat /\ List.length c = 6%nat).
Proof.
  eapply returns_weaken.
  - apply (histories_append_per_region repo_GRID_NODES repo_SIM_INTERVAL_SECONDS
             [(0, 1); (1, 1)] (fresh_sim_results repo_GRID_NODES 0) (constant_rng 0.5)).
    + discriminate.
    + apply fresh_sim_results_configured.
    + apply valid_constant_rng; lra.
  - intros s' g' (a & b & c & Ha & Hb & Hc & La & Lb & Lc).
    exists a, b, c. repeat split; assumption.
Defined.

Lemma step_leaves_driver_keys_witness :
  returns (run_simulation_steps repo_GRID_NODES repo_SIM_INTERVAL_SECONDS
             [(0, 1); (1, 1)] (fresh_sim_results repo_GRID_NODES 0))
    (constant_rng 0.5)
    (fun s' _ =>
       bcp_transactions s' = Some [] /\ asp s' = Some mkASP /\
       current_sim_time s' = Some 0 /\ sim_step_count s' = Some 0%Z).
Proof.
  apply (step_leaves_driver_keys repo_GRID_NODES repo_SIM_INTERVAL_SECONDS
           [(0, 1); (1, 1)] (fresh_sim_results repo_GRID_NODES 0) (constant_rng 0.5)).
  - discriminate.
  - apply fresh_sim_results_configured.
  - apply valid_constant_rng; lra.
Defined.

Lemma alerts_and_signatures_bounded_witness :
  returns (run_simulation_steps repo_GRID_NODES repo_SIM_INTERVAL_SECONDS
             [(0, 1); (1, 1)] (fresh_sim_results repo_GRID_NODES 0))
    (constant_rng 0.5)
    (fun s' _ =>
       exists d n',
         anomalies s' = Some d /\ (List.length d <= 2)%nat /\
         nuclear_signatures s' = Some n' /\ (0 <= n' <= 2)%Z).
Proof.
  eapply returns_weaken.
  - apply (alerts_and_signatures_bounded repo_GRID_NODES repo_SIM_INTERVAL_SECONDS
             [(0, 1); (1, 1)] (fresh_sim_results repo_GRID_NODES 0) (constant_rng 0.5)).
    + discriminate.
    + apply fresh_sim_results_configured.
    + apply valid_constant_rng; lra.
  - intros s' g' (d & n' & Hd & Ld & Hn & Bn).
    exists d, n'. repeat split; try assumption; cbn in Bn; lia.
Defined.

Lemma step_draw_count_witness :
  returns (run_simulation_step repo_GRID_NODES repo_SIM_INTERVAL_SECONDS
             (fresh_sim_results repo_GRID_NODES 0) 0 1) (constant_rng 0.5)
    (fun _ g' => pos g' = 28%nat).
Proof.
  eapply returns_weaken.
  - apply (step_draw_count repo_GRID_NODES repo_SIM_INTERVAL_SECONDS
             (fresh_sim_results repo_GRID_NODES 0) 0 1 (constant_rng 0.5)).
    + apply valid_constant_rng; lra.
    + left. discriminate.
  - intros s' g' (_ & Hp). exact Hp.
Defined.

Lemma lazy_initialization_keeps_present_witness :
  initialized (initialize_metrics (initialize_objects repo_GRID_NODES empty_state)) /\
  current_sim_time (initialize_metrics (initialize_objects repo_GRID_NODES empty_state))
  = None.
Proof.
  destruct (lazy_initialization_keeps_present repo_GRID_NODES empty_state)
    as (Hi & _ & _ & Ht & _).
  split; [exact Hi|exact Ht].
Defined.

Lemma node_names_fixed_witness :
  returns (run_simulation_steps repo_GRID_NODES repo_SIM_INTERVAL_SECONDS
             [(0, 1); (1, 1)] empty_state)
    (constant_rng 0.5)
    (fun s' _ =>
       exists solar' dist',
         solar_nodes s' = Some solar' /\ distribution_nodes s' = Some dist' /\
         map node_name solar' = repo_GRID_NODES /\
         map region_name dist' = repo_GRID_NODES).
Proof.
  eapply returns_weaken.
  - apply (node_names_fixed repo_GRID_NODES repo_SIM_INTERVAL_SECONDS
             (0, 1) [(1, 1)] empty_state (constant_rng 0.5)).
    + discriminate.
    + apply valid_constant_rng; lra.
  - intros s' g' (solar' & dist' & Hs & Hd & _ & _ & Hns & Hnd).
    exists solar', dist'.
    repeat split; try assumption; [apply Hns|apply Hnd]; reflexivity.
Defined.

Lemma appended_lines_stamped_witness :
  returns (run_simulation_body repo_GRID_NODES repo_SIM_INTERVAL_SECONDS
             (fresh_sim_results repo_GRID_NODES 0) 3725 1) (constant_rng 0.5)
    (fun s_mid _ =>
       exists new,
         logs s_mid = Some new /\
         Forall (fun line => String.prefix "[01:02:05] " line = true) new).
Proof.
  eapply returns_weaken.
  - apply (appended_lines_stamped repo_GRID_NODES repo_SIM_INTERVAL_SECONDS
             (fresh_sim_results repo_GRID_NODES 0) 3725 1 (constant_rng 0.5)).
    + apply valid_constant_rng; lra.
    + left. discriminate.
  - intros s_mid g' (new & Hl & Hf). exists new. split; [exact Hl|exact Hf].
Defined.

Lemma histories_mirror_log_witness :
  returns (run_simulation_body repo_GRID_NODES repo_SIM_INTERVAL_SECONDS
             (fresh_sim_results repo_GRID_NODES 0) 0 1) (constant_rng 0.5)
    (fun s_mid _ =>
       exists new sc orb id_lines alerts,
         logs s_mid = Some new /\
         supply_chain s_mid = Some sc /\ orbital s_mid = Some orb /\
         ids s_mid = Some id_lines /\ anomalies s_mid = Some alerts /\
         incl sc new /\ incl orb new /\ incl id_lines new /\ incl alerts new).
Proof.
  eapply returns_weaken.
  - apply (histories_mirror_log repo_GRID_NODES repo_SIM_INTERVAL_SECONDS
             (fresh_sim_results repo_GRID_NODES 0) 0 1 (constant_rng 0.5)).
    + apply valid_constant_rng; lra.
    + left. discriminate.
  - intros s_mid g'
      (new & events & alerts & Hl & _ & Hsc & Horb & Hid & Han & I1 & I2 & I3 & I4).
    exists new, (map (fun e => stamp 0 (sc_log e)) events),
      (map (fun e => stamp 0 (orb_log e)) events),
      (map (fun e => stamp 0 (id_log e)) events), alerts.
    repeat split; assumption.
Defined.

Lemma log_reports_energy_witness :
  returns (run_simulation_body repo_GRID_NODES repo_SIM_INTERVAL_SECONDS
             (fresh_sim_results repo_GRID_NODES 0) 0 1) (constant_rng 0.5)
    (fun s_mid _ =>
       exists generated nodes' later,
         energy s_mid = Some (mkEnergy (0 + generated)) /\
         distribution_nodes s_mid = Some nodes' /\
         logs s_mid
         = Some (energy_line 0 generated :: map (distribution_line 0) nodes' ++ later)).
Proof.
  apply (log_reports_energy repo_GRID_NODES repo_SIM_INTERVAL_SECONDS
           (fresh_sim_results repo_GRID_NODES 0) 0 1 (constant_rng 0.5)).
  - apply valid_constant_rng; lra.
  - left. discriminate.
Defined.

Lemma log_ends_with_resource_lines_witness :
  returns (run_simulation_step repo_GRID_NODES repo_SIM_INTERVAL_SECONDS
             (fresh_sim_results repo_GRID_NODES 0) 0 1) (constant_rng 0.5)
    (fun s' _ =>
       exists earlier found_gold found_oil count,
         logs s' = Some (earlier ++ [gold_line 0 found_gold (0 + found_gold);
                                     oil_line 0 found_oil (0 + found_oil);
                                     nuclear_line 0 count (0 + count)%Z])).
Proof.
  eapply returns_weaken.
  - apply (log_ends_with_resource_lines repo_GRID_NODES repo_SIM_INTERVAL_SECONDS
             (fresh_sim_results repo_GRID_NODES 0) 0 1 (constant_rng 0.5)).
    + apply valid_constant_rng; lra.
    + left. discriminate.
  - intros s' g' (earlier & fg & fo & c & tg & to & tc
                  & Hl & _ & _ & _ & _ & -> & -> & ->).
    exists earlier, fg, fo, c. exact Hl.
Defined.

Lemma log_shown_newest_first_witness :
  returns (s' <- run_simulation_step repo_GRID_NODES repo_SIM_INTERVAL_SECONDS
                   (fresh_sim_results repo_GRID_NODES 0) 0 1 ;;
           log_shown s') (constant_rng 0.5)
    (fun shown _ => (List.length shown <= 50)%nat).
Proof.
  eapply returns_weaken.
  - apply (log_shown_newest_first repo_GRID_NODES repo_SIM_INTERVAL_SECONDS
             (fresh_sim_results repo_GRID_NODES 0) 0 1 (constant_rng 0.5)).
    + apply valid_constant_rng; lra.
    + left. discriminate.
  - intros shown g' (Hlen & _). exact Hlen.
Defined.

(** ** The driver's loop *)

Section DriverLoop.

Variable GRID_NODES : list string.
Variable SIM_INTERVAL_SECONDS : Q.

(** A turn on a state that has the two driver keys is the step, called on
    the state with the clock advanced and the counter incremented. *)
Lemma simulation_loop_turn_step (s : SimState) (g : RNG) (now : datetime) (c : Z)
    (P : SimState -> RNG -> Prop) :
  current_sim_time s = Some now -> sim_step_count s = Some c ->
  returns (run_simulation_step GRID_NODES SIM_INTERVAL_SECONDS
             (set_sim_step_count
                (set_current_sim_time s (now + SIM_INTERVAL_SECONDS)) (c + 1)%Z)
             (now + SIM_INTERVAL_SECONDS) SIM_INTERVAL_SECONDS) g P ->
  returns (simulation_loop_turn GRID_NODES SIM_INTERVAL_SECONDS s) g P.
Proof.
  intros Hnow Hcount H. unfold simulation_loop_turn. rewrite Hnow.
  apply returns_getitem. cbv zeta. cbn [sim_step_count set_current_sim_time].
  rewrite Hcount. apply returns_getitem. exact H.
Qed.

Lemma simulation_loop_turn_view (s : SimState) (g : RNG) (now : datetime) (c : Z) :
  GRID_NODES <> [] -> valid_rng g ->
  current_sim_time s = Some now -> sim_step_count s = Some c ->
  returns (simulation_loop_turn GRID_NODES SIM_INTERVAL_SECONDS s) g
    (fun s' g' =>
       valid_rng g' /\ initialized s' /\
       current_sim_time s' = Some (now + SIM_INTERVAL_SECONDS) /\
       sim_step_count s' = Some (c + 1)%Z /\
       ends_with_resource_lines (now + SIM_INTERVAL_SECONDS) s').
Proof.
  intros Hne Hg Hnow Hcount.
  apply simulation_loop_turn_step with now c; [exact Hnow|exact Hcount|].
  eapply returns_weaken.
  - apply returns_and_spec;
      [apply run_simulation_step_view|apply run_simulation_step_tail];
      try exact Hg; left; exact Hne.
  - cbv beta.
    intros s' g' ((Hg' & Hi & outputs & s_mid & l_mid & solar' & Ht & _ & Hs' & _)
                  & Htail).
    split; [exact Hg'|]. split; [exact Hi|].
    split; [rewrite Hs'; exact (tick_current_sim_time _ _ _ _ _ _ _ _ Ht)|].
    split; [rewrite Hs'; exact (tick_sim_step_count _ _ _ _ _ _ _ _ Ht)|].
    destruct Htail as (earlier & fg & fo & cnt & tg & to & tc & Hl & _).
    exists earlier, fg, fo, cnt, tg, to, tc. exact Hl.
Qed.

Lemma simulation_loop_clock (turns : nat) :
  forall (s : SimState) (g : RNG) (now : datetime) (c : Z),
    GRID_NODES <> [] -> valid_rng g ->
    current_sim_time s = Some now -> sim_step_count s = Some c ->
    returns (simulation_loop GRID_NODES SIM_INTERVAL_SECONDS turns s) g
      (fun s' g' =>
         valid_rng g' /\
         exists t,
           current_sim_time s' = Some t /\
           t == now + inject_Z (Z.of_nat turns) * SIM_INTERVAL_SECONDS /\
           sim_step_count s' = Some (c + Z.of_nat turns)%Z /\
           (turns = 0%nat -> s' = s /\ t = now) /\
           ((0 < turns)%nat -> initialized s' /\ ends_with_resource_lines t s')).
Proof.
  induction turns as [|n IH]; intros s g now c Hne Hg Hnow Hcount.
  - cbn [simulation_loop]. apply returns_ret. split; [exact Hg|].
    exists now. split; [exact Hnow|].
    split; [unfold datetime in *; cbn [Z.of_nat]; ring|].
    split; [rewrite Hcount; f_equal; lia|].
    split; [intros _; split; reflexivity|lia].
  - cbn [simulation_loop].
    eapply returns_bind; [apply simulation_loop_turn_view; eassumption|].
    cbv beta. intros s1 g1 (Hg1 & Hi1 & Hnow1 & Hcount1 & Htail1).
    eapply returns_weaken; [apply IH; eassumption|].
    cbv beta.
    intros s2 g2 (Hg2 & t & Hnow2 & Ht & Hcount2 & Hzero & Hpos).
    split; [exact Hg2|]. exists t. split; [exact Hnow2|].
    split; [unfold datetime in *; rewrite Ht, Qnat_succ; ring|].
    split; [rewrite Hcount2; f_equal; lia|].
    split; [discriminate|]. intros _.
    destruct n as [|m].
    + destruct (Hzero eq_refl) as (-> & ->). split; assumption.
    + apply Hpos. lia.
Qed.

(** On a state that has [solar_nodes] a run of the script is the turn of
    the loop. *)
Lemma script_run_turn (s : SimState) (nodes : list SolarNodeController) :
  solar_nodes s = Some nodes ->
  script_run GRID_NODES SIM_INTERVAL_SECONDS s
  = simulation_loop_turn GRID_NODES SIM_INTERVAL_SECONDS s.
Proof. intro H. unfold script_run. rewrite H. reflexivity. Qed.

Lemma script_runs_loop (turns : nat) :
  forall (s : SimState) (g : RNG) (nodes : list SolarNodeController)
         (now : datetime) (c : Z),
    GRID_NODES <> [] -> valid_rng g -> solar_nodes s = Some nodes ->
    current_sim_time s = Some now -> sim_step_count s = Some c ->
    script_runs GRID_NODES SIM_INTERVAL_SECONDS turns s g
    = simulation_loop GRID_NODES SIM_INTERVAL_SECONDS turns s g.
Proof.
  induction turns as [|n IH]; intros s g nodes now c Hne Hg Hsolar Hnow Hcount.
  - reflexivity.
  - cbn [script_runs simulation_loop].
    rewrite (script_run_turn s nodes Hsolar).
    destruct (simulation_loop_turn_view s g now c Hne Hg Hnow Hcount)
      as (s1 & g1 & Hrun & Hg1 & Hi1 & Hnow1 & Hcount1 & _).
    unfold bind. rewrite Hrun.
    destruct Hi1 as (Hsolar1 & _).
    destruct (solar_nodes s1) as [nodes1|] eqn:Hs1; [|congruence].
    apply (IH s1 g1 nodes1 (now + SIM_INTERVAL_SECONDS) (c + 1)%Z); assumption.
Qed.

Lemma script_runs_returns {A : Type} (turns : nat) (s : SimState) (g : RNG)
    (nodes : list SolarNodeController) (now : datetime) (c : Z)
    (k : SimState -> M A) (P : A -> RNG -> Prop) :
  GRID_NODES <> [] -> valid_rng g -> solar_nodes s = Some nodes ->
  current_sim_time s = Some now -> sim_step_count s = Some c ->
  returns (bind (simulation_loop GRID_NODES SIM_INTERVAL_SECONDS turns s) k) g P ->
  returns (bind (script_runs GRID_NODES SIM_INTERVAL_SECONDS turns s) k) g P.
Proof.
  intros Hne Hg Hsolar Hnow Hcount H.
  unfold returns, bind in *.
  rewrite (script_runs_loop turns s g nodes now c Hne Hg Hsolar Hnow Hcount).
  exact H.
Qed.

Lemma script_runs_clock (turns : nat) (s : SimState) (g : RNG)
    (nodes : list SolarNodeController) (now : datetime) (c : Z) :
  GRID_NODES <> [] -> valid_rng g -> solar_nodes s = Some nodes ->
  current_sim_time s = Some now -> sim_step_count s = Some c ->
  returns (script_runs GRID_NODES SIM_INTERVAL_SECONDS turns s) g
    (fun s' _ =>
       exists t,
         current_sim_time s' = Some t /\
         t == now + inject_Z (Z.of_nat turns) * SIM_INTERVAL_SECONDS /\
         sim_step_count s' = Some (c + Z.of_nat turns)%Z /\
         ((0 < turns)%nat -> initialized s' /\ ends_with_resource_lines t s')).
Proof.
  intros Hne Hg Hsolar Hnow Hcount.
  unfold returns.
  rewrite (script_runs_loop turns s g nodes now c Hne Hg Hsolar Hnow Hcount).
  eapply returns_weaken; [apply simulation_loop_clock; eassumption|].
  cbv beta. intros s' g' (_ & t & H1 & H2 & H3 & _ & H4).
  exists t. split; [exact H1|]. split; [exact H2|]. split; [exact H3|exact H4].
Qed.

(** X22. The driver's clock and counter move in lockstep: on a state
    that has [solar_nodes] and the two driver keys, with a non-empty
    region set, [turns] runs of the script return, the clock has
    advanced by [turns] intervals, the counter by [turns], and after at
    least one run the log ends with the resource lines stamped with the
    clock now shown. *)
Theorem driver_clock_lockstep (turns : nat) (s : SimState) (g : RNG)
    (nodes : list SolarNodeController) (now : datetime) (c : Z) :
  GRID_NODES <> [] -> valid_rng g -> solar_nodes s = Some nodes ->
  current_sim_time s = Some now -> sim_step_count s = Some c ->
  returns (script_runs GRID_NODES SIM_INTERVAL_SECONDS turns s) g
    (fun s' _ =>
       exists t,
         current_sim_time s' = Some t /\
         t == now + inject_Z (Z.of_nat turns) * SIM_INTERVAL_SECONDS /\
         sim_step_count s' = Some (c + Z.of_nat turns)%Z /\
         ((0 < turns)%nat -> initialized s' /\ ends_with_resource_lines t s')).
Proof. exact (script_runs_clock turns s g nodes now c). Qed.

(** X23. Unlike the step, the driver does not fill what is absent: with
    a non-empty region set, one run or more of the script on a
    dictionary without [solar_nodes] raises KeyError for that key (line
    55); with it but without [current_sim_time], KeyError for
    [current_sim_time]; with both but without [sim_step_count], KeyError
    for [sim_step_count]; and with the three keys every run returns,
    whatever else the dictionary holds, the counter one up for each
    run. *)
Theorem script_runs_fail_on_missing_key (n : nat) (s : SimState) (g : RNG) :
  GRID_NODES <> [] -> valid_rng g ->
  match solar_nodes s, current_sim_time s, sim_step_count s with
  | None, _, _ =>
      raises (script_runs GRID_NODES SIM_INTERVAL_SECONDS (S n) s) g
        (KeyError "solar_nodes")
  | Some _, None, _ =>
      raises (script_runs GRID_NODES SIM_INTERVAL_SECONDS (S n) s) g
        (KeyError "current_sim_time")
  | Some _, Some _, None =>
      raises (script_runs GRID_NODES SIM_INTERVAL_SECONDS (S n) s) g
        (KeyError "sim_step_count")
  | Some _, Some _, Some c =>
      returns (script_runs GRID_NODES SIM_INTERVAL_SECONDS (S n) s) g
        (fun s' _ =>
           initialized s' /\ sim_step_count s' = Some (c + Z.of_nat (S n))%Z)
  end.
Proof.
  intros Hne Hg.
  destruct (solar_nodes s) as [nodes|] eqn:Hsolar.
  - destruct (current_sim_time s) as [now|] eqn:Hnow.
    + destruct (sim_step_count s) as [c|] eqn:Hcount.
      * eapply returns_weaken;
          [apply (script_runs_clock (S n) s g nodes now c); assumption|].
        cbv beta. intros s' g' (t & _ & _ & Hc & Hlast).
        split; [apply Hlast; lia|exact Hc].
      * unfold raises. cbn [script_runs]. unfold bind at 1.
        rewrite (script_run_turn s nodes Hsolar).
        unfold simulation_loop_turn. rewrite Hnow.
        unfold bind at 1. cbn [getitem ret].
        cbv zeta. cbn [sim_step_count set_current_sim_time]. rewrite Hcount.
        reflexivity.
    + unfold raises. cbn [script_runs]. unfold bind at 1.
      rewrite (script_run_turn s nodes Hsolar).
      unfold simulation_loop_turn. rewrite Hnow. reflexivity.
  - unfold raises. cbn [script_runs]. unfold bind at 1, script_run.
    rewrite Hsolar. reflexivity.
Qed.

(** An invariant of the step that the driver's two writes keep holds
    after any number of turns. *)
Lemma simulation_loop_invariant (Inv : SimState -> Prop) :
  GRID_NODES <> [] ->
  (forall s t c, Inv s -> Inv (set_sim_step_count (set_current_sim_time s t) c)) ->
  (forall s t g,
      Inv s -> valid_rng g ->
      returns (run_simulation_step GRID_NODES SIM_INTERVAL_SECONDS s t
                 SIM_INTERVAL_SECONDS) g
        (fun s' _ => Inv s')) ->
  forall (turns : nat) (s : SimState) (g : RNG) (now : datetime) (c : Z),
    current_sim_time s = Some now -> sim_step_count s = Some c ->
    Inv s -> valid_rng g ->
    returns (simulation_loop GRID_NODES SIM_INTERVAL_SECONDS turns s) g
      (fun s' g' => Inv s' /\ valid_rng g').
Proof.
  intros Hne Hwrite Hstep.
  induction turns as [|n IH]; intros s g now c Hnow Hcount Hinv Hg.
  - cbn [simulation_loop]. apply returns_ret. split; assumption.
  - cbn [simulation_loop].
    eapply returns_bind.
    + apply returns_and_spec.
      * apply simulation_loop_turn_view with (now := now) (c := c); assumption.
      * apply simulation_loop_turn_step with now c; [exact Hnow|exact Hcount|].
        apply Hstep; [apply Hwrite; exact Hinv|exact Hg].
    + cbv beta. intros s1 g1 ((Hg1 & _ & Hnow1 & Hcount1 & _) & Hinv1).
      eapply IH; eassumption.
Qed.

Lemma run_simulation_step_projection (e : Energy) (o : Q) (s : SimState)
    (t : datetime) (g : RNG) :
  GRID_NODES <> [] -> 0 <= SIM_INTERVAL_SECONDS -> valid_rng g ->
  (exists e1 o1, energy s = Some e1 /\ oil s = Some o1 /\
                 total_mwh e <= total_mwh e1 /\ o <= o1) ->
  returns (run_simulation_step GRID_NODES SIM_INTERVAL_SECONDS s t
             SIM_INTERVAL_SECONDS) g
    (fun s' _ =>
       exists e1 o1, energy s' = Some e1 /\ oil s' = Some o1 /\
                     total_mwh e <= total_mwh e1 /\ o <= o1).
Proof.
  intros Hne Hsim Hg (e1 & o1 & He1 & Ho1 & Hle & Hlo).
  eapply returns_weaken;
    [apply run_simulation_step_view; [exact Hg|left; exact Hne]|].
  cbv beta.
  intros s' g' (_ & _ & outputs & s_mid & l_mid & solar' & Ht & _ & -> & _).
  pose proof (tick_energy _ _ _ _ _ _ _ _ Ht) as He'.
  pose proof (tick_oil _ _ _ _ _ _ _ _ Ht) as Ho'.
  pose proof (py_sum_nonneg outputs (tick_outputs_nonneg _ _ _ _ _ _ _ _ Ht Hsim))
    as Hsum.
  assert (Hm : 0 <= SIM_INTERVAL_SECONDS / 60) by (div_by_numeral; lra).
  pose proof (found_range 0.003 (SIM_INTERVAL_SECONDS / 60) g
                (threat_position GRID_NODES s g + 2) Hg ltac:(lra) Hm) as (Hoil & _).
  unfold start_energy in He'. rewrite He1 in He'. rewrite Ho1 in Ho'.
  cbn [or_default] in He', Ho'.
  eexists _, _. split; [exact He'|]. split; [exact Ho'|].
  cbn [total_mwh]. split; lra.
Qed.

(** X24. The BCP projection never falls while the driver runs: with a
    non-empty region set and a non-negative interval, after any number of
    turns the projected BCP is at least what the totals before the turns
    gave, and the BTC equivalent is that amount over 30000. *)
Theorem bcp_projection_never_falls (turns : nat) (s : SimState) (g : RNG)
    (now : datetime) (c : Z) (e : Energy) (o : Q) :
  GRID_NODES <> [] -> 0 <= SIM_INTERVAL_SECONDS -> valid_rng g ->
  current_sim_time s = Some now -> sim_step_count s = Some c ->
  energy s = Some e -> oil s = Some o ->
  returns (s' <- simulation_loop GRID_NODES SIM_INTERVAL_SECONDS turns s ;;
           bcp_projection s') g
    (fun projection _ =>
       total_mwh e * BCP_GENERATION_RATE_PER_MWH_GRID_FLOW
       + o * OIL_GENERATION_RATE_PER_BARREL_FOR_BCP <= fst projection /\
       snd projection == fst projection / 30000).
Proof.
  intros Hne Hsim Hg Hnow Hcount He Ho.
  eapply returns_bind.
  - apply (simulation_loop_invariant
             (fun s' => exists e1 o1, energy s' = Some e1 /\ oil s' = Some o1 /\
                                      total_mwh e <= total_mwh e1 /\ o <= o1))
      with (now := now) (c := c); try assumption.
    + intros s0 t0 c0 H. exact H.
    + intros s0 t0 g0 H Hg0. apply run_simulation_step_projection; assumption.
    + exists e, o. split; [exact He|]. split; [exact Ho|]. split; lra.
  - cbv beta. intros s' g' ((e1 & o1 & He1 & Ho1 & Hle & Hlo) & _).
    unfold bcp_projection. rewrite He1. apply returns_getitem.
    rewrite Ho1. apply returns_getitem. apply returns_ret.
    cbn [fst snd].
    unfold BCP_GENERATION_RATE_PER_MWH_GRID_FLOW,
      OIL_GENERATION_RATE_PER_BARREL_FOR_BCP.
    split; [lra|reflexivity].
Qed.

Lemma credited_bars (n amount bar : Q) (regions : list string) :
  credited n amount (map (fun r => mkDist r bar) regions)
  = map (fun r => mkDist r (bar + amount / n)) regions.
Proof. unfold credited. rewrite map_map. reflexivity. Qed.

Lemma run_simulation_step_bars (s : SimState) (t : datetime) (g : RNG) :
  GRID_NODES <> [] -> valid_rng g ->
  (exists bar, distribution_nodes s = Some (map (fun r => mkDist r bar) GRID_NODES) /\
               (0 <= SIM_INTERVAL_SECONDS -> 0 <= bar)) ->
  returns (run_simulation_step GRID_NODES SIM_INTERVAL_SECONDS s t
             SIM_INTERVAL_SECONDS) g
    (fun s' _ =>
       exists bar, distribution_nodes s' = Some (map (fun r => mkDist r bar) GRID_NODES) /\
                   (0 <= SIM_INTERVAL_SECONDS -> 0 <= bar)).
Proof.
  intros Hne Hg (bar & Hd & Hbar).
  eapply returns_weaken;
    [apply run_simulation_step_view; [exact Hg|left; exact Hne]|].
  cbv beta.
  intros s' g' (_ & _ & outputs & s_mid & l_mid & solar' & Ht & _ & -> & _).
  exists (bar + py_sum outputs / py_len GRID_NODES). split.
  - rewrite <- credited_bars.
    pose proof (tick_distribution _ _ _ _ _ _ _ _ Ht) as Hd'.
    unfold start_distribution in Hd'. rewrite Hd in Hd'. exact Hd'.
  - intro Hsim.
    pose proof (Hbar Hsim) as Hb.
    pose proof (share_nonneg _ GRID_NODES (py_sum outputs)
                  (py_sum_nonneg outputs
                     (tick_outputs_nonneg _ _ _ _ _ _ _ _ Ht Hsim))) as Hshare.
    lra.
Qed.

(** X25. The chart shows equal bars: from the driver's fresh state, with
    a non-empty region set, after any number of runs of the script the
    chart data has one row per region, in the order of the region list,
    and all bars have one and the same height, which is not negative
    when [SIM_INTERVAL_SECONDS] is not. *)
Theorem energy_chart_equal_bars (turns : nat) (now : datetime) (g : RNG) :
  GRID_NODES <> [] -> valid_rng g ->
  returns (s' <- script_runs GRID_NODES SIM_INTERVAL_SECONDS turns
                   (fresh_sim_results GRID_NODES now) ;;
           energy_data s') g
    (fun rows _ =>
       map fst rows = GRID_NODES /\
       exists bar : Q,
         Forall (fun row => snd row = bar) rows /\
         (0 <= SIM_INTERVAL_SECONDS -> 0 <= bar)).
Proof.
  intros Hne Hg.
  apply script_runs_returns
    with (nodes := map new_SolarNodeController GRID_NODES) (now := now) (c := 0%Z);
    try assumption; try reflexivity.
  eapply returns_bind.
  - apply (simulation_loop_invariant
             (fun s' =>
                exists bar,
                  distribution_nodes s' = Some (map (fun r => mkDist r bar) GRID_NODES) /\
                  (0 <= SIM_INTERVAL_SECONDS -> 0 <= bar)))
      with (now := now) (c := 0%Z); try assumption; try reflexivity.
    + intros s0 t0 c0 H. exact H.
    + intros s0 t0 g0 H Hg0. apply run_simulation_step_bars; assumption.
    + exists 0. split; [reflexivity|intros _; lra].
  - cbv beta. intros s' g' ((bar & Hd & Hbar) & _).
    unfold energy_data. rewrite Hd. apply returns_getitem. apply returns_ret.
    rewrite !map_map. cbn [fst snd region_name energy_balance].
    split; [apply map_id|].
    exists bar. split; [|exact Hbar].
    apply Forall_forall. intros row Hin.
    apply in_map_iff in Hin. destruct Hin as (r & <- & _). reflexivity.
Qed.

End DriverLoop.

Lemma bcp_projection_never_falls_witness :
  returns (s' <- simulation_loop repo_GRID_NODES repo_SIM_INTERVAL_SECONDS 2
                   (fresh_sim_results repo_GRID_NODES 0) ;;
           bcp_projection s') (constant_rng 0.5)
    (fun projection _ =>
       0 <= fst projection /\ snd projection == fst projection / 30000).
Proof.
  eapply returns_weaken.
  - apply (bcp_projection_never_falls repo_GRID_NODES repo_SIM_INTERVAL_SECONDS 2
             (fresh_sim_results repo_GRID_NODES 0) (constant_rng 0.5) 0 0%Z
             (mkEnergy 0) 0).
    + discriminate.
    + unfold repo_SIM_INTERVAL_SECONDS. lra.
    + apply valid_constant_rng; lra.
    + reflexivity.
    + reflexivity.
    + reflexivity.
    + reflexivity.
  - cbv beta. intros projection g' (Hlow & Hbtc).
    split; [|exact Hbtc].
    cbn [total_mwh] in Hlow.
    unfold BCP_GENERATION_RATE_PER_MWH_GRID_FLOW,
      OIL_GENERATION_RATE_PER_BARREL_FOR_BCP in Hlow. lra.
Defined.



Lemma driver_clock_lockstep_witness :
  returns (script_runs repo_GRID_NODES repo_SIM_INTERVAL_SECONDS 3
             (fresh_sim_results repo_GRID_NODES 0)) (constant_rng 0.5)
    (fun s' _ =>
       exists t,
         current_sim_time s' = Some t /\
         t == 3 * repo_SIM_INTERVAL_SECONDS /\
         sim_step_count s' = Some 3%Z /\
         ends_with_resource_lines t s').
Proof.
  eapply returns_weaken.
  - apply (driver_clock_lockstep repo_GRID_NODES repo_SIM_INTERVAL_SECONDS 3
             (fresh_sim_results repo_GRID_NODES 0) (constant_rng 0.5)
             (map new_SolarNodeController repo_GRID_NODES) 0 0%Z).
    + discriminate.
    + apply valid_constant_rng; lra.
    + reflexivity.
    + reflexivity.
    + reflexivity.
  - cbv beta. intros s' g' (t & Ht & Heq & Hc & Hlast).
    exists t. split; [exact Ht|].
    split; [rewrite Heq; cbn [Z.of_nat Pos.of_succ_nat Pos.succ]; ring|].
    split; [exact Hc|]. apply Hlast. lia.
Defined.

Lemma script_runs_fail_on_missing_key_witness :
  raises (script_runs repo_GRID_NODES repo_SIM_INTERVAL_SECONDS 1 empty_state)
    (constant_rng 0.5) (KeyError "solar_nodes").
Proof.
  apply (script_runs_fail_on_missing_key repo_GRID_NODES repo_SIM_INTERVAL_SECONDS
           0 empty_state (constant_rng 0.5)).
  - discriminate.
  - apply valid_constant_rng; lra.
Defined.

Lemma energy_chart_equal_bars_witness :
  returns (s' <- script_runs repo_GRID_NODES repo_SIM_INTERVAL_SECONDS 2
                   (fresh_sim_results repo_GRID_NODES 0) ;;
           energy_data s') (constant_rng 0.5)
    (fun rows _ =>
       map fst rows = ["RegionAlpha"; "RegionBeta"; "RegionGamma"]%string /\
       exists bar : Q, Forall (fun row => snd row = bar) rows /\ 0 <= bar).
Proof.
  eapply returns_weaken.
  - apply (energy_chart_equal_bars repo_GRID_NODES repo_SIM_INTERVAL_SECONDS 2 0
             (constant_rng 0.5)).
    + discriminate.
    + apply valid_constant_rng; lra.
  - cbv beta. intros rows g' (Hnames & bar & Hall & Hbar).
    split; [exact Hnames|]. exists bar. split; [exact Hall|].
    apply Hbar. unfold repo_SIM_INTERVAL_SECONDS. lra.
Defined.
